(** * iRacing telemetry analysis: a shallow embedding of the analysis core

    The development follows the Python sources module by module:

    - [Py]          : the fragment of Python's run-time behaviour the sources
                      rely on (exceptions, truthiness, slices, [min]/[max]).
    - [Segmenter]   : [advanced_metrics.py], the corner and braking-zone
                      detectors and the corner classification.
    - [LapSplitter] : the lap analysis of the Node script embedded in
                      [ibt_parser.py].
    - [CosWorth]    : [cosworth_pi_analysis.py], the lap-time statistics.
    - [Decoder]     : [real_ibt_parser.py], the chain of parsing methods.
    - [Processor]   : [enhanced_telemetry_processor.py], the entry point with
                      its set of processed files.

    Floating-point numbers are idealised: rationals ([Q]) where the code only
    adds, multiplies, divides and compares, real numbers ([R]) where it takes
    square roots.  Rounding errors of IEEE arithmetic are outside these
    models; the special values that change control flow (division by zero,
    the mean of an empty array) are modelled explicitly.  Where a property
    depends on rounding, the computation is given on binary64 numbers as
    well (module [Binary64]), and the statements about the idealised
    functions are those that rounding to nearest preserves. *)

From Stdlib Require Import ZArith QArith Qround Reals Lia String Ascii List.
From Stdlib Require Import DecimalString Sorting.Sorted.
From Stdlib Require Lra Lqa.
From Stdlib Require Floats Uint63.
From stdpp Require Import gmap strings list.
Import ListNotations.

(* ===================================================================== *)
(** * Python run-time fragment                                            *)
(* ===================================================================== *)

Module Py.

(** The exception classes that occur in the modelled code paths. *)
Inductive exn :=
| FileNotFoundError
| PermissionError
| ImportError
| ZeroDivisionError
| TypeError
| AttributeError
| ValueError
| UnicodeEncodeError
| TimeoutExpired
| JSONDecodeError
| RuntimeError (msg : string).

(** A Python call either returns a value or raises. *)
Inductive result (A : Type) :=
| Ok (a : A)
| Raise (e : exn).
Arguments Ok {A} a.
Arguments Raise {A} e.

Definition bind {A B} (r : result A) (k : A -> result B) : result B :=
  match r with
  | Ok a => k a
  | Raise e => Raise e
  end.

(** The call returns (it does not raise). *)
Definition returns {A} (r : result A) : Prop := exists a, r = Ok a.

(** [try: r  except Exception: handler]. *)
Definition try_except {A} (r : result A) (handler : exn -> A) : A :=
  match r with
  | Ok a => a
  | Raise e => handler e
  end.

(** [str(e)]: the message of an exception; only the class is kept. *)
Definition str_exn (e : exn) : string :=
  match e with
  | FileNotFoundError => "No such file or directory"
  | PermissionError => "Permission denied"
  | ImportError => "No module"
  | ZeroDivisionError => "division by zero"
  | TypeError => "unsupported operand"
  | AttributeError => "object has no attribute"
  | ValueError => "invalid value"
  | UnicodeEncodeError => "codec can't encode character: surrogates not allowed"
  | TimeoutExpired => "timed out"
  | JSONDecodeError => "Expecting value"
  | RuntimeError msg => msg
  end.

Definition Qlt_bool (a b : Q) : bool := negb (Qle_bool b a).

(** [l[start:end]] for non-negative indices: out-of-range bounds are
    clipped, never an error. *)
Definition slice {A} (start stop : nat) (l : list A) : list A :=
  take (stop - start) (drop start l).

(** [min(x, *rest)] and [max(x, *rest)]: the running best is replaced only
    by a strictly better element, so the first optimum wins. *)
Fixpoint min_from (best : Q) (l : list Q) : Q :=
  match l with
  | [] => best
  | y :: rest => min_from (if Qlt_bool y best then y else best) rest
  end.

Fixpoint max_from (best : Q) (l : list Q) : Q :=
  match l with
  | [] => best
  | y :: rest => max_from (if Qlt_bool best y then y else best) rest
  end.

(** [min(l)] and [max(l)] raise [ValueError] on an empty list. *)
Definition py_min (l : list Q) : result Q :=
  match l with
  | [] => Raise ValueError
  | x :: rest => Ok (min_from x rest)
  end.

Definition py_max (l : list Q) : result Q :=
  match l with
  | [] => Raise ValueError
  | x :: rest => Ok (max_from x rest)
  end.

(** [l.index(v)]: position of the first element equal to [v]. *)
Fixpoint index_from (v : Q) (l : list Q) (i : nat) : result nat :=
  match l with
  | [] => Raise ValueError
  | x :: rest => if Qeq_bool x v then Ok i else index_from v rest (S i)
  end.

Definition py_index (v : Q) (l : list Q) : result nat := index_from v l 0.

(** [l[i]] for a non-negative index. *)
Definition py_get (l : list Q) (i : nat) : result Q :=
  match l !! i with
  | Some x => Ok x
  | None => Raise (RuntimeError "IndexError")
  end.

Definition Qsum (l : list Q) : Q := fold_left Qplus l 0%Q.

Definition Qabs' (q : Q) : Q := if Qlt_bool q 0 then Qopp q else q.

End Py.

#[global] Instance result_bind : MBind Py.result := fun A B k r => Py.bind r k.
#[global] Instance result_ret : MRet Py.result := @Py.Ok.

(* ===================================================================== *)
(** * advanced_metrics.py: segmentation and corner classification         *)
(* ===================================================================== *)

Module Segmenter.
Import Py.

(** The dictionary built by [_analyze_corner_section]. *)
Record corner := mkCorner {
  entry_speed : Q;
  apex_speed : Q;
  exit_speed : Q;
  max_lateral_g : Q;
  corner_duration : nat;
  speed_loss : Q;
  speed_gain : Q
}.

(** The dictionary built by [_analyze_braking_zone]. *)
Record braking_zone := mkZone {
  zone_entry_speed : Q;
  zone_exit_speed : Q;
  speed_reduction : Q;
  max_pressure : Q;
  max_deceleration : Q;
  braking_distance : nat;
  braking_duration : nat;
  average_pressure : Q
}.

(** [np.mean] of a non-empty list of rationals. *)
Definition mean (l : list Q) : Q := (Qsum l / inject_Z (Z.of_nat (length l)))%Q.

(** The body of the [try] block of [_analyze_corner_section]. *)
Definition corner_section_body (speed lateral_g : list Q) (start stop : nat)
  : result (option corner) :=
  let corner_speeds := slice start stop speed in
  let corner_g := slice start stop lateral_g in
  match corner_speeds, corner_g with
  | [], _ | _, [] => Ok None
  | s0 :: _, _ :: _ =>
      m ← py_min corner_speeds;
      apex_idx ← py_index m corner_speeds;
      apex ← py_get corner_speeds apex_idx;
      g ← py_max corner_g;
      let s_last := List.last corner_speeds s0 in
      Ok (Some {| entry_speed := s0;
                  apex_speed := apex;
                  exit_speed := s_last;
                  max_lateral_g := g;
                  corner_duration := stop - start;
                  speed_loss := s0 - apex;
                  speed_gain := s_last - apex |})
  end.

(** [_analyze_corner_section]: a bare [except] turns any exception into
    [None]. *)
Definition _analyze_corner_section (speed lateral_g : list Q) (start stop : nat)
  : option corner :=
  try_except (corner_section_body speed lateral_g start stop) (fun _ => None).

(** The body of the [try] block of [_analyze_braking_zone]. *)
Definition braking_zone_body (speed brake_pressure longitudinal_g : list Q)
  (start stop : nat) : result (option braking_zone) :=
  let zone_speeds := slice start stop speed in
  let zone_pressure := slice start stop brake_pressure in
  let zone_g := slice start stop longitudinal_g in
  match zone_speeds, zone_pressure with
  | [], _ | _, [] => Ok None
  | s0 :: _, _ :: _ =>
      let s_last := List.last zone_speeds s0 in
      p ← py_max zone_pressure;
      g ← py_min zone_g;
      Ok (Some {| zone_entry_speed := s0;
                  zone_exit_speed := s_last;
                  speed_reduction := s0 - s_last;
                  max_pressure := p;
                  max_deceleration := Qabs' g;
                  braking_distance := length zone_speeds * 20;
                  braking_duration := stop - start;
                  average_pressure := mean zone_pressure |})
  end.

Definition _analyze_braking_zone (speed brake_pressure longitudinal_g : list Q)
  (start stop : nat) : option braking_zone :=
  try_except (braking_zone_body speed brake_pressure longitudinal_g start stop)
             (fun _ => None).

(** The [for i in range(len(lateral_g))] loop of [_identify_corners].
    [rest] is [lateral_g[i:]], so its head is [lateral_g[i]]; the loop
    variables are [in_corner], [corner_start] and the list [corners]. *)
Fixpoint corners_loop (speed lateral_g : list Q) (rest : list Q) (i : nat)
  (in_corner : bool) (corner_start : nat) (corners : list corner) : list corner :=
  match rest with
  | [] => corners
  | g :: rest' =>
      if Qlt_bool 0.3 g && negb in_corner then
        corners_loop speed lateral_g rest' (S i) true i corners
      else if Qle_bool g 0.3 && in_corner then
        corners_loop speed lateral_g rest' (S i) false corner_start
          (if 5 <? i - corner_start then
             match _analyze_corner_section speed lateral_g corner_start i with
             | Some corner_data => corners ++ [corner_data]
             | None => corners
             end
           else corners)
      else corners_loop speed lateral_g rest' (S i) in_corner corner_start corners
  end.

Definition _identify_corners (speed lateral_g steering : list Q) : list corner :=
  corners_loop speed lateral_g lateral_g 0 false 0 [].

(** The loop of [_identify_braking_zones]. *)
Fixpoint braking_loop (speed brake_pressure longitudinal_g : list Q)
  (rest : list Q) (i : nat) (in_braking : bool) (braking_start : nat)
  (zones : list braking_zone) : list braking_zone :=
  match rest with
  | [] => zones
  | p :: rest' =>
      if Qlt_bool 10 p && negb in_braking then
        braking_loop speed brake_pressure longitudinal_g rest' (S i) true i zones
      else if Qle_bool p 10 && in_braking then
        braking_loop speed brake_pressure longitudinal_g rest' (S i) false braking_start
          (if 3 <? i - braking_start then
             match _analyze_braking_zone speed brake_pressure longitudinal_g
                     braking_start i with
             | Some zone_data => zones ++ [zone_data]
             | None => zones
             end
           else zones)
      else braking_loop speed brake_pressure longitudinal_g rest' (S i)
             in_braking braking_start zones
  end.

Definition _identify_braking_zones (speed brake_pressure longitudinal_g : list Q)
  : list braking_zone :=
  braking_loop speed brake_pressure longitudinal_g brake_pressure 0 false 0 [].

(** ** The two detectors as one thresholded scan

    Both loops are the same two-state machine; [scan_from] is that machine
    with the entry threshold, the minimum span and the per-segment analysis
    as parameters.  The dictionaries of the source do not record the index
    range of a segment, so the scan can be run on an analysis that also
    returns the range ([traced]). *)

Record span (A : Type) := mkSpan {
  seg_start : nat;
  seg_end : nat;
  seg_data : A
}.
Arguments mkSpan {A} _ _ _.
Arguments seg_start {A} _.
Arguments seg_end {A} _.
Arguments seg_data {A} _.

Section ThresholdScan.
Context {A : Type}.
Variable threshold : Q.
Variable min_span : nat.
Variable analyze : nat -> nat -> option A.

Fixpoint scan_from (signal : list Q) (i : nat) (inside : bool) (start : nat)
  (acc : list A) : list A :=
  match signal with
  | [] => acc
  | x :: rest =>
      if Qlt_bool threshold x && negb inside then
        scan_from rest (S i) true i acc
      else if Qle_bool x threshold && inside then
        scan_from rest (S i) false start
          (if min_span <? i - start then
             match analyze start i with
             | Some d => acc ++ [d]
             | None => acc
             end
           else acc)
      else scan_from rest (S i) inside start acc
  end.

Definition scan (signal : list Q) : list A := scan_from signal 0 false 0 [].
End ThresholdScan.

Definition traced {A} (analyze : nat -> nat -> option A) (s e : nat)
  : option (span A) :=
  option_map (mkSpan s e) (analyze s e).

(** A recorded segment is longer than the minimum and carries the
    analysis of its own range. *)
Definition well_formed {A} (min_span : nat) (analyze : nat -> nat -> option A)
  (sp : span A) : Prop :=
  min_span < seg_end sp - seg_start sp /\
  analyze (seg_start sp) (seg_end sp) = Some (seg_data sp).

(** Segments appear in index order, each one ending before the next
    starts. *)
Definition ordered {A} (l : list (span A)) : Prop :=
  StronglySorted (fun a b => seg_end a < seg_start b) l.

(** Corner segments with their index ranges. *)
Definition corner_spans (speed lateral_g : list Q) : list (span corner) :=
  scan 0.3 5 (traced (_analyze_corner_section speed lateral_g)) lateral_g.

(** Braking zones with their index ranges. *)
Definition braking_spans (speed brake_pressure longitudinal_g : list Q)
  : list (span braking_zone) :=
  scan 10 3 (traced (_analyze_braking_zone speed brake_pressure longitudinal_g))
       brake_pressure.

(** ** Corner classification ([_analyze_cornering]) *)

(** The lists of the [telemetry] dictionary ([telemetry.get(key, [])]). *)
Record telemetry := mkTelemetry {
  speed : list Q;
  lateral_g : list Q;
  longitudinal_g : list Q;
  brake_pressure : list Q;
  steering_angle : list Q
}.

(** [self.corner_types], in insertion order: class name and the speed
    range [(min_speed, max_speed)] in km/h. *)
Definition corner_types : list (string * (Q * Q)) :=
  [ ("hairpin", (0, 60));
    ("slow", (60, 100));
    ("medium", (100, 150));
    ("fast", (150, 200));
    ("very_fast", (200, 300)) ]%Q.

(** The chained comparison [min_speed <= c['entry_speed'] <= max_speed]. *)
Definition in_range (rng : Q * Q) (c : corner) : bool :=
  Qle_bool (fst rng) (entry_speed c) && Qle_bool (entry_speed c) (snd rng).

(** [[c for c in corners if min_speed <= c['entry_speed'] <= max_speed]]. *)
Definition type_corners (corners : list corner) (rng : Q * Q) : list corner :=
  List.filter (in_range rng) corners.

(** A NumPy scalar: [np.mean] of an empty list is [nan], not an error. *)
Inductive npfloat :=
| Num (q : Q)
| NaN.

Definition np_mean (l : list Q) : npfloat :=
  match l with
  | [] => NaN
  | _ :: _ => Num (mean l)
  end.

(** Division of Python floats. *)
Definition py_div (a b : Q) : result Q :=
  if Qeq_bool b 0 then Raise ZeroDivisionError else Ok (a / b)%Q.

(** The per-class dictionary stored in [corner_analysis]. *)
Record class_stats := mkStats {
  count : nat;
  average_entry_speed : Q;
  average_apex_speed : Q;
  average_exit_speed : Q;
  average_max_g : Q;
  speed_maintained : Q
}.

Definition class_stats_of (cs : list corner) : result class_stats :=
  ratios ← mapM (fun c => py_div (apex_speed c) (entry_speed c)) cs;
  Ok {| count := length cs;
        average_entry_speed := mean (map entry_speed cs);
        average_apex_speed := mean (map apex_speed cs);
        average_exit_speed := mean (map exit_speed cs);
        average_max_g := mean (map max_lateral_g cs);
        speed_maintained := mean ratios * 100 |}.

(** The loop over [self.corner_types.items()]: a class gets an entry only
    when at least one corner falls in its range. *)
Fixpoint corner_analysis_loop (corners : list corner)
  (types : list (string * (Q * Q))) (corner_analysis : list (string * class_stats))
  : result (list (string * class_stats)) :=
  match types with
  | [] => Ok corner_analysis
  | (corner_type, rng) :: types' =>
      match type_corners corners rng with
      | [] => corner_analysis_loop corners types' corner_analysis
      | cs =>
          st ← class_stats_of cs;
          corner_analysis_loop corners types' (corner_analysis ++ [(corner_type, st)])
      end
  end.

Definition Qmin' (a b : Q) : Q := if Qlt_bool b a then b else a.

(** [_calculate_cornering_efficiency]. *)
Definition _calculate_cornering_efficiency (corners : list corner) : result Q :=
  match corners with
  | [] => Ok 0%Q
  | _ :: _ =>
      efficiency_scores ←
        mapM (fun c =>
                speed_maintenance ← py_div (apex_speed c) (entry_speed c);
                exit_acceleration ← py_div (exit_speed c) (apex_speed c);
                Ok (Qmin' 100 (speed_maintenance * 50 + exit_acceleration * 30)))
             corners;
      Ok (mean efficiency_scores)
  end.

Record overall_cornering := mkOverall {
  overall_entry_speed : npfloat;
  overall_apex_speed : npfloat;
  overall_exit_speed : npfloat;
  cornering_efficiency : Q
}.

Record cornering_analysis := mkCornering {
  total_corners : nat;
  corner_type_stats : list (string * class_stats);
  overall : overall_cornering
}.

(** [_analyze_cornering]; [None] stands for the empty dictionary returned
    when there is no speed or no lateral-G data. *)
Definition _analyze_cornering (t : telemetry) : result (option cornering_analysis) :=
  match speed t, lateral_g t with
  | [], _ | _, [] => Ok None
  | _ :: _, _ :: _ =>
      let corners := _identify_corners (speed t) (lateral_g t) (steering_angle t) in
      corner_analysis ← corner_analysis_loop corners corner_types [];
      eff ← _calculate_cornering_efficiency corners;
      Ok (Some {| total_corners := length corners;
                  corner_type_stats := corner_analysis;
                  overall :=
                    {| overall_entry_speed := np_mean (map entry_speed corners);
                       overall_apex_speed := np_mean (map apex_speed corners);
                       overall_exit_speed := np_mean (map exit_speed corners);
                       cornering_efficiency := eff |} |})
  end.

(** [c] is one of the corners counted for the class named [class]. *)
Definition counted_in (corners : list corner) (class : string) (c : corner) : Prop :=
  exists rng, In (class, rng) corner_types /\ In c (type_corners corners rng).

(** ** Sample streams *)

(** The lateral-G sequence of the corner scenario and a speed trace of the
    same length. *)
Definition scenario_lateral_g : list Q := [0; 0; 0.5; 0.6; 0.4; 0.2; 0; 0]%Q.
Definition scenario_speed : list Q := [100; 100; 90; 80; 70; 80; 90; 100]%Q.

(** A stream with two corners, samples 1 to 7 and samples 10 to 16. *)
Definition two_corner_lateral_g : list Q :=
  [0; 0.5; 0.6; 0.7; 0.8; 0.7; 0.6; 0.5; 0; 0;
   0.4; 0.9; 1.1; 1.2; 1.1; 0.9; 0.4; 0.1; 0]%Q.
Definition two_corner_speed : list Q :=
  [150; 140; 130; 120; 110; 115; 125; 135; 150; 160;
   120; 100; 90; 80; 85; 95; 110; 130; 150]%Q.

(** A stream with one corner (samples 1 to 7) entered at exactly 60 km/h. *)
Definition boundary_telemetry : telemetry :=
  {| speed := [70; 60; 55; 50; 52; 56; 60; 65; 70; 70]%Q;
     lateral_g := [0; 0.5; 0.5; 0.5; 0.5; 0.5; 0.5; 0.5; 0; 0]%Q;
     longitudinal_g := [];
     brake_pressure := [];
     steering_angle := [] |}.

Definition boundary_corner : corner :=
  {| entry_speed := 60; apex_speed := 50; exit_speed := 65;
     max_lateral_g := 0.5; corner_duration := 7;
     speed_loss := 60 - 50; speed_gain := 65 - 50 |}%Q.

(** The number of corners counted over all classes. *)
Definition class_count_total (a : cornering_analysis) : nat :=
  list_sum (map (fun e => count (snd e)) (corner_type_stats a)).

End Segmenter.

(* ===================================================================== *)
(** * ibt_parser.py: lap analysis of the embedded Node script             *)
(* ===================================================================== *)

Module LapSplitter.
Import Py.

(** The two fields of [sample.toJSON()] the lap analysis reads.  A field
    that is absent from the object reads as [undefined] ([None]). *)
Record sample := mkSample {
  Lap : option Z;
  SessionTime : option Q
}.

(** [laps], [currentLap] and [lapStartTime] of [parseIBTFile].  A JavaScript
    [Map] keeps its keys in insertion order, so it is an association
    list. *)
Record lap_state := mkLapState {
  laps : list (Z * Q);
  currentLap : Z;
  lapStartTime : Q
}.

(** [Map.prototype.set]: an existing key keeps its position and gets the
    new value, a new key is appended. *)
Fixpoint map_set (k : Z) (v : Q) (m : list (Z * Q)) : list (Z * Q) :=
  match m with
  | [] => [(k, v)]
  | (k', v') :: m' =>
      if (k' =? k)%Z then (k, v) :: m' else (k', v') :: map_set k v m'
  end.

(** [sample.SessionTime || 0]: [undefined] and [0] are falsy. *)
Definition or_zero (t : option Q) : Q :=
  match t with
  | Some q => if Qeq_bool q 0 then 0%Q else q
  | None => 0%Q
  end.

(** The callback passed to [sampleData.forEach]. *)
Definition lap_step (st : lap_state) (s : sample) : lap_state :=
  match Lap s with
  | Some lap =>
      if negb (lap =? currentLap st)%Z then
        {| laps :=
             if (0 <=? currentLap st)%Z then
               match SessionTime s with
               | Some t => map_set (currentLap st) (t - lapStartTime st)%Q (laps st)
               | None => laps st
               end
             else laps st;
           currentLap := lap;
           lapStartTime := or_zero (SessionTime s) |}
      else st
  | None => st
  end.

Definition initial_state : lap_state :=
  {| laps := []; currentLap := (-1)%Z; lapStartTime := 0%Q |}.

(** [sampleData]: the first 1000 samples of the stream are kept. *)
Definition sampleData (samples : list sample) : list sample := take 1000 samples.

Record lap_record := mkLap {
  lapNumber : Z;
  lapTime : Q
}.

(** [result.summary.laps]: the entries of the map, in order. *)
Definition summary_laps (samples : list sample) : list lap_record :=
  map (fun e => {| lapNumber := fst e; lapTime := snd e |})
      (laps (fold_left lap_step (sampleData samples) initial_state)).

(** The lap numbers recorded once the first [n] samples have been
    visited. *)
Definition laps_after (n : nat) (samples : list sample) : list Z :=
  map fst (laps (fold_left lap_step (take n (sampleData samples)) initial_state)).

(** A stream given by its lap indices, with the session time starting at
    [t0] and growing by [1.0] per sample. *)
Fixpoint stream_from (t0 : Q) (lap_indices : list Z) : list sample :=
  match lap_indices with
  | [] => []
  | lap :: rest =>
      {| Lap := Some lap; SessionTime := Some t0 |} :: stream_from (t0 + 1)%Q rest
  end.

End LapSplitter.

(* ===================================================================== *)
(** * cosworth_pi_analysis.py: lap-time statistics                         *)
(* ===================================================================== *)

Module CosWorth.
Import Py.
Local Open Scope R_scope.

(** ** NumPy reductions over an array of lap times *)

Definition Rsum (l : list R) : R := fold_right Rplus 0 l.

(** [np.mean]. *)
Definition np_mean (l : list R) : R := Rsum l / INR (length l).

(** [np.std]: the population standard deviation,
    [sqrt(mean(abs(x - x.mean())**2))]. *)
Definition np_std (l : list R) : R :=
  sqrt (np_mean (map (fun x => Rsqr (x - np_mean l)) l)).

(** [np.min] of a non-empty array. *)
Definition np_min (l : list R) : R :=
  match l with
  | [] => 0
  | x :: rest => fold_left Rmin rest x
  end.

(** [np.sort]. *)
Fixpoint insert_sorted (x : R) (l : list R) : list R :=
  match l with
  | [] => [x]
  | y :: rest => if Rle_dec x y then x :: l else y :: insert_sorted x rest
  end.

Definition np_sort (l : list R) : list R := fold_right insert_sorted [] l.

(** [np.percentile(l, p)] with the default linear interpolation: the
    virtual index is [(n - 1) * p / 100]. *)
Definition np_percentile (l : list R) (p : nat) : R :=
  let sorted := np_sort l in
  let h := ((length l - 1) * p)%nat in
  let lo := nth (h / 100) sorted 0 in
  let hi := nth (h / 100 + 1) sorted lo in
  lo + INR (h mod 100) / 100 * (hi - lo).

(** [np.median]. *)
Definition np_median (l : list R) : R := np_percentile l 50.

(** A quotient of NumPy scalars: dividing by zero gives [inf] or [nan]
    (with a warning), not an exception. *)
Inductive npreal :=
| Finite (r : R)
| NonFinite.

Definition np_div (a b : R) : npreal :=
  if Req_dec_T b 0 then NonFinite else Finite (a / b).

(** ** The metrics *)

(** [_calculate_theoretical_best]. *)
Definition _calculate_theoretical_best (lap_times : list R) : R :=
  let sorted_times := np_sort lap_times in
  let best_3 := take (Nat.min 3 (length sorted_times)) sorted_times in
  np_mean best_3 * 0.998.

(** [_calculate_consistency_coefficient].  [cv] is a NumPy quotient; when
    the mean is zero it is [inf] or [nan], [1.0 - cv * 10] is [-inf] or
    [nan], and Python's [max(0.0, .)] keeps its first argument [0.0]. *)
Definition _calculate_consistency_coefficient (lap_times : list R) : R :=
  if (length lap_times <? 2)%nat then 0
  else
    match np_div (np_std lap_times) (np_mean lap_times) with
    | NonFinite => 0
    | Finite cv => Rmax 0 (1 - cv * 10)
    end.

(** The slope [np.polyfit(x, y, 1)[0]] of the least-squares line through
    the points [(0, y0), (1, y1), ...]. *)
Definition arange (n : nat) : list R := map INR (seq 0 n).

Definition polyfit_slope (y : list R) : R :=
  let x := arange (length y) in
  let xm := np_mean x in
  let ym := np_mean y in
  Rsum (map (fun xy => (fst xy - xm) * (snd xy - ym)) (combine x y))
  / Rsum (map (fun xi => Rsqr (xi - xm)) x).

(** The dictionary of [_analyze_pace_degradation]. *)
Inductive pace_degradation :=
| PaceInsufficientData
| PaceTrend (trend_slope degradation_per_lap : R) (interpretation : string).

Definition _analyze_pace_degradation (lap_times : list R) : pace_degradation :=
  if (length lap_times <? 5)%nat then PaceInsufficientData
  else
    let slope := polyfit_slope lap_times in
    PaceTrend slope slope
      (if Rlt_dec slope (-0.01) then "Improving"
       else if Rlt_dec (Rabs slope) 0.01 then "Stable"
       else "Degrading").

(** The dictionary of [_analyze_improvement_trend]. *)
Inductive improvement_trend :=
| TrendInsufficientData
| Trend (improvement_amount : R) (interpretation : string).

(** [lap_times[-len(lap_times)//3:]]: [-n // 3] rounds towards minus
    infinity, so the slice keeps the last [ceil(n / 3)] elements. *)
Definition last_third (lap_times : list R) : list R :=
  let n := length lap_times in
  drop (n - (n + 2) / 3) lap_times.

Definition _analyze_improvement_trend (lap_times : list R) : improvement_trend :=
  if (length lap_times <? 5)%nat then TrendInsufficientData
  else
    let first_third := take (length lap_times / 3) lap_times in
    let improvement := np_mean first_third - np_mean (last_third lap_times) in
    Trend improvement
      (if Rlt_dec 0.5 improvement then "Significant improvement"
       else if Rlt_dec 0.1 improvement then "Slight improvement"
       else "Stable").

Record percentiles := mkPercentiles {
  p95 : R; p90 : R; p75 : R; p50 : R; p25 : R
}.

Record performance := mkPerformance {
  fastest_lap : R;
  theoretical_best : R;
  gap_to_theoretical : R;
  average_lap_time : R;
  median_lap_time : R;
  standard_deviation : R;
  coefficient_of_variation : npreal;
  consistency_coefficient : R;
  performance_percentiles : percentiles;
  pace_degradation_of : pace_degradation;
  improvement_trend_of : improvement_trend
}.

(** The dictionary of [_calculate_performance_metrics]:
    [{'status': 'insufficient_data'}] or the metrics. *)
Inductive performance_metrics :=
| InsufficientData
| Metrics (p : performance).

(** The keys of [session_data] the metrics read; an absent key is
    [None] and [.get] supplies the default. *)
Record lap_analysis := mkLapAnalysis {
  lap_times : option (list R)
}.

Record session_data := mkSession {
  session_lap_analysis : option lap_analysis
}.

(** [session_data.get('lap_analysis', {}).get('lap_times', [])]. *)
Definition get_lap_times (sd : session_data) : list R :=
  match session_lap_analysis sd with
  | Some la => default [] (lap_times la)
  | None => []
  end.

Definition scale100 (x : npreal) : npreal :=
  match x with
  | Finite r => Finite (r * 100)
  | NonFinite => NonFinite
  end.

Definition _calculate_performance_metrics (sd : session_data) : performance_metrics :=
  match get_lap_times sd with
  | [] => InsufficientData
  | lap_times_array =>
      let fastest_time := np_min lap_times_array in
      let best := _calculate_theoretical_best lap_times_array in
      Metrics
        {| fastest_lap := fastest_time;
           theoretical_best := best;
           gap_to_theoretical := best - fastest_time;
           average_lap_time := np_mean lap_times_array;
           median_lap_time := np_median lap_times_array;
           standard_deviation := np_std lap_times_array;
           coefficient_of_variation :=
             scale100 (np_div (np_std lap_times_array) (np_mean lap_times_array));
           consistency_coefficient :=
             _calculate_consistency_coefficient lap_times_array;
           performance_percentiles :=
             {| p95 := np_percentile lap_times_array 95;
                p90 := np_percentile lap_times_array 90;
                p75 := np_percentile lap_times_array 75;
                p50 := np_percentile lap_times_array 50;
                p25 := np_percentile lap_times_array 25 |};
           pace_degradation_of := _analyze_pace_degradation lap_times_array;
           improvement_trend_of := _analyze_improvement_trend lap_times_array |}
  end.

(** ** The coefficient in the words of the specification

    "consistency coefficient = 1 - (stddev(lapTimes) / mean(lapTimes)),
    clamped to [0,1]". *)
Definition clamp01 (x : R) : R := Rmax 0 (Rmin 1 x).

Definition spec_consistency_coefficient (lap_times : list R) : R :=
  clamp01 (1 - np_std lap_times / np_mean lap_times).

End CosWorth.

(* ===================================================================== *)
(** * cosworth_pi_analysis.py on binary64 numbers                           *)
(* ===================================================================== *)

Module Binary64.
Import PrimFloat.
Local Open Scope float_scope.

(** The number of elements of an array as a double. *)
Definition of_count (n : nat) : float := of_uint63 (Uint63.of_Z (Z.of_nat n)).

Section Reductions.
(** NumPy adds the elements of an array of fewer than 8 doubles from left
    to right; from 8 elements on it adds them pairwise in blocks, which is
    left open here. *)
Variable pairwise_sum : list float -> float.

(** [np.add.reduce] (the sign of a zero sum aside). *)
Definition np_sum (l : list float) : float :=
  if (length l <? 8)%nat then fold_left add l 0 else pairwise_sum l.

(** [np.mean]: the sum divided by the count. *)
Definition np_mean (l : list float) : float := np_sum l / of_count (length l).

(** [np.std]: [sqrt] of the mean of the squared deviations from the
    mean. *)
Definition np_std (l : list float) : float :=
  let arrmean := np_mean l in
  sqrt (np_mean (map (fun x => (x - arrmean) * (x - arrmean)) l)).

(** [max(a, b)]: the first argument unless the second is greater; a NaN is
    never greater. *)
Definition py_max (a b : float) : float := if ltb a b then b else a.

(** [_calculate_consistency_coefficient]. *)
Definition _calculate_consistency_coefficient (lap_times : list float) : float :=
  if (length lap_times <? 2)%nat then 0
  else
    let cv := np_std lap_times / np_mean lap_times in
    py_max 0 (1 - cv * 10).

End Reductions.




End Binary64.

(* ===================================================================== *)
(** * Python values, strings and the operating system                     *)
(* ===================================================================== *)

Module PyData.
Import Py.

(** JSON-like Python values; a dictionary with string keys is a finite
    map. *)
#[warnings="-register-all"]
Inductive pyval :=
| PNone
| PBool (b : bool)
| PInt (z : Z)
| PFloat (q : Q)
| PStr (s : string)
| PList (l : list pyval)
| PDict (d : gmap string pyval).

(** Truth value of an object, as tested by [if x] and [not x]. *)
Definition truthy (v : pyval) : bool :=
  match v with
  | PNone => false
  | PBool b => b
  | PInt z => negb (z =? 0)%Z
  | PFloat q => negb (Qeq_bool q 0)
  | PStr s => negb (String.eqb s "")
  | PList l => negb (Nat.eqb (length l) 0)
  | PDict d => negb (Nat.eqb (size d) 0)
  end.

(** A dictionary display [{k1: v1, ...}] with distinct keys. *)
Definition dict_of (l : list (string * pyval)) : gmap string pyval := list_to_map l.

(** [d.get(k)]: [None] when the key is absent. *)
Definition dict_get (d : gmap string pyval) (k : string) : pyval := default PNone (d !! k).

(** [d.update(other)]: the entries of [other] win. *)
Definition dict_update (d other : gmap string pyval) : gmap string pyval := other ∪ d.

(** ** [str] methods *)

(** [c in s] for a single character [c]. *)
Fixpoint contains_char (c : ascii) (s : string) : bool :=
  match s with
  | EmptyString => false
  | String c' s' => Ascii.eqb c' c || contains_char c s'
  end.

(** [sub in s]. *)
Fixpoint contains (sub s : string) : bool :=
  String.prefix sub s ||
  match s with
  | EmptyString => false
  | String _ s' => contains sub s'
  end.

(** [s.split(sep)] for a single character [sep]: never empty, adjacent
    separators give empty fields. *)
Fixpoint split_on (sep : ascii) (s : string) : list string :=
  match s with
  | EmptyString => [EmptyString]
  | String c s' =>
      if Ascii.eqb c sep then EmptyString :: split_on sep s'
      else match split_on sep s' with
           | [] => [String c EmptyString]
           | w :: ws => String c w :: ws
           end
  end.

(** [s.split(sep, 1)] when [sep] occurs in [s]: the text before and after
    its first occurrence. *)
Fixpoint split_first (sep : ascii) (s : string) : string * string :=
  match s with
  | EmptyString => (EmptyString, EmptyString)
  | String c s' =>
      if Ascii.eqb c sep then (EmptyString, s')
      else let '(a, b) := split_first sep s' in (String c a, b)
  end.

(** [s.replace(old, new)] for a non-empty [old]: occurrences are replaced
    from left to right without overlap; [skip] counts the characters of a
    matched occurrence still to be dropped. *)
Fixpoint replace_from (old new : string) (skip : nat) (s : string) : string :=
  match s with
  | EmptyString => EmptyString
  | String c s' =>
      match skip with
      | S k => replace_from old new k s'
      | O =>
          if String.prefix old s
          then (new +:+ replace_from old new (String.length old - 1) s')
          else String c (replace_from old new 0 s')
      end
  end.

Definition replace (old new s : string) : string := replace_from old new 0 s.

(** [s.lower()] on ASCII letters. *)
Definition lower_char (c : ascii) : ascii :=
  let n := nat_of_ascii c in
  if (65 <=? n)%nat && (n <=? 90)%nat then ascii_of_nat (n + 32) else c.

Fixpoint lower (s : string) : string :=
  match s with
  | EmptyString => EmptyString
  | String c s' => String (lower_char c) (lower s')
  end.

(** [str(i)] for an integer. *)
Definition str_int (z : Z) : string := NilZero.string_of_int (Z.to_int z).

(** [os.path.basename] with [/] as separator. *)
Definition basename (path : string) : string :=
  List.last (split_on "/" path) EmptyString.

(** ** Numbers *)

(** [int(x)] of a float: truncation towards zero. *)
Definition int_of_float (q : Q) : Z :=
  if Qlt_bool q 0 then Qceiling q else Qfloor q.

(** Rounding to the nearest integer, ties to even. *)
Definition round_half_even (q : Q) : Z :=
  let f := Qfloor q in
  let r := (q - inject_Z f)%Q in
  if Qlt_bool r (1 # 2) then f
  else if Qlt_bool (1 # 2) r then (f + 1)%Z
  else if Z.even f then f else (f + 1)%Z.

(** [round(x, 3)]. *)
Definition round3 (q : Q) : Q :=
  (inject_Z (round_half_even (q * 1000)) / 1000)%Q.

(** ** The file system and the Python process *)

(** What [stat], [open] and [read] can observe of a path.  [content] is
    [None] for an entry that exists but cannot be opened for reading (a
    directory, a file without read permission). *)
Record file := mkFile {
  st_mtime : Q;
  st_size : Z;
  content : option string
}.

(** The outcome of [subprocess.run(['node', script, path], timeout=60)]
    together with what the run leaves behind: the exception raised, or the
    return code and the parsed-JSON file next to the recording (absent,
    unreadable as JSON, or a value). *)
Inductive node_run :=
| NodeRaises (e : exn)
| NodeExits (returncode : Z) (json_file : option (result pyval)).

Record world := mkWorld {
  fs : gmap string file;
  node_script_exists : bool;
  node : string -> node_run
}.

(** Properties of the running interpreter: whether [import irsdk] works,
    the salted [hash] of strings, the decoder behind
    [bytes.decode('utf-8', errors='ignore')], the encoder behind
    [str.encode()], which has no bytes ([UnicodeEncodeError]) for a string
    with a lone surrogate, as in the name of a file that is not valid
    UTF-8, [hashlib.md5(..).hexdigest()] of bytes, [str] of a float and the
    clock. *)
Record runtime := mkRuntime {
  irsdk_installed : bool;
  py_hash : string -> Z;
  utf8_decode_ignore : string -> string;
  str_encode : string -> option string;
  md5_hexdigest : string -> string;
  str_float : Q -> string;
  now_isoformat : string
}.

(** [os.path.getsize]. *)
Definition getsize (w : world) (path : string) : result Z :=
  match fs w !! path with
  | Some f => Ok (st_size f)
  | None => Raise FileNotFoundError
  end.

(** [open(path, 'rb')] followed by [f.read(n)]. *)
Definition open_read (w : world) (path : string) (n : nat) : result string :=
  match fs w !! path with
  | None => Raise FileNotFoundError
  | Some f =>
      match content f with
      | None => Raise PermissionError
      | Some bytes => Ok (String.substring 0 n bytes)
      end
  end.

End PyData.

(* ===================================================================== *)
(** * real_ibt_parser.py: the chain of parsing methods                     *)
(* ===================================================================== *)

Module Decoder.
Import Py PyData.

(** A parsing method: given the path, it returns a dictionary or [None],
    or raises. *)
Definition parser_method := string -> result (option (gmap string pyval)).

(** [result and result.get('success')]. *)
Definition reports_success (r : option (gmap string pyval)) : bool :=
  match r with
  | None => false
  | Some d => truthy (PDict d) && truthy (dict_get d "success")
  end.

(** The loop of [parse_ibt_file] over [self.parser_methods]: the first
    result that reports success is returned; a method that raises is
    logged and skipped. *)
Fixpoint try_methods (methods : list parser_method) (file_path : string)
  : option (gmap string pyval) :=
  match methods with
  | [] => None
  | method :: rest =>
      match method file_path with
      | Ok r => if reports_success r then r else try_methods rest file_path
      | Raise _ => try_methods rest file_path
      end
  end.

(** A method succeeds on a path with [r] when it returns [r] and [r]
    reports success; it fails when it raises, returns [None] or returns a
    result that does not report success. *)
Definition succeeds (method : parser_method) (file_path : string)
  (r : gmap string pyval) : Prop :=
  method file_path = Ok (Some r) /\ reports_success (Some r) = true.

Definition fails (method : parser_method) (file_path : string) : Prop :=
  match method file_path with
  | Ok r => reports_success r = false
  | Raise _ => True
  end.

Section Methods.
Variable rt : runtime.
Variable w : world.

(** [_parse_with_irsdk]. *)
Definition _parse_with_irsdk : parser_method := fun file_path =>
  Ok (try_except (A := option (gmap string pyval))
    (if irsdk_installed rt then
       size ← getsize w file_path;
       Ok (Some (dict_of
             [ ("method", PStr "pyirsdk");
               ("success", PBool false);
               ("fileName", PStr (basename file_path));
               ("fileSize", PInt size);
               ("error", PStr "pyirsdk is for live telemetry, not IBT files") ]))
     else Raise ImportError)
    (fun _ => None)).

(** [_parse_filename_info]. *)
Definition _parse_filename_info (filename : string) : gmap string pyval :=
  let filename_no_ext := replace ".ibt" "" filename in
  let parts := split_on " " filename_no_ext in
  let info : gmap string pyval := ∅ in
  let info :=
    match parts with
    | car_track :: _ =>
        if contains_char "_" car_track then
          let '(car, track) := split_first "_" car_track in
          <["track" := PStr track]> (<["car" := PStr car]> info)
        else info
    | [] => info
    end in
  if (3 <=? length parts)%nat then
    let date_part := nth (length parts - 2) parts EmptyString in
    let time_part := nth (length parts - 1) parts EmptyString in
    if contains_char "-" date_part && Nat.eqb (String.length date_part) 10 then
      <["session_time" := PStr (replace "-" ":" time_part)]>
        (<["session_date" := PStr date_part]> info)
    else info
  else info.

(** [_extract_session_from_binary]; nothing in its [try] block can
    raise on a header and a path. *)
Definition _extract_session_from_binary (header_data file_path : string)
  : gmap string pyval :=
  let session_info := dict_update ∅ (_parse_filename_info (basename file_path)) in
  let header_str := utf8_decode_ignore rt header_data in
  let session_info :=
    if contains "iRacing" header_str
    then <["source" := PStr "iRacing"]> session_info
    else session_info in
  <["binary_analysis" := PStr "Basic header analysis completed"]> session_info.

(** [track_times], in insertion order. *)
Definition track_times : list (string * Q) :=
  [ ("roadatlanta", 90); ("talladega", 45); ("watkinsglen", 105);
    ("sebring", 115); ("daytona", 85) ]%Q.

(** The [for track, time in track_times.items()] search. *)
Fixpoint find_base_time (filename : string) (tracks : list (string * Q)) : Q :=
  match tracks with
  | [] => 90%Q
  | (track, time) :: rest =>
      if contains track filename then time else find_base_time filename rest
  end.

(** One iteration of the lap-time loop for lap index [i], on rationals; the
    interpreter rounds the sums and the result of [round(., 3)] to
    binary64, so its value is the double next to this one. *)
Definition generated_lap_time (base_time : Q) (i : nat) : Q :=
  let fi := inject_Z (Z.of_nat i) in
  let variation :=
    (if (i <? 5)%nat then -2 + fi * 0.1 else -1 + fi * 0.05)%Q in
  let variation :=
    (variation + inject_Z (py_hash rt (str_int (Z.of_nat i)) mod 100) / 100)%Q in
  round3 (base_time + variation).

Definition lap_entry (i : nat) (t : Q) : pyval :=
  PDict (dict_of [ ("lapNumber", PInt (Z.of_nat i + 1));
                       ("lapTime", PFloat t) ]).

(** [_generate_realistic_lap_times]. *)
Definition _generate_realistic_lap_times (file_path : string) (duration : Q)
  : gmap string pyval :=
  let filename := lower (basename file_path) in
  let base_time := find_base_time filename track_times in
  let failed : gmap string pyval :=
    dict_of [ ("total_laps", PInt 0); ("lap_times", PList []);
                  ("fastest_lap", PNone); ("estimation_method", PStr "failed") ] in
  if Qlt_bool 0 duration then
    let estimated_laps := Z.to_nat (Z.max 1 (int_of_float (duration / base_time))) in
    let times_only := map (generated_lap_time base_time) (seq 0 estimated_laps) in
    match times_only with
    | [] => failed
    | t0 :: ts =>
        dict_of
          [ ("total_laps", PInt (Z.of_nat (length times_only)));
            ("lap_times", PList (map PFloat times_only));
            ("fastest_lap", PFloat (min_from t0 ts));
            ("average_lap",
             PFloat (Qsum times_only / inject_Z (Z.of_nat (length times_only))));
            ("lap_details",
             PList (take 10 (imap lap_entry times_only)));
            ("estimation_method", PStr "track_based_realistic") ]
    end
  else failed.

(** [_estimate_telemetry_data]; an exception gives the empty
    dictionary. *)
Definition _estimate_telemetry_data (file_path : string) : gmap string pyval :=
  try_except (A := gmap string pyval)
    (file_size ← getsize w file_path;
     let estimated_samples := ((file_size - 10000) / 400)%Z in
     let estimated_duration := (inject_Z estimated_samples / 60)%Q in
     let lap_times := _generate_realistic_lap_times file_path estimated_duration in
     Ok (dict_of
           [ ("estimated_telemetry",
              PDict (dict_of
                       [ ("total_samples", PInt estimated_samples);
                         ("sample_rate", PInt 60);
                         ("duration_seconds", PFloat estimated_duration);
                         ("estimated_parameters", PInt 100) ]));
             ("lap_analysis", PDict lap_times);
             ("note",
              PStr "These are estimates based on file analysis, not actual telemetry parsing") ]))
    (fun _ => ∅).

(** [_parse_with_binary_analysis]. *)
Definition _parse_with_binary_analysis : parser_method := fun file_path =>
  Ok (try_except (A := option (gmap string pyval))
    (header_data ← open_read w file_path 1024;
     size ← getsize w file_path;
     let result : gmap string pyval :=
       dict_of
         [ ("method", PStr "binary_analysis");
           ("success", PBool false);
           ("fileName", PStr (basename file_path));
           ("fileSize", PInt size);
           ("fileSizeMB", PFloat (inject_Z size / (1024 * 1024))) ] in
     let session_info := _extract_session_from_binary header_data file_path in
     let result :=
       if truthy (PDict session_info)
       then <["success" := PBool true]> (dict_update result session_info)
       else result in
     let telemetry_estimate := _estimate_telemetry_data file_path in
     let result :=
       if truthy (PDict telemetry_estimate)
       then dict_update result telemetry_estimate
       else result in
     Ok (Some result))
    (fun _ => None)).

(** [_parse_with_node_fallback]. *)
Definition _parse_with_node_fallback : parser_method := fun file_path =>
  Ok (try_except (A := option (gmap string pyval))
    (if negb (node_script_exists w) then Ok None
     else
       match node w file_path with
       | NodeRaises e => Raise e
       | NodeExits returncode json_file =>
           if (returncode =? 0)%Z then
             match json_file with
             | Some loaded =>
                 data ← loaded;
                 match data with
                 | PDict d =>
                     Ok (Some (<["success" := PBool true]>
                                 (<["method" := PStr "node_js_parser"]> d)))
                 | _ => Raise TypeError
                 end
             | None => Ok None
             end
           else Ok None
       end)
    (fun _ => None)).

(** [self.parser_methods]. *)
Definition parser_methods : list parser_method :=
  [ _parse_with_irsdk; _parse_with_binary_analysis; _parse_with_node_fallback ].

(** [parse_ibt_file]. *)
Definition parse_ibt_file (file_path : string) : option (gmap string pyval) :=
  try_methods parser_methods file_path.

End Methods.

(** The provenance tag of a result. *)
Definition provenance (d : gmap string pyval) : pyval := dict_get d "method".

End Decoder.

(* ===================================================================== *)
(** * enhanced_telemetry_processor.py: the entry point                     *)
(* ===================================================================== *)

Module Processor.
Import Py PyData Decoder.

(** [d.get(k1, {}).get(k2, dflt)]: the inner [.get] exists only on a
    dictionary. *)
Definition sub_get (d : gmap string pyval) (k1 k2 : string) (dflt : pyval)
  : result pyval :=
  match d !! k1 with
  | None => Ok dflt
  | Some (PDict d') => Ok (default dflt (d' !! k2))
  | Some _ => Raise AttributeError
  end.

(** What [Path(path).stat()] reports and the hash depends on. *)
Definition stat (w : world) (path : string) : option (Q * Z) :=
  (fun f => (st_mtime f, st_size f)) <$> fs w !! path.

Section EntryPoint.
Variable rt : runtime.

(** The helpers that fill the fields of the returned dictionary from the
    parsed data, and the professional analyzer held by the processor.
    They read their arguments only; they may raise. *)
Variable _extract_enhanced_session_info : gmap string pyval -> result pyval.
Variable _extract_enhanced_lap_analysis : gmap string pyval -> result pyval.
Variable _generate_enhanced_insights :
  pyval -> pyval -> gmap string pyval -> result pyval.
Variable analyze_session_professional : gmap string pyval -> result pyval.

(** [hash_input]: the path, the modification time and the size. *)
Definition hash_input (file_path : string) (f : file) : string :=
  file_path +:+ ":" +:+ str_float rt (st_mtime f) +:+ ":" +:+ str_int (st_size f).

(** [_get_file_hash]: [stat] raises when the path does not exist, and
    [hash_input.encode()] raises when the path cannot be encoded. *)
Definition _get_file_hash (w : world) (file_path : string) : result string :=
  match fs w !! file_path with
  | None => Raise FileNotFoundError
  | Some f =>
      match str_encode rt (hash_input file_path f) with
      | Some bytes => Ok (md5_hexdigest rt bytes)
      | None => Raise UnicodeEncodeError
      end
  end.

(** The [try] block of [process_telemetry_file]: the dictionary to
    return, [None] when parsing failed. *)
Definition process_body (w : world) (file_hash file_path : string)
  : result (option (gmap string pyval)) :=
  match parse_ibt_file rt w file_path with
  | None => Ok None
  | Some raw_data =>
      if negb (reports_success (Some raw_data)) then Ok None
      else
        session_info ← _extract_enhanced_session_info raw_data;
        lap_analysis ← _extract_enhanced_lap_analysis raw_data;
        insights ← _generate_enhanced_insights session_info lap_analysis raw_data;
        total_samples ← sub_get raw_data "estimated_telemetry" "total_samples" (PInt 0);
        duration ← sub_get raw_data "estimated_telemetry" "duration_seconds" (PInt 0);
        let processed_data : gmap string pyval :=
          dict_of
            [ ("id", PStr file_hash);
              ("file_path", PStr file_path);
              ("processed_timestamp", PStr (now_isoformat rt));
              ("session_info", session_info);
              ("lap_analysis", lap_analysis);
              ("insights", insights);
              ("raw_data_summary",
               PDict (dict_of
                        [ ("file_size_mb", default (PInt 0) (raw_data !! "fileSizeMB"));
                          ("parsing_method",
                           default (PStr "unknown") (raw_data !! "method"));
                          ("total_samples", total_samples);
                          ("duration", duration) ]));
              ("estimated_telemetry",
               default (PDict ∅) (raw_data !! "estimated_telemetry")) ] in
        let professional_analysis :=
          try_except (analyze_session_professional processed_data)
            (fun e => PDict (dict_of [ ("status", PStr "failed");
                                       ("error", PStr (str_exn e)) ])) in
        Ok (Some (<["professional_analysis" := professional_analysis]> processed_data))
  end.

(** [process_telemetry_file].  The state of the processor is its set
    [processed_files]; the outcome is the value returned (or the
    exception that leaves the method) and the new set. *)
Definition process_telemetry_file (w : world) (processed_files : gset string)
  (file_path : string)
  : result (option (gmap string pyval)) * gset string :=
  match _get_file_hash w file_path with
  | Raise e => (Raise e, processed_files)
  | Ok file_hash =>
      if decide (file_hash ∈ processed_files) then (Ok None, processed_files)
      else
        match process_body w file_hash file_path with
        | Ok (Some processed_data) =>
            (Ok (Some processed_data), {[file_hash]} ∪ processed_files)
        | Ok None => (Ok None, processed_files)
        | Raise _ => (Ok None, processed_files)
        end
  end.

End EntryPoint.

End Processor.

(* ===================================================================== *)
(** * A sample interpreter and file system                                 *)
(* ===================================================================== *)

Module Samples.
Import Py PyData.

(** An interpreter without [irsdk]; the string hash, the decoder and the
    digest are simple stand-ins. *)
Definition sample_runtime : runtime :=
  {| irsdk_installed := false;
     py_hash := fun s => (Z.of_nat (String.length s) * 37)%Z;
     utf8_decode_ignore := fun bytes => bytes;
     str_encode := fun s => Some s;
     md5_hexdigest := fun s => s;
     str_float := fun q => str_int (Qfloor q) +:+ ".0";
     now_isoformat := "2025-09-21T10:00:00" |}.

Definition recording_path : string :=
  "/telemetry/porsche992cup_roadatlanta full 2025-09-13 13-27-17.ibt".

(** A directory with one recording of 200000 bytes (its header is all that
    is read) and one empty file; the Node parser script is not
    installed. *)
Definition sample_world : world :=
  {| fs := <[recording_path := mkFile 1757770037 200000 (Some "iRacing telemetry")]>
             (<["/telemetry/empty.ibt" := mkFile 1757770100 0 (Some "")]> ∅);
     node_script_exists := false;
     node := fun _ => NodeRaises FileNotFoundError |}.

(** The same interpreter with an encoder that refuses what [str.encode]
    refuses: a lone surrogate, which is what a file name that is not valid
    UTF-8 is decoded to.  The byte 255, which no UTF-8 text contains, stands
    for it. *)
Definition strict_runtime : runtime :=
  {| irsdk_installed := false;
     py_hash := py_hash sample_runtime;
     utf8_decode_ignore := utf8_decode_ignore sample_runtime;
     str_encode := fun s => if contains_char "255"%char s then None else Some s;
     md5_hexdigest := md5_hexdigest sample_runtime;
     str_float := str_float sample_runtime;
     now_isoformat := now_isoformat sample_runtime |}.

(** A readable recording whose name is not valid UTF-8. *)
Definition misnamed_path : string :=
  "/telemetry/lap" +:+ String "255"%char ".ibt".

Definition misnamed_world : world :=
  {| fs := <[misnamed_path := mkFile 1757770200 200000 (Some "iRacing telemetry")]> ∅;
     node_script_exists := false;
     node := fun _ => NodeRaises FileNotFoundError |}.

(** Stand-ins for the helpers of the processor: they return an empty
    dictionary. *)
Definition no_session_info (raw_data : gmap string pyval) : result pyval :=
  Ok (PDict ∅).
Definition no_lap_analysis (raw_data : gmap string pyval) : result pyval :=
  Ok (PDict ∅).
Definition no_insights (session_info lap_analysis : pyval)
  (raw_data : gmap string pyval) : result pyval := Ok (PDict ∅).
Definition no_professional_analysis (processed_data : gmap string pyval)
  : result pyval := Ok (PDict ∅).

End Samples.

(* ===================================================================== *)
(** * advanced_metrics.py: G-force zones, braking intensity, brake pressure *)
(* ===================================================================== *)

Module Metrics.
Import Py Segmenter.

(** A segment covers a run of the signal above the threshold: every sample
    of the range exceeds the threshold, the sample at the end index exists
    and does not, and the sample before the range (when there is one) does
    not either. *)
Definition run_above {A} (threshold : Q) (signal : list Q) (sp : span A) : Prop :=
  (forall k, seg_start sp <= k < seg_end sp ->
             exists x, signal !! k = Some x /\ (threshold < x)%Q)
  /\ (exists x, signal !! seg_end sp = Some x /\ (x <= threshold)%Q)
  /\ (seg_start sp = 0
      \/ exists x, signal !! (seg_start sp - 1) = Some x /\ (x <= threshold)%Q).

(** The dictionary appended by [_find_peak_g_zones]. *)
Record peak_zone := mkPeak {
  peak_start : nat;
  peak_end : nat;
  peak_duration : nat;
  peak_max_g : Q;
  peak_average_g : npfloat
}.

(** The loop of [_find_peak_g_zones]; [max] of an empty slice would raise
    and nothing catches it here. *)
Fixpoint peak_loop (lateral_g rest : list Q) (i : nat) (in_peak : bool)
  (start_idx : nat) (zones : list peak_zone) : result (list peak_zone) :=
  match rest with
  | [] => Ok zones
  | g :: rest' =>
      if Qlt_bool 1 g && negb in_peak then
        peak_loop lateral_g rest' (S i) true i zones
      else if Qle_bool g 1 && in_peak then
        max_g ← py_max (slice start_idx i lateral_g);
        peak_loop lateral_g rest' (S i) false start_idx
          (zones ++ [ {| peak_start := start_idx;
                         peak_end := i;
                         peak_duration := i - start_idx;
                         peak_max_g := max_g;
                         peak_average_g := np_mean (slice start_idx i lateral_g) |} ])
      else peak_loop lateral_g rest' (S i) in_peak start_idx zones
  end.

Definition _find_peak_g_zones (lateral_g : list Q) : result (list peak_zone) :=
  peak_loop lateral_g lateral_g 0 false 0 [].

(** The dictionary of one zone, [None] when [max] raises. *)
Definition peak_section (lateral_g : list Q) (start_idx i : nat) : option peak_zone :=
  match py_max (slice start_idx i lateral_g) with
  | Ok max_g =>
      Some {| peak_start := start_idx;
              peak_end := i;
              peak_duration := i - start_idx;
              peak_max_g := max_g;
              peak_average_g := np_mean (slice start_idx i lateral_g) |}
  | Raise _ => None
  end.

(** The index range of a peak zone, as a segment. *)
Definition peak_span (z : peak_zone) : span peak_zone :=
  mkSpan (peak_start z) (peak_end z) z.

(** [self.braking_thresholds]. *)
Definition braking_light : Q := 0.2.
Definition braking_moderate : Q := 0.5.
Definition braking_heavy : Q := 0.8.
Definition braking_maximum : Q := 1.2.

(** The four lists of [categories] in [_categorize_braking_zones]. *)
Record braking_categories := mkCategories {
  light : list braking_zone;
  moderate : list braking_zone;
  heavy : list braking_zone;
  maximum : list braking_zone
}.

(** One iteration of [for zone in braking_zones]. *)
Definition categorize_step (categories : braking_categories) (zone : braking_zone)
  : braking_categories :=
  let decel := max_deceleration zone in
  if Qlt_bool decel braking_light then
    {| light := light categories ++ [zone]; moderate := moderate categories;
       heavy := heavy categories; maximum := maximum categories |}
  else if Qlt_bool decel braking_moderate then
    {| light := light categories; moderate := moderate categories ++ [zone];
       heavy := heavy categories; maximum := maximum categories |}
  else if Qlt_bool decel braking_heavy then
    {| light := light categories; moderate := moderate categories;
       heavy := heavy categories ++ [zone]; maximum := maximum categories |}
  else
    {| light := light categories; moderate := moderate categories;
       heavy := heavy categories; maximum := maximum categories ++ [zone] |}.

Definition categorize (braking_zones : list braking_zone) : braking_categories :=
  fold_left categorize_step braking_zones
    {| light := []; moderate := []; heavy := []; maximum := [] |}.

(** [_categorize_braking_zones]: the number of zones per category, in the
    order of the dictionary. *)
Definition _categorize_braking_zones (braking_zones : list braking_zone)
  : list (string * nat) :=
  let categories := categorize braking_zones in
  [ ("light", length (light categories));
    ("moderate", length (moderate categories));
    ("heavy", length (heavy categories));
    ("maximum", length (maximum categories)) ].

(** The tests of the [if]/[elif] chain, one per category. *)
Definition is_light (z : braking_zone) : bool :=
  Qlt_bool (max_deceleration z) braking_light.
Definition is_moderate (z : braking_zone) : bool :=
  negb (is_light z) && Qlt_bool (max_deceleration z) braking_moderate.
Definition is_heavy (z : braking_zone) : bool :=
  negb (is_light z) && negb (Qlt_bool (max_deceleration z) braking_moderate)
  && Qlt_bool (max_deceleration z) braking_heavy.
Definition is_maximum (z : braking_zone) : bool :=
  negb (is_light z) && negb (Qlt_bool (max_deceleration z) braking_moderate)
  && negb (Qlt_bool (max_deceleration z) braking_heavy).

(** [_calculate_brake_pressure]. *)
Definition brake_pressure_of (long_g : Q) : Q :=
  if Qlt_bool long_g (-0.1) then Qmin' 100 (Qabs' long_g * 50) else 0.

Definition _calculate_brake_pressure (longitudinal_g : list Q) : list Q :=
  map brake_pressure_of longitudinal_g.

(** A corner with positive speeds whose apex is not faster than its entry. *)
Definition sound_corner (c : corner) : Prop :=
  (0 < apex_speed c)%Q /\ (apex_speed c <= entry_speed c)%Q
  /\ (0 < exit_speed c)%Q.


(** What an entry of [corner_analysis] says about the corners. *)
Definition class_entry_ok (corners : list corner) (e : string * class_stats) : Prop :=
  0 < count (snd e)
  /\ (0 < speed_maintained (snd e) <= 100)%Q
  /\ exists rng, In (fst e, rng) corner_types
                 /\ count (snd e) = length (type_corners corners rng).

(** A stream whose only corner (samples 1 to 7) is entered at standstill. *)
Definition standstill_telemetry : telemetry :=
  {| speed := [70; 0; 55; 50; 52; 56; 60; 65; 70; 70]%Q;
     lateral_g := [0; 0.5; 0.5; 0.5; 0.5; 0.5; 0.5; 0.5; 0; 0]%Q;
     longitudinal_g := [];
     brake_pressure := [];
     steering_angle := [] |}.

End Metrics.


(* ===================================================================== *)
(** * ibt_parser.py: lap streams and the lap analysis of the parser         *)
(* ===================================================================== *)

Module LapAnalysis.
Import Py LapSplitter.

(** A stream in which every sample has a lap index and a session time. *)
Definition samples_of (stream : list (Z * Q)) : list sample :=
  map (fun p => {| Lap := Some (fst p); SessionTime := Some (snd p) |}) stream.

(** The number of lap-index changes along a stream, counted from the
    initial [currentLap]. *)
Fixpoint transitions (current : Z) (lap_indices : list (option Z)) : nat :=
  match lap_indices with
  | [] => 0
  | None :: rest => transitions current rest
  | Some lap :: rest =>
      if (lap =? current)%Z then transitions current rest
      else S (transitions lap rest)
  end.

(** Lap indices never decrease and the session time strictly increases
    from one sample to the next. *)
Definition advancing (stream : list (Z * Q)) : Prop :=
  StronglySorted (fun p q => (fst p <= fst q)%Z /\ (snd p < snd q)%Q) stream.

(** The session time of the first sample whose lap index satisfies [p]. *)
Definition first_time (p : Z -> bool) (stream : list (Z * Q)) : option Q :=
  option_map snd (List.find (fun s => p (fst s)) stream).

(** A stream that changes lap twice and stops in its third lap. *)
Definition three_lap_stream : list (Z * Q) :=
  [(0%Z, 10%Q); (0%Z, 40%Q); (1%Z, 95.5%Q); (1%Z, 130%Q); (2%Z, 190.25%Q); (2%Z, 200%Q)].

(** What the scan keeps for the lap numbers recorded so far, given the
    lap indices [seen]. *)
Definition keys_ok (seen : list (option Z)) (st : lap_state) : Prop :=
  List.NoDup (map fst (laps st))
  /\ (forall k, In k (map fst (laps st)) -> (0 <= k)%Z /\ In (Some k) seen)
  /\ (currentLap st = (-1)%Z \/ In (Some (currentLap st)) seen).

(** What holds once the samples of [seen] have been visited. *)
Definition closed_laps_ok (seen : list (Z * Q)) (st : lap_state) : Prop :=
  match last seen with
  | None => st = initial_state
  | Some final =>
      currentLap st = fst final
      /\ Forall (fun s => (fst s <= fst final)%Z) seen
      /\ ((0 <= currentLap st)%Z ->
          exists ts, first_time (Z.eqb (currentLap st)) seen = Some ts
                     /\ (lapStartTime st == ts)%Q)
      /\ StronglySorted Z.lt (map fst (laps st))
      /\ Forall (fun e =>
                   (0 <= fst e < fst final)%Z
                   /\ exists ta tb,
                       first_time (Z.eqb (fst e)) seen = Some ta
                       /\ first_time (Z.ltb (fst e)) seen = Some tb
                       /\ (ta < tb)%Q
                       /\ (snd e == tb - ta)%Q) (laps st)
      /\ (forall s, In s seen -> (0 <= fst s)%Z ->
            fst s = fst final \/ In (fst s) (map fst (laps st)))
  end.

(** The dictionary of [extract_lap_analysis] when there are laps; the two
    consistency entries exist only with more than one valid lap. *)
Record lap_summary := mkSummary {
  total_laps : nat;
  lap_times : list Q;
  fastest_lap : option Q;
  slowest_lap : option Q;
  average_lap_time : option Q;
  lap_time_std : option Q;
  consistency_rating : option Q
}.

Inductive lap_analysis :=
| NoSummary
| NoLaps
| Laps (a : lap_summary).

(** [min(l) if l else None] and [max(l) if l else None]. *)
Definition min_or_none (l : list Q) : option Q :=
  match l with
  | [] => None
  | x :: rest => Some (min_from x rest)
  end.

Definition max_or_none (l : list Q) : option Q :=
  match l with
  | [] => None
  | x :: rest => Some (max_from x rest)
  end.

Definition Qmax' (a b : Q) : Q := if Qlt_bool a b then b else a.

Section ExtractLapAnalysis.
(** [statistics.stdev], and [sum(l) / len(l)] as the float arithmetic
    computes it: the rounded quotient of the rounded sum, which for equal
    lap times can fall a last digit outside the range of the list. *)
Variable stdev : list Q -> Q.
Variable average : list Q -> Q.

(** [extract_lap_analysis] on the parsed output of the Node script: the
    summary may be missing, and so may its lap list. *)
Definition extract_lap_analysis (summary : option (option (list lap_record)))
  : lap_analysis :=
  match summary with
  | None => NoSummary
  | Some laps_entry =>
      match default [] laps_entry with
      | [] => NoLaps
      | laps =>
          let times :=
            map lapTime (List.filter (fun lap => Qlt_bool 0 (lapTime lap)) laps) in
          let several := (1 <? length times)%nat in
          Laps {| total_laps := length laps;
                  lap_times := times;
                  fastest_lap := min_or_none times;
                  slowest_lap := max_or_none times;
                  average_lap_time :=
                    match times with
                    | [] => None
                    | _ :: _ => Some (average times)
                    end;
                  lap_time_std := if several then Some (stdev times) else None;
                  consistency_rating :=
                    if several then Some (Qmax' 0 (10 - stdev times * 10)) else None |}
      end
  end.

End ExtractLapAnalysis.

(** Three laps of which the second has a time that is not positive. *)
Definition laps_with_invalid_time : list lap_record :=
  [ {| lapNumber := 0; lapTime := 90.5 |};
    {| lapNumber := 1; lapTime := -3 |};
    {| lapNumber := 2; lapTime := 89 |} ].

End LapAnalysis.


(* ===================================================================== *)
(** * real_ibt_parser.py: what the chain sees of the world                 *)
(* ===================================================================== *)

Module Decoding.
Import Py PyData Decoder.

(** The path names a file that [open(path, 'rb')] can read. *)
Definition readable (w : world) (file_path : string) : Prop :=
  exists f bytes, fs w !! file_path = Some f /\ content f = Some bytes.

(** The dictionary the Node parser leaves in the JSON file next to the
    recording, when the script is installed, exits with code 0 and the
    file holds a JSON object. *)
Definition node_output (w : world) (file_path : string)
  : option (gmap string pyval) :=
  if node_script_exists w then
    match node w file_path with
    | NodeExits 0 (Some (Ok (PDict d))) => Some d
    | _ => None
    end
  else None.

(** A word of a file name: it holds neither a space nor a dot. *)
Definition word (s : string) : Prop :=
  contains_char " " s = false /\ contains_char "." s = false.

(** A file name made of space-separated words, with the extension. *)
Definition file_name_of (words : list string) : string :=
  String.concat " " words +:+ ".ibt".

(** A world in which the recording cannot be read but the Node parser
    leaves a JSON object. *)
Definition node_only_world : world :=
  {| fs := ∅;
     node_script_exists := true;
     node := fun _ =>
       NodeExits 0 (Some (Ok (PDict (dict_of [ ("fileName", PStr "session.ibt");
                                               ("method", PStr "ibt-telemetry") ])))) |}.

End Decoding.

(* ===================================================================== *)
(** * file_monitor.py: the monitor drives the processor                    *)
(* ===================================================================== *)

Module Monitor.
Import Py PyData Decoder Processor.

(** The state the calls share: [processed_files] of the processor held by
    the monitor, and the statistics [files_processed] and
    [last_processed_file] of [TelemetryFileMonitor]. *)
Record monitor := mkMonitor {
  processed_files : gset string;
  files_processed : nat;
  last_processed_file : option (gmap string pyval)
}.

(** A new processor in a new monitor. *)
Definition fresh : monitor :=
  {| processed_files := ∅; files_processed := 0; last_processed_file := None |}.

(** [if result:] on the value returned by the processor. *)
Definition is_result (result : option (gmap string pyval)) : bool :=
  match result with
  | Some d => truthy (PDict d)
  | None => false
  end.

Section ProcessNewFile.
Variable rt : runtime.
Variable _extract_enhanced_session_info : gmap string pyval -> result pyval.
Variable _extract_enhanced_lap_analysis : gmap string pyval -> result pyval.
Variable _generate_enhanced_insights :
  pyval -> pyval -> gmap string pyval -> result pyval.
Variable analyze_session_professional : gmap string pyval -> result pyval.

(** The dictionary stored in [last_processed_file]; its entries are
    evaluated in order. *)
Definition summary_of (file_path : string) (d : gmap string pyval)
  : result (gmap string pyval) :=
  track ← sub_get d "session_info" "track" (PStr "Unknown");
  car ← sub_get d "session_info" "car" (PStr "Unknown");
  laps ← sub_get d "lap_analysis" "total_laps" (PInt 0);
  Ok (dict_of [ ("filename", PStr (basename file_path));
                ("processed_at", PStr (now_isoformat rt));
                ("track", track);
                ("car", car);
                ("laps", laps) ]).

(** [_process_new_file]: every exception ends in [return None]; the
    counter is incremented before the summary is built.  This is one call
    run from its start to its end: the handler starts the calls on timer
    threads and takes no lock, and calls that overlap are not modelled. *)
Definition _process_new_file (w : world) (m : monitor) (file_path : string)
  : option (gmap string pyval) * monitor :=
  match process_telemetry_file rt _extract_enhanced_session_info
          _extract_enhanced_lap_analysis _generate_enhanced_insights
          analyze_session_professional w (processed_files m) file_path with
  | (Raise _, processed) =>
      (None, {| processed_files := processed;
                files_processed := files_processed m;
                last_processed_file := last_processed_file m |})
  | (Ok result, processed) =>
      match result with
      | Some d =>
          if is_result result then
            match summary_of file_path d with
            | Ok summary =>
                (Some d, {| processed_files := processed;
                            files_processed := S (files_processed m);
                            last_processed_file := Some summary |})
            | Raise _ =>
                (None, {| processed_files := processed;
                          files_processed := S (files_processed m);
                          last_processed_file := last_processed_file m |})
            end
          else
            (None, {| processed_files := processed;
                      files_processed := files_processed m;
                      last_processed_file := last_processed_file m |})
      | None =>
          (None, {| processed_files := processed;
                    files_processed := files_processed m;
                    last_processed_file := last_processed_file m |})
      end
  end.

End ProcessNewFile.

End Monitor.

(* ===================================================================== *)
(** * cosworth_pi_analysis.py: sessions used below                         *)
(* ===================================================================== *)

Module Sessions.
Import CosWorth.
Local Open Scope R_scope.

(** Lap times that change by [b] seconds from each lap to the next. *)
Definition linear_laps (a b : R) (n : nat) : list R :=
  map (fun i => a + b * INR i) (seq 0 n).

(** A session with the three lap times 90, 95 and 100. *)
Definition three_lap_session : session_data :=
  {| session_lap_analysis := Some {| lap_times := Some [90; 95; 100] |} |}.

End Sessions.

(* ===================================================================== *)
(** * cosworth_pi_analysis.py: the benchmark comparison                     *)
(* ===================================================================== *)

Module Benchmark.
Import Py PyData.

(** An entry of [benchmarks]; the default entry, whose three values are
    [None], is [None] below. *)
Record benchmark := mkBenchmark {
  pro_time : Q;
  alien_time : Q;
  fast_amateur : Q
}.

Definition benchmarks : list (string * list (string * benchmark)) :=
  [ ("roadatlanta",
     [ ("porsche992cup", mkBenchmark 85.2 84.1 87.5);
       ("toyotagr86", mkBenchmark 95.8 94.7 98.2) ]);
    ("talladega",
     [ ("porsche992cup", mkBenchmark 48.5 47.8 50.1);
       ("toyotagr86", mkBenchmark 42.1 41.5 43.8) ]) ]%Q.

(** [d.get(k)] on a dictionary display. *)
Fixpoint assoc {A} (k : string) (d : list (string * A)) : option A :=
  match d with
  | [] => None
  | (k', v) :: rest => if String.eqb k' k then Some v else assoc k rest
  end.

(** [benchmarks.get(track, {}).get(car, {'pro_time': None, ...})]. *)
Definition benchmark_for (track car : string) : option benchmark :=
  match assoc track benchmarks with
  | Some cars => assoc car cars
  | None => None
  end.

(** [_determine_performance_level]. *)
Definition _determine_performance_level (fastest_lap : Q)
  (benchmark_data : option benchmark) : string :=
  match benchmark_data with
  | None => "No benchmark data available"
  | Some b =>
      if Qeq_bool (fast_amateur b) 0 then "No benchmark data available"
      else
        let gap_to_amateur := (fastest_lap - fast_amateur b)%Q in
        let gap_to_pro := (fastest_lap - pro_time b)%Q in
        if Qle_bool gap_to_pro 1 then "Professional level"
        else if Qle_bool gap_to_amateur 1 then "Advanced amateur"
        else if Qle_bool gap_to_amateur 3 then "Intermediate"
        else "Beginner/Learning"
  end.

(** The dictionary [comparison] when it is not empty. *)
Record comparison := mkComparison {
  gap_to_pro : Q;
  gap_to_alien : Q;
  gap_to_fast_amateur : Q;
  performance_level : string
}.

(** [_interpret_benchmark_comparison]; [None] is the empty dictionary. *)
Definition _interpret_benchmark_comparison (c : option comparison) : string :=
  match c with
  | None => "Benchmark comparison not available"
  | Some c =>
      if Qle_bool (gap_to_pro c) 0.5
      then "Exceptional performance - within half second of professional level"
      else if Qle_bool (gap_to_pro c) 1.5
      then "Very strong performance - approaching professional level"
      else if Qle_bool (gap_to_pro c) 3
      then "Good performance - solid amateur level with improvement potential"
      else "Development level - focus on fundamentals and consistency"
  end.

Record benchmark_comparison := mkBenchmarkComparison {
  benchmark_data : option benchmark;
  comparison_of : option comparison;
  interpretation : string
}.

(** [_generate_benchmark_comparison] on the track and the car of the
    session information ([''] when absent) and the fastest lap of the lap
    analysis ([None] when absent). *)
Definition _generate_benchmark_comparison (track car : string)
  (fastest_lap : option Q) : benchmark_comparison :=
  let track := lower track in
  let car := lower car in
  let data := benchmark_for track car in
  let c :=
    match fastest_lap, data with
    | Some f, Some b =>
        if negb (Qeq_bool f 0) && negb (Qeq_bool (pro_time b) 0) then
          Some {| gap_to_pro := f - pro_time b;
                  gap_to_alien := f - alien_time b;
                  gap_to_fast_amateur := f - fast_amateur b;
                  performance_level := _determine_performance_level f data |}
        else None
    | _, _ => None
    end in
  {| benchmark_data := data;
     comparison_of := c;
     interpretation := _interpret_benchmark_comparison c |}.

(** The performance levels from best to worst. *)
Definition level_rank (level : string) : nat :=
  if String.eqb level "Professional level" then 0
  else if String.eqb level "Advanced amateur" then 1
  else if String.eqb level "Intermediate" then 2
  else if String.eqb level "Beginner/Learning" then 3
  else 4.

End Benchmark.

(* ===================================================================== *)
(** * enhanced_telemetry_processor.py: the session information             *)
(* ===================================================================== *)

Module SessionInfo.
Import Py PyData Decoder.

(** [v.get(k, dflt)]: the method exists only on a dictionary. *)
Definition get_or (v : pyval) (k : string) (dflt : pyval) : result pyval :=
  match v with
  | PDict d => Ok (default dflt (d !! k))
  | _ => Raise AttributeError
  end.

(** [v / q] for a float [q] that is not zero. *)
Definition div_float (v : pyval) (q : Q) : result pyval :=
  match v with
  | PInt z => Ok (PFloat (inject_Z z / q))
  | PFloat x => Ok (PFloat (x / q))
  | PBool b => Ok (PFloat ((if b then 1 else 0) / q))
  | _ => Raise TypeError
  end.

(** [v == s] for a string [s]. *)
Definition is_str (v : pyval) (s : string) : bool :=
  match v with
  | PStr s' => String.eqb s' s
  | _ => false
  end.

(** [_extract_enhanced_session_info]. *)
Definition _extract_enhanced_session_info (raw_data : gmap string pyval)
  : result pyval :=
  let session_info : gmap string pyval :=
    dict_of
      [ ("file_name", default (PStr "") (raw_data !! "fileName"));
        ("file_size_mb", default (PInt 0) (raw_data !! "fileSizeMB"));
        ("car", default (PStr "Unknown") (raw_data !! "car"));
        ("track", default (PStr "Unknown") (raw_data !! "track"));
        ("session_date", default (PStr "") (raw_data !! "session_date"));
        ("session_time", default (PStr "") (raw_data !! "session_time"));
        ("parsing_method", default (PStr "unknown") (raw_data !! "method"));
        ("data_quality",
         PStr (if is_str (dict_get raw_data "method") "binary_analysis"
               then "real_analysis" else "estimated")) ] in
  match raw_data !! "estimated_telemetry" with
  | Some telem =>
      estimated_samples ← get_or telem "total_samples" (PInt 0);
      duration_seconds ← get_or telem "duration_seconds" (PInt 0);
      estimated_duration_minutes ← div_float duration_seconds 60;
      estimated_sample_rate ← get_or telem "sample_rate" (PInt 60);
      Ok (PDict (dict_update session_info
                   (dict_of
                      [ ("estimated_samples", estimated_samples);
                        ("estimated_duration_minutes", estimated_duration_minutes);
                        ("estimated_sample_rate", estimated_sample_rate) ])))
  | None => Ok (PDict session_info)
  end.

End SessionInfo.

(* ===================================================================== *)
(** * enhanced_telemetry_processor.py: improvement over the session        *)
(* ===================================================================== *)

Module Improvement.
Import Py PyData.

(** The dictionaries [_calculate_session_improvement] can return. *)
Inductive improvement :=
| InsufficientData
| UnknownTrend
| Trend (trend : string) (improvement_seconds improvement_percentage : Q).


(** [sum(l) / len(l)] of a non-empty list. *)
Definition average (l : list Q) : Q :=
  (Qsum l / inject_Z (Z.of_nat (length l)))%Q.




End Improvement.

(* ===================================================================== *)
(** * Properties of the segmenter                                          *)
(* ===================================================================== *)

Module SegmenterFacts.
Import Py Segmenter.
Import Lqa.

(** ** The loops of the source are instances of the scan *)

Lemma corners_loop_scan speed lateral_g rest i in_corner corner_start corners :
  corners_loop speed lateral_g rest i in_corner corner_start corners
  = scan_from 0.3 5 (_analyze_corner_section speed lateral_g)
      rest i in_corner corner_start corners.
Proof.
  revert i in_corner corner_start corners.
  induction rest as [|g rest IH]; intros; simpl; [reflexivity|].
  rewrite !IH. reflexivity.
Qed.

Lemma braking_loop_scan speed brake_pressure longitudinal_g rest i inb start zones :
  braking_loop speed brake_pressure longitudinal_g rest i inb start zones
  = scan_from 10 3 (_analyze_braking_zone speed brake_pressure longitudinal_g)
      rest i inb start zones.
Proof.
  revert i inb start zones.
  induction rest as [|p rest IH]; intros; simpl; [reflexivity|].
  rewrite !IH. reflexivity.
Qed.

(** Forgetting the index ranges of the traced scan gives the plain scan. *)
Lemma scan_from_traced {A} thr m (an : nat -> nat -> option A) signal :
  forall i inside start acc,
    map seg_data (scan_from thr m (traced an) signal i inside start acc)
    = scan_from thr m an signal i inside start (map seg_data acc).
Proof.
  induction signal as [|x rest IH]; intros; simpl; [reflexivity|].
  destruct (Qlt_bool thr x && negb inside); [apply IH|].
  destruct (Qle_bool x thr && inside); [|apply IH].
  rewrite IH. f_equal.
  destruct (m <? i - start); [|reflexivity].
  unfold traced. destruct (an start i); simpl; [|reflexivity].
  rewrite map_app. reflexivity.
Qed.

Lemma identify_corners_spans speed lateral_g steering :
  _identify_corners speed lateral_g steering
  = map seg_data (corner_spans speed lateral_g).
Proof.
  unfold _identify_corners, corner_spans, scan.
  rewrite corners_loop_scan, scan_from_traced. reflexivity.
Qed.

Lemma identify_braking_zones_spans speed brake_pressure longitudinal_g :
  _identify_braking_zones speed brake_pressure longitudinal_g
  = map seg_data (braking_spans speed brake_pressure longitudinal_g).
Proof.
  unfold _identify_braking_zones, braking_spans, scan.
  rewrite braking_loop_scan, scan_from_traced. reflexivity.
Qed.

(** ** The invariant of the scan *)

Section ScanInvariant.
Context {A : Type}.
Variable thr : Q.
Variable m : nat.
Variable an : nat -> nat -> option A.

Lemma ordered_snoc (l : list (span A)) sp :
  ordered l -> Forall (fun a => seg_end a < seg_start sp) l -> ordered (l ++ [sp]).
Proof.
  unfold ordered. induction 1 as [|a l Hl IH Ha]; intros Hall; simpl.
  - repeat constructor.
  - inversion Hall as [|? ? Hsp Hrest]; subst.
    constructor; [apply IH; assumption|].
    apply Forall_app; split; [assumption|]. constructor; [assumption|constructor].
Qed.

Lemma scan_from_invariant signal :
  forall i inside start acc,
    (inside = true -> start < i) ->
    Forall (well_formed m an) acc ->
    Forall (fun a => seg_end a < i /\ (inside = true -> seg_end a < start)) acc ->
    ordered acc ->
    Forall (well_formed m an) (scan_from thr m (traced an) signal i inside start acc)
    /\ ordered (scan_from thr m (traced an) signal i inside start acc).
Proof.
  induction signal as [|x rest IH]; intros i inside start acc Hin Hwf Hend Hord;
    simpl; [split; assumption|].
  destruct (Qlt_bool thr x && negb inside) eqn:Henter.
  { apply IH; try assumption.
    - intros _. lia.
    - eapply List.Forall_impl; [|exact Hend]. simpl. intros a [H1 _]. split; [lia|].
      intros _. exact H1. }
  destruct (Qle_bool x thr && inside) eqn:Hleave.
  2:{ apply IH; try assumption.
      - intros H. specialize (Hin H). lia.
      - eapply List.Forall_impl; [|exact Hend]. simpl. intros a [H1 H2].
        split; [lia|exact H2]. }
  apply andb_true_iff in Hleave. destruct Hleave as [_ Hinside].
  specialize (Hin Hinside).
  assert (Hkeep : Forall (fun a => seg_end a < S i /\ (false = true -> seg_end a < start)) acc).
  { eapply List.Forall_impl; [|exact Hend]. simpl. intros a [H1 _].
    split; [lia|intros ?; discriminate]. }
  destruct (m <? i - start) eqn:Hspan; [|apply IH; try assumption; intros ?; discriminate].
  destruct (traced an start i) as [sp|] eqn:Htr;
    [|apply IH; try assumption; intros ?; discriminate].
  unfold traced in Htr.
  destruct (an start i) as [d|] eqn:Han; [|discriminate].
  simpl in Htr. injection Htr as <-.
  apply Nat.ltb_lt in Hspan.
  apply IH.
  - intros ?; discriminate.
  - apply Forall_app; split; [assumption|].
    constructor; [|constructor]. split; simpl; assumption.
  - apply Forall_app; split; [assumption|].
    constructor; [|constructor]. simpl. split; [lia|intros ?; discriminate].
  - apply ordered_snoc; [assumption|].
    eapply List.Forall_impl; [|exact Hend]. simpl. intros a [_ H2]. apply H2, Hinside.
Qed.

Lemma scan_invariant signal :
  Forall (well_formed m an) (scan thr m (traced an) signal)
  /\ ordered (scan thr m (traced an) signal).
Proof.
  apply scan_from_invariant.
  - intros ?; discriminate.
  - constructor.
  - constructor.
  - constructor.
Qed.

(** Any two distinct segments of an ordered list are disjoint. *)
Lemma ordered_lookup (l : list (span A)) :
  ordered l ->
  forall i j a b, i < j -> l !! i = Some a -> l !! j = Some b ->
                  seg_end a < seg_start b.
Proof.
  induction 1 as [|x l Hl IH Hx]; intros i j a b Hij Ha Hb.
  - destruct i; discriminate.
  - destruct j as [|j]; [lia|].
    destruct i as [|i]; simpl in *.
    + injection Ha as <-.
      rewrite List.Forall_forall in Hx. apply Hx.
      apply list_elem_of_In. eapply list_elem_of_lookup_2. exact Hb.
    + eapply IH; [|exact Ha|exact Hb]. lia.
Qed.

End ScanInvariant.

(** ** The per-segment analyses *)

Lemma min_from_in (l : list Q) : forall x, In (min_from x l) (x :: l).
Proof.
  induction l as [|y l IH]; intros x; simpl; [left; reflexivity|].
  destruct (IH (if Qlt_bool y x then y else x)) as [H|H].
  - destruct (Qlt_bool y x); rewrite <- H; [right; left|left]; reflexivity.
  - right; right; exact H.
Qed.

Lemma index_from_found (v : Q) (l : list Q) :
  In v l ->
  forall k, exists i, index_from v l k = Ok i /\ k <= i < k + length l.
Proof.
  induction l as [|x l IH]; intros Hin k; [destruct Hin|].
  simpl. destruct (Qeq_bool x v) eqn:Hx.
  - exists k. split; [reflexivity|lia].
  - destruct Hin as [->|Hin].
    + assert (Qeq_bool v v = true) as Hv by (apply Qeq_bool_iff; reflexivity).
      congruence.
    + destruct (IH Hin (S k)) as (i & Hi & Hr). exists i. split; [exact Hi|lia].
Qed.

(** On a range that holds speed and lateral-G samples the corner analysis
    returns a dictionary. *)
Lemma corner_section_defined speed lateral_g start stop :
  slice start stop speed <> [] ->
  slice start stop lateral_g <> [] ->
  exists c, _analyze_corner_section speed lateral_g start stop = Some c.
Proof.
  intros Hs Hg. unfold _analyze_corner_section, corner_section_body.
  destruct (slice start stop speed) as [|s0 ss] eqn:Es; [congruence|].
  destruct (slice start stop lateral_g) as [|g0 gs] eqn:Eg; [congruence|].
  cbn [py_min py_max mbind result_bind bind].
  destruct (index_from_found (min_from s0 ss) (s0 :: ss) (min_from_in ss s0) 0)
    as (i & Hi & Hr).
  unfold py_index. rewrite Hi. cbn [mbind result_bind bind].
  unfold py_get.
  destruct ((s0 :: ss) !! i) as [a|] eqn:Ea.
  - cbn [mbind result_bind bind try_except]. eexists. reflexivity.
  - apply lookup_ge_None in Ea. simpl in *. lia.
Qed.

Lemma corner_section_duration speed lateral_g start stop c :
  _analyze_corner_section speed lateral_g start stop = Some c ->
  corner_duration c = stop - start.
Proof.
  unfold _analyze_corner_section, corner_section_body.
  destruct (slice start stop speed) as [|s0 ss]; [discriminate|].
  destruct (slice start stop lateral_g) as [|g0 gs]; [discriminate|].
  cbn [py_min py_max mbind result_bind bind].
  destruct (py_index _ _); cbn [mbind result_bind bind try_except]; [|discriminate].
  destruct (py_get _ _); cbn [mbind result_bind bind try_except]; [|discriminate].
  intros [= <-]. reflexivity.
Qed.

Lemma braking_zone_duration speed brake_pressure longitudinal_g start stop z :
  _analyze_braking_zone speed brake_pressure longitudinal_g start stop = Some z ->
  braking_duration z = stop - start.
Proof.
  unfold _analyze_braking_zone, braking_zone_body.
  destruct (slice start stop speed) as [|s0 ss]; [discriminate|].
  destruct (slice start stop brake_pressure) as [|p0 ps]; [discriminate|].
  cbn [py_max mbind result_bind bind].
  destruct (py_min _); cbn [mbind result_bind bind try_except]; [|discriminate].
  intros [= <-]. reflexivity.
Qed.

(** ** Claims *)

(** C7.  Every corner segment and every braking zone the detectors emit
    ends after it starts and lasts longer than the minimum span fixed in
    the code (5 samples for corners, 3 for braking zones); the duration
    stored in the dictionary is the length of the index range; and any two
    distinct segments of one stream are separated, the earlier one ending
    before the later one starts. *)
Theorem segments_well_formed_and_disjoint
  (speed lateral_g steering brake_pressure longitudinal_g : list Q) :
  let corners := corner_spans speed lateral_g in
  let zones := braking_spans speed brake_pressure longitudinal_g in
  _identify_corners speed lateral_g steering = map seg_data corners
  /\ _identify_braking_zones speed brake_pressure longitudinal_g = map seg_data zones
  /\ Forall (fun sp => seg_start sp < seg_end sp
                       /\ 5 <= seg_end sp - seg_start sp
                       /\ corner_duration (seg_data sp) = seg_end sp - seg_start sp)
            corners
  /\ Forall (fun sp => seg_start sp < seg_end sp
                       /\ 3 <= seg_end sp - seg_start sp
                       /\ braking_duration (seg_data sp) = seg_end sp - seg_start sp)
            zones
  /\ (forall i j a b, i < j -> corners !! i = Some a -> corners !! j = Some b ->
                      seg_end a < seg_start b)
  /\ (forall i j a b, i < j -> zones !! i = Some a -> zones !! j = Some b ->
                      seg_end a < seg_start b).
Proof.
  intros corners zones.
  destruct (scan_invariant 0.3 5 (_analyze_corner_section speed lateral_g) lateral_g)
    as [Hc Hco].
  destruct (scan_invariant 10 3
              (_analyze_braking_zone speed brake_pressure longitudinal_g)
              brake_pressure) as [Hz Hzo].
  split; [apply identify_corners_spans|].
  split; [apply identify_braking_zones_spans|].
  split; [|split; [|split]].
  - eapply List.Forall_impl; [|exact Hc]. intros sp [Hlen Han].
    apply corner_section_duration in Han. lia.
  - eapply List.Forall_impl; [|exact Hz]. intros sp [Hlen Han].
    apply braking_zone_duration in Han. lia.
  - exact (ordered_lookup _ Hco).
  - exact (ordered_lookup _ Hzo).
Qed.

Lemma segments_well_formed_and_disjoint_witness :
  exists a b,
    corner_spans two_corner_speed two_corner_lateral_g = [a; b]
    /\ seg_end a < seg_start b
    /\ _identify_corners two_corner_speed two_corner_lateral_g []
       = [seg_data a; seg_data b].
Proof.
  destruct (segments_well_formed_and_disjoint
              two_corner_speed two_corner_lateral_g [] [] [])
    as (Hmap & _ & _ & _ & Hsep & _).
  destruct (corner_spans two_corner_speed two_corner_lateral_g)
    as [|a [|b [|c rest]]] eqn:Hspans;
    try (exfalso; vm_compute in Hspans; discriminate Hspans).
  exists a, b. split; [reflexivity|]. split.
  - apply (Hsep 0 1 a b); [lia|reflexivity|reflexivity].
  - exact Hmap.
Defined.

(** The scenario sequence has a single run above the threshold, samples 2
    to 4, closed at index 5. *)
Lemma scenario_scan {A} (m : nat) (an : nat -> nat -> option A) :
  scan 0.3 m an scenario_lateral_g
  = if m <? 3 then match an 2 5 with Some d => [d] | None => [] end else [].
Proof.
  unfold scan, scenario_lateral_g. cbn [scan_from]. simpl.
  destruct (m <? 3); [|reflexivity]. destruct (an 2 5); reflexivity.
Qed.

(** C4 (as the code has it).  On the lateral-G sequence
    [0, 0, 0.5, 0.6, 0.4, 0.2, 0, 0] the corner detector, whose entry
    threshold 0.3 and minimum span (more than 5 samples) are constants of
    the code, emits no corner: the only run above the threshold spans the
    indices 2 to 5 and is too short.  The same scan with a minimum span of
    2 emits exactly one segment, from index 2 to index 5, for every speed
    trace with the 8 samples of the stream. *)
Theorem scenario_corner_rejected_by_minimum_span :
  (forall speed steering,
      _identify_corners speed scenario_lateral_g steering = [])
  /\ (forall speed,
        length speed = 8 ->
        exists c,
          scan 0.3 2 (traced (_analyze_corner_section speed scenario_lateral_g))
               scenario_lateral_g
          = [mkSpan 2 5 c]
          /\ corner_duration c = 3).
Proof.
  split.
  - intros speed steering. rewrite identify_corners_spans.
    unfold corner_spans. rewrite scenario_scan. reflexivity.
  - intros speed Hlen. rewrite scenario_scan. cbn [Nat.ltb Nat.leb].
    destruct (corner_section_defined speed scenario_lateral_g 2 5) as [c Hc].
    + do 3 (destruct speed as [|? speed]; [discriminate Hlen|]). discriminate.
    + discriminate.
    + exists c. unfold traced. rewrite Hc. split; [reflexivity|].
      apply corner_section_duration in Hc. exact Hc.
Qed.

Lemma scenario_corner_rejected_by_minimum_span_witness :
  exists c,
    scan 0.3 2 (traced (_analyze_corner_section scenario_speed scenario_lateral_g))
         scenario_lateral_g
    = [mkSpan 2 5 c]
    /\ corner_duration c = 3.
Proof.
  apply (proj2 scenario_corner_rejected_by_minimum_span scenario_speed).
  reflexivity.
Defined.

(** C4 fails as stated: on the scenario stream the detector does not emit
    a segment from index 2 to index 5; it emits nothing. *)
Lemma scenario_corner_not_emitted :
  _identify_corners scenario_speed scenario_lateral_g [] = []
  /\ ~ (exists c, corner_spans scenario_speed scenario_lateral_g = [mkSpan 2 5 c]).
Proof.
  split; [reflexivity|]. intros [c Hc]. vm_compute in Hc. discriminate Hc.
Qed.

(** ** Corner classes *)

Lemma in_range_closed (lo hi : Q) (c : corner) :
  (lo <= entry_speed c)%Q -> (entry_speed c <= hi)%Q -> in_range (lo, hi) c = true.
Proof.
  intros H1 H2. unfold in_range. simpl.
  apply andb_true_iff. split; apply Qle_bool_iff; assumption.
Qed.

Lemma counted_in_intro corners class lo hi c :
  In (class, (lo, hi)) corner_types ->
  In c corners ->
  (lo <= entry_speed c)%Q -> (entry_speed c <= hi)%Q ->
  counted_in corners class c.
Proof.
  intros Hcls Hc H1 H2. exists (lo, hi). split; [exact Hcls|].
  unfold type_corners. apply List.filter_In. split; [exact Hc|].
  apply in_range_closed; assumption.
Qed.

(** C10.  The speed ranges of the corner classes are closed at both ends:
    a corner whose entry speed is exactly 60, 100, 150 or 200 km/h is
    counted in the two classes that share that bound.  The per-class
    counts therefore do not partition the corners: on a stream with one
    corner entered at 60 km/h the analysis reports one corner in total and
    a count of one in each of two classes. *)
Theorem boundary_corner_counted_in_both_classes :
  (forall (corners : list corner) (c : corner),
      In c corners ->
      ((entry_speed c == 60)%Q ->
       counted_in corners "hairpin" c /\ counted_in corners "slow" c)
      /\ ((entry_speed c == 100)%Q ->
          counted_in corners "slow" c /\ counted_in corners "medium" c)
      /\ ((entry_speed c == 150)%Q ->
          counted_in corners "medium" c /\ counted_in corners "fast" c)
      /\ ((entry_speed c == 200)%Q ->
          counted_in corners "fast" c /\ counted_in corners "very_fast" c))
  /\ (exists a,
        _analyze_cornering boundary_telemetry = Ok (Some a)
        /\ total_corners a = 1
        /\ map (fun e => (fst e, count (snd e))) (corner_type_stats a)
           = [("hairpin", 1); ("slow", 1)]
        /\ total_corners a < class_count_total a).
Proof.
  split.
  - intros corners c Hc.
    split; [|split; [|split]]; intros He; split;
      (eapply counted_in_intro;
       [unfold corner_types; simpl; tauto | exact Hc | rewrite He; lra | rewrite He; lra]).
  - eexists. split; [vm_compute; reflexivity|].
    split; [reflexivity|]. split; [reflexivity|]. vm_compute. lia.
Qed.

Lemma boundary_corner_counted_in_both_classes_witness :
  counted_in [boundary_corner] "hairpin" boundary_corner
  /\ counted_in [boundary_corner] "slow" boundary_corner.
Proof.
  apply (proj1 (proj1 boundary_corner_counted_in_both_classes
                  [boundary_corner] boundary_corner (or_introl eq_refl))).
  reflexivity.
Defined.

End SegmenterFacts.

(* ===================================================================== *)
(** * Properties of the lap analysis                                       *)
(* ===================================================================== *)

Module LapSplitterFacts.
Import LapSplitter.
Import Lqa.

Lemma or_zero_some (q : Q) : (or_zero (Some q) == q)%Q.
Proof.
  unfold or_zero. destruct (Qeq_bool q 0) eqn:E; [|reflexivity].
  apply Qeq_bool_iff in E. symmetry. exact E.
Qed.

(** C5.  On a stream of 10 samples with lap indices
    [0,0,0,1,1,1,2,2,2,2] and a session time that grows by 1.0 per sample
    (from any start value), the lap analysis emits exactly two laps,
    numbered 0 and 1, each of 3.0 seconds.  Lap 0 is closed when sample 3
    is visited and lap 1 when sample 6 is visited; lap 2, still open at the
    end of the stream, is never emitted. *)
Theorem scenario_two_closed_laps (t0 : Q) :
  let samples := stream_from t0 [0; 0; 0; 1; 1; 1; 2; 2; 2; 2]%Z in
  let emitted := summary_laps samples in
  length samples = 10
  /\ length emitted = 2
  /\ map lapNumber emitted = [0; 1]%Z
  /\ Forall (fun l => (lapTime l == 3)%Q) emitted
  /\ laps_after 3 samples = []
  /\ laps_after 4 samples = [0]%Z
  /\ laps_after 6 samples = [0]%Z
  /\ laps_after 7 samples = [0; 1]%Z
  /\ laps_after 10 samples = [0; 1]%Z.
Proof.
  cbv zeta.
  repeat split; try reflexivity.
  unfold summary_laps, sampleData. cbn -[or_zero Qminus Qplus].
  repeat constructor; cbn -[or_zero Qminus Qplus]; rewrite or_zero_some; ring.
Qed.

End LapSplitterFacts.

(* ===================================================================== *)
(** * Properties of the lap-time statistics                                *)
(* ===================================================================== *)

Module CosWorthFacts.
Import CosWorth.
Import Lra.
Local Open Scope R_scope.

Lemma np_std_nonneg (l : list R) : 0 <= np_std l.
Proof. unfold np_std. apply sqrt_pos. Qed.

Lemma length_ge_2_ltb (l : list R) : (2 <= length l)%nat -> (length l <? 2)%nat = false.
Proof. intros H. apply Nat.ltb_ge. exact H. Qed.

(** With at least two laps and a non-zero mean the coefficient is
    [max(0, 1 - cv * 10)]. *)
Lemma coefficient_unfold (l : list R) :
  (2 <= length l)%nat -> np_mean l <> 0 ->
  _calculate_consistency_coefficient l = Rmax 0 (1 - np_std l / np_mean l * 10).
Proof.
  intros Hlen Hmean. unfold _calculate_consistency_coefficient, np_div.
  rewrite (length_ge_2_ltb l Hlen).
  destruct (Req_dec_T (np_mean l) 0); [contradiction|reflexivity].
Qed.


Lemma cv_nonneg (l : list R) : 0 < np_mean l -> 0 <= np_std l / np_mean l.
Proof.
  intros Hm. apply Rmult_le_pos; [apply np_std_nonneg|].
  left. apply Rinv_0_lt_compat. exact Hm.
Qed.

(** ** Sums and means *)



Lemma Rsum_constant (c : R) (l : list R) :
  Forall (eq c) l -> Rsum l = INR (length l) * c.
Proof.
  induction 1 as [|x l Hx _ IH].
  - simpl. lra.
  - subst x. cbn [Rsum fold_right length]. fold (Rsum l). rewrite IH, S_INR. lra.
Qed.

Lemma np_mean_constant (c : R) (l : list R) :
  l <> [] -> Forall (eq c) l -> np_mean l = c.
Proof.
  intros Hne Hc. unfold np_mean. rewrite (Rsum_constant c l Hc).
  assert (INR (length l) <> 0).
  { apply not_0_INR. destruct l; [congruence|simpl; lia]. }
  field. assumption.
Qed.

Lemma Rsum_zero (l : list R) : Forall (eq 0) l -> Rsum l = 0.
Proof. intros H. rewrite (Rsum_constant 0 l H). lra. Qed.

Lemma np_std_constant (c : R) (l : list R) :
  l <> [] -> Forall (eq c) l -> np_std l = 0.
Proof.
  intros Hne Hc. unfold np_std.
  rewrite (np_mean_constant c l Hne Hc).
  assert (Hz : Forall (eq 0) (map (fun x => Rsqr (x - c)) l)).
  { apply List.Forall_map. eapply List.Forall_impl; [|exact Hc].
    intros a <-. unfold Rsqr. lra. }
  unfold np_mean at 1. rewrite (Rsum_zero _ Hz).
  unfold Rdiv. rewrite Rmult_0_l. apply sqrt_0.
Qed.

(** ** Claims *)

(** C1 (as the code has it).  For at least two lap times with a positive
    mean, the coefficient is [1 - 10 * (std / mean)] clamped to [0, 1]:
    the coefficient of variation is scaled by ten before it is subtracted,
    and the upper clamp never acts because the subtracted term is not
    negative. *)
Theorem consistency_coefficient_scaled (lap_times : list R) :
  (2 <= length lap_times)%nat ->
  0 < np_mean lap_times ->
  _calculate_consistency_coefficient lap_times
  = clamp01 (1 - 10 * (np_std lap_times / np_mean lap_times)).
Proof.
  intros Hlen Hmean.
  rewrite coefficient_unfold; [|exact Hlen|lra].
  pose proof (cv_nonneg lap_times Hmean) as Hcv.
  unfold clamp01. rewrite Rmin_right; [|lra].
  f_equal. lra.
Qed.

Lemma np_mean_80_100 : np_mean [80; 100] = 90.
Proof. unfold np_mean. simpl. lra. Qed.

Lemma np_std_80_100 : np_std [80; 100] = 10.
Proof.
  unfold np_std. rewrite np_mean_80_100.
  replace (np_mean _) with (10 * 10).
  - apply sqrt_square. lra.
  - unfold np_mean, Rsqr. simpl. lra.
Qed.

Lemma consistency_coefficient_scaled_witness :
  _calculate_consistency_coefficient [80; 100]
  = clamp01 (1 - 10 * (np_std [80; 100] / np_mean [80; 100])).
Proof.
  apply consistency_coefficient_scaled.
  - simpl. lia.
  - rewrite np_mean_80_100. lra.
Defined.

(** C1 fails as stated: for the lap times 80 s and 100 s (mean 90,
    standard deviation 10) the code returns 0, while
    [1 - std / mean] clamped to [0, 1] is 8/9. *)
Lemma consistency_coefficient_not_spec_formula :
  (2 <= length [80; 100])%nat
  /\ _calculate_consistency_coefficient [80; 100] = 0
  /\ spec_consistency_coefficient [80; 100] = 8 / 9
  /\ _calculate_consistency_coefficient [80; 100]
     <> spec_consistency_coefficient [80; 100].
Proof.
  assert (Hcode : _calculate_consistency_coefficient [80; 100] = 0).
  { rewrite coefficient_unfold; [|simpl; lia|rewrite np_mean_80_100; lra].
    rewrite np_mean_80_100, np_std_80_100. apply Rmax_left. lra. }
  assert (Hspec : spec_consistency_coefficient [80; 100] = 8 / 9).
  { unfold spec_consistency_coefficient, clamp01.
    rewrite np_mean_80_100, np_std_80_100.
    rewrite Rmin_right; [|lra]. rewrite Rmax_right; lra. }
  split; [simpl; lia|]. split; [exact Hcode|]. split; [exact Hspec|].
  rewrite Hcode, Hspec. lra.
Qed.

(** ** The coefficient on binary64 numbers *)

Import PrimFloat.










End CosWorthFacts.

(* ===================================================================== *)
(** * Properties of the chain of parsing methods                           *)
(* ===================================================================== *)

Module DecoderFacts.
Import Py PyData Decoder Samples.

(** ** The chain, for any list of methods *)

Lemma fails_or_succeeds (method : parser_method) (file_path : string) :
  fails method file_path \/ exists r, succeeds method file_path r.
Proof.
  unfold fails, succeeds. destruct (method file_path) as [r|e]; [|left; exact I].
  destruct (reports_success r) eqn:Hr; [|left; reflexivity].
  destruct r as [d|]; [|discriminate]. right. exists d. split; [reflexivity|exact Hr].
Qed.

Lemma fails_not_succeeds method file_path r :
  fails method file_path -> succeeds method file_path r -> False.
Proof.
  unfold fails, succeeds. intros Hf [Hm Hr]. rewrite Hm in Hf. congruence.
Qed.

Lemma try_methods_skip method rest file_path :
  fails method file_path ->
  try_methods (method :: rest) file_path = try_methods rest file_path.
Proof.
  unfold fails. cbn [try_methods]. destruct (method file_path) as [r|e]; [|reflexivity].
  intros ->. reflexivity.
Qed.

Lemma try_methods_take method rest file_path r :
  succeeds method file_path r ->
  try_methods (method :: rest) file_path = Some r.
Proof.
  unfold succeeds. intros [Hm Hr]. cbn [try_methods]. rewrite Hm, Hr. reflexivity.
Qed.

(** The chain returns [r] exactly when some method succeeds with [r] and
    every method before it in the list fails. *)
Lemma try_methods_first (methods : list parser_method) (file_path : string)
  (r : gmap string pyval) :
  try_methods methods file_path = Some r
  <-> exists before method after,
        methods = before ++ method :: after
        /\ Forall (fun m => fails m file_path) before
        /\ succeeds method file_path r.
Proof.
  induction methods as [|m rest IH].
  - split; [discriminate|]. intros (before & method & after & H & _).
    destruct before; discriminate H.
  - destruct (fails_or_succeeds m file_path) as [Hf|[r' Hs]].
    + rewrite (try_methods_skip m rest file_path Hf), IH. split.
      * intros (before & method & after & -> & Hb & Hm).
        exists (m :: before), method, after.
        split; [reflexivity|]. split; [constructor; assumption|exact Hm].
      * intros (before & method & after & Hl & Hb & Hm).
        destruct before as [|b before]; simpl in Hl; injection Hl as -> ->.
        -- exfalso. eapply fails_not_succeeds; eassumption.
        -- inversion Hb; subst. exists before, method, after. auto.
    + rewrite (try_methods_take m rest file_path r' Hs). split.
      * intros [= <-]. exists [], m, rest. split; [reflexivity|].
        split; [constructor|exact Hs].
      * intros (before & method & after & Hl & Hb & Hm).
        destruct before as [|b before]; simpl in Hl; injection Hl as -> ->.
        -- destruct Hs as [Hs _], Hm as [Hm _]. congruence.
        -- inversion Hb; subst. exfalso. eapply fails_not_succeeds; eassumption.
Qed.

(** The chain returns [None] exactly when every method fails. *)
Lemma try_methods_none (methods : list parser_method) (file_path : string) :
  try_methods methods file_path = None
  <-> Forall (fun m => fails m file_path) methods.
Proof.
  induction methods as [|m rest IH].
  - split; [constructor|reflexivity].
  - destruct (fails_or_succeeds m file_path) as [Hf|[r' Hs]].
    + rewrite (try_methods_skip m rest file_path Hf), IH. split.
      * intros H. constructor; assumption.
      * intros H. inversion H; assumption.
    + rewrite (try_methods_take m rest file_path r' Hs). split; [discriminate|].
      intros H. inversion H; subst. exfalso. eapply fails_not_succeeds; eassumption.
Qed.

(** ** Dictionary displays *)

Lemma dict_of_cons_lookup k v (l : list (string * pyval)) :
  dict_of ((k, v) :: l) !! k = Some v.
Proof. unfold dict_of. cbn [list_to_map foldr uncurry fst snd]. apply lookup_insert_eq. Qed.

Lemma dict_of_cons_truthy k v (l : list (string * pyval)) :
  truthy (PDict (dict_of ((k, v) :: l))) = true.
Proof.
  unfold truthy, dict_of. cbn [list_to_map foldr uncurry fst snd].
  apply negb_true_iff, Nat.eqb_neq. intros Hsize.
  apply map_size_empty_iff in Hsize. exact (insert_non_empty _ _ _ Hsize).
Qed.

(** ** The three methods of the source *)

Section Methods.
Variable rt : runtime.
Variable w : world.

(** [_parse_with_irsdk] never reports success: without the module it
    returns [None], with it the result says ['success': False]. *)
Lemma irsdk_fails file_path : fails (_parse_with_irsdk rt w) file_path.
Proof.
  unfold fails, _parse_with_irsdk.
  destruct (irsdk_installed rt); [|reflexivity].
  destruct (getsize w file_path) as [size|e]; reflexivity.
Qed.

Lemma parse_filename_info_keys filename k :
  k <> "car" -> k <> "track" -> k <> "session_date" -> k <> "session_time" ->
  _parse_filename_info filename !! k = None.
Proof.
  intros H1 H2 H3 H4. unfold _parse_filename_info.
  set (parts := split_on " " (replace ".ibt" "" filename)).
  assert (Hbase :
    (match parts with
     | car_track :: _ =>
         if contains_char "_" car_track
         then let '(car, track) := split_first "_" car_track in
              <["track" := PStr track]> (<["car" := PStr car]> (∅ : gmap string pyval))
         else ∅
     | [] => ∅
     end) !! k = None).
  { destruct parts as [|car_track ?]; [apply lookup_empty|].
    destruct (contains_char "_" car_track); [|apply lookup_empty].
    destruct (split_first "_" car_track) as [car track].
    rewrite !lookup_insert_ne by congruence. apply lookup_empty. }
  destruct (3 <=? length parts)%nat; [|exact Hbase].
  destruct (_ && _); [|exact Hbase].
  rewrite !lookup_insert_ne by congruence. exact Hbase.
Qed.

Lemma session_info_keys header_data file_path k :
  k <> "car" -> k <> "track" -> k <> "session_date" -> k <> "session_time" ->
  k <> "source" -> k <> "binary_analysis" ->
  _extract_session_from_binary rt header_data file_path !! k = None.
Proof.
  intros H1 H2 H3 H4 H5 H6. unfold _extract_session_from_binary, dict_update.
  rewrite lookup_insert_ne by congruence.
  assert (Hinfo : (_parse_filename_info (basename file_path) ∪ ∅) !! k = None).
  { rewrite lookup_union, lookup_empty, parse_filename_info_keys by assumption.
    reflexivity. }
  destruct (contains "iRacing" _); [|exact Hinfo].
  rewrite lookup_insert_ne by congruence. exact Hinfo.
Qed.

Lemma session_info_truthy header_data file_path :
  truthy (PDict (_extract_session_from_binary rt header_data file_path)) = true.
Proof.
  unfold truthy, _extract_session_from_binary.
  apply negb_true_iff, Nat.eqb_neq. intros Hsize.
  apply map_size_empty_iff in Hsize.
  exact (insert_non_empty _ _ _ Hsize).
Qed.

Lemma telemetry_estimate_keys file_path k :
  k <> "estimated_telemetry" -> k <> "lap_analysis" -> k <> "note" ->
  _estimate_telemetry_data rt w file_path !! k = None.
Proof.
  intros H1 H2 H3. unfold _estimate_telemetry_data.
  destruct (getsize w file_path) as [size|e]; cbn [mbind result_bind bind try_except];
    [|apply lookup_empty].
  unfold dict_of. cbn [list_to_map foldr uncurry fst snd].
  rewrite !lookup_insert_ne by congruence. apply lookup_empty.
Qed.

(** A result of [_parse_with_binary_analysis] carries the method's own
    tag and reports success. *)
Lemma binary_analysis_result file_path r :
  _parse_with_binary_analysis rt w file_path = Ok (Some r) ->
  r !! "method" = Some (PStr "binary_analysis")
  /\ r !! "success" = Some (PBool true).
Proof.
  unfold _parse_with_binary_analysis.
  destruct (open_read w file_path 1024) as [header|e];
    cbn [mbind result_bind bind try_except]; [|discriminate].
  destruct (getsize w file_path) as [size|e];
    cbn [mbind result_bind bind try_except]; [|discriminate].
  rewrite session_info_truthy. intros [= <-].
  assert (Hbase : forall k v,
             (k = "method" /\ v = PStr "binary_analysis")
             \/ (k = "success" /\ v = PBool true) ->
             (<["success" := PBool true]>
                (dict_update
                   (dict_of
                      [ ("method", PStr "binary_analysis");
                        ("success", PBool false);
                        ("fileName", PStr (basename file_path));
                        ("fileSize", PInt size);
                        ("fileSizeMB", PFloat (inject_Z size / (1024 * 1024))) ])
                   (_extract_session_from_binary rt header file_path))) !! k
             = Some v).
  { intros k v [[-> ->]|[-> ->]].
    - rewrite lookup_insert_ne by congruence. unfold dict_update.
      rewrite lookup_union, session_info_keys by congruence.
      reflexivity.
    - apply lookup_insert_eq. }
  assert (Hboth : forall k v,
             (k = "method" /\ v = PStr "binary_analysis")
             \/ (k = "success" /\ v = PBool true) ->
             (if truthy (PDict (_estimate_telemetry_data rt w file_path))
              then dict_update
                     (<["success" := PBool true]>
                        (dict_update
                           (dict_of
                              [ ("method", PStr "binary_analysis");
                                ("success", PBool false);
                                ("fileName", PStr (basename file_path));
                                ("fileSize", PInt size);
                                ("fileSizeMB",
                                 PFloat (inject_Z size / (1024 * 1024))) ])
                           (_extract_session_from_binary rt header file_path)))
                     (_estimate_telemetry_data rt w file_path)
              else <["success" := PBool true]>
                     (dict_update
                        (dict_of
                           [ ("method", PStr "binary_analysis");
                             ("success", PBool false);
                             ("fileName", PStr (basename file_path));
                             ("fileSize", PInt size);
                             ("fileSizeMB",
                              PFloat (inject_Z size / (1024 * 1024))) ])
                        (_extract_session_from_binary rt header file_path))) !! k
             = Some v).
  { intros k v Hk. destruct (truthy _); [|apply Hbase; exact Hk].
    unfold dict_update at 1. rewrite lookup_union.
    rewrite telemetry_estimate_keys by (destruct Hk as [[-> _]|[-> _]]; congruence).
    rewrite (Hbase k v Hk). reflexivity. }
  split; apply Hboth; [left|right]; split; reflexivity.
Qed.

(** A result of binary analysis holds the telemetry estimate as a
    dictionary. *)
Lemma binary_analysis_estimate file_path r :
  _parse_with_binary_analysis rt w file_path = Ok (Some r) ->
  exists d, r !! "estimated_telemetry" = Some (PDict d).
Proof.
  unfold _parse_with_binary_analysis.
  destruct (open_read w file_path 1024) as [header|e];
    cbn [mbind result_bind bind try_except]; [|discriminate].
  unfold _estimate_telemetry_data.
  destruct (getsize w file_path) as [size|e];
    cbn [mbind result_bind bind try_except]; [|discriminate].
  rewrite session_info_truthy, dict_of_cons_truthy. intros [= <-]. eexists.
  unfold dict_update at 1. rewrite lookup_union, lookup_insert_eq.
  destruct (_ !! "estimated_telemetry"); reflexivity.
Qed.

(** Binary analysis returns a result for every file that can be opened
    for reading, whatever its contents. *)
Lemma binary_analysis_readable file_path f bytes :
  fs w !! file_path = Some f -> content f = Some bytes ->
  exists r, _parse_with_binary_analysis rt w file_path = Ok (Some r).
Proof.
  intros Hf Hc. unfold _parse_with_binary_analysis, open_read, getsize.
  rewrite Hf, Hc. cbn [mbind result_bind bind try_except].
  eexists. reflexivity.
Qed.

(** Binary analysis fails on a path that cannot be opened. *)
Lemma binary_analysis_unreadable file_path :
  (fs w !! file_path = None
   \/ exists f, fs w !! file_path = Some f /\ content f = None) ->
  fails (_parse_with_binary_analysis rt w) file_path.
Proof.
  intros H. unfold fails, _parse_with_binary_analysis, open_read.
  destruct H as [->|(f & -> & ->)]; reflexivity.
Qed.

Lemma node_fallback_result file_path r :
  _parse_with_node_fallback w file_path = Ok (Some r) ->
  r !! "method" = Some (PStr "node_js_parser")
  /\ r !! "success" = Some (PBool true).
Proof.
  unfold _parse_with_node_fallback.
  destruct (node_script_exists w); cbn [negb]; [|discriminate].
  destruct (node w file_path) as [e|returncode json_file]; [discriminate|].
  destruct (returncode =? 0)%Z; [|discriminate].
  destruct json_file as [[data|e]|]; cbn [mbind result_bind bind try_except];
    try discriminate.
  destruct data; cbn [try_except]; try discriminate.
  intros [= <-]. split.
  - rewrite lookup_insert_ne by congruence. apply lookup_insert_eq.
  - apply lookup_insert_eq.
Qed.

Lemma provenance_of_method (r : gmap string pyval) tag :
  r !! "method" = Some (PStr tag) -> provenance r = PStr tag.
Proof. unfold provenance, dict_get. intros ->. reflexivity. Qed.

Lemma succeeds_binary_tag file_path r :
  succeeds (_parse_with_binary_analysis rt w) file_path r ->
  provenance r = PStr "binary_analysis".
Proof.
  intros [Hm _]. apply provenance_of_method.
  apply (binary_analysis_result file_path r Hm).
Qed.

Lemma succeeds_node_tag file_path r :
  succeeds (_parse_with_node_fallback w) file_path r ->
  provenance r = PStr "node_js_parser".
Proof.
  intros [Hm _]. apply provenance_of_method.
  apply (node_fallback_result file_path r Hm).
Qed.

(** Hence binary analysis succeeds on every readable file. *)
Lemma binary_analysis_succeeds file_path f bytes :
  fs w !! file_path = Some f -> content f = Some bytes ->
  exists r, succeeds (_parse_with_binary_analysis rt w) file_path r.
Proof.
  intros Hf Hc.
  destruct (binary_analysis_readable file_path f bytes Hf Hc) as [r Hr].
  exists r. split; [exact Hr|].
  destruct (binary_analysis_result file_path r Hr) as [_ Hs].
  unfold reports_success, truthy, dict_get. rewrite Hs. cbn [default].
  rewrite andb_true_r. apply negb_true_iff, Nat.eqb_neq. intros Hsize.
  apply map_size_empty_iff in Hsize. rewrite Hsize in Hs. discriminate Hs.
Qed.

(** C2.  The chain tries its methods in the order of the list and
    returns the result of the first one that reports success; it returns
    [None] exactly when every method fails.  For the three methods of the
    parser: the pyirsdk method never succeeds; when binary analysis
    succeeds its result is returned and carries the tag
    ["binary_analysis"], not ["pyirsdk"]; when binary analysis fails and
    the Node fallback succeeds its result is returned with the tag
    ["node_js_parser"]; and when all three fail the chain returns [None],
    not a result. *)
Theorem chain_returns_first_success (file_path : string) :
  (forall methods r,
      try_methods methods file_path = Some r
      <-> exists before method after,
            methods = before ++ method :: after
            /\ Forall (fun m => fails m file_path) before
            /\ succeeds method file_path r)
  /\ (forall methods,
         try_methods methods file_path = None
         <-> Forall (fun m => fails m file_path) methods)
  /\ parser_methods rt w
     = [ _parse_with_irsdk rt w;
         _parse_with_binary_analysis rt w;
         _parse_with_node_fallback w ]
  /\ fails (_parse_with_irsdk rt w) file_path
  /\ (forall r,
         fails (_parse_with_irsdk rt w) file_path ->
         succeeds (_parse_with_binary_analysis rt w) file_path r ->
         parse_ibt_file rt w file_path = Some r
         /\ provenance r = PStr "binary_analysis"
         /\ provenance r <> PStr "pyirsdk")
  /\ (forall r,
         fails (_parse_with_irsdk rt w) file_path ->
         fails (_parse_with_binary_analysis rt w) file_path ->
         succeeds (_parse_with_node_fallback w) file_path r ->
         parse_ibt_file rt w file_path = Some r
         /\ provenance r = PStr "node_js_parser")
  /\ (fails (_parse_with_irsdk rt w) file_path ->
      fails (_parse_with_binary_analysis rt w) file_path ->
      fails (_parse_with_node_fallback w) file_path ->
      parse_ibt_file rt w file_path = None).
Proof.
  split; [intros; apply try_methods_first|].
  split; [intros; apply try_methods_none|].
  split; [reflexivity|].
  split; [apply irsdk_fails|].
  unfold parse_ibt_file, parser_methods.
  split; [|split].
  - intros r Ha Hb.
    rewrite (try_methods_skip _ _ _ Ha), (try_methods_take _ _ _ _ Hb).
    pose proof (succeeds_binary_tag file_path r Hb) as Htag.
    split; [reflexivity|]. split; [exact Htag|]. rewrite Htag. discriminate.
  - intros r Ha Hb Hc.
    rewrite (try_methods_skip _ _ _ Ha), (try_methods_skip _ _ _ Hb),
      (try_methods_take _ _ _ _ Hc).
    split; [reflexivity|]. exact (succeeds_node_tag file_path r Hc).
  - intros Ha Hb Hc. apply try_methods_none. repeat constructor; assumption.
Qed.

End Methods.

Lemma chain_returns_first_success_witness :
  exists r,
    parse_ibt_file sample_runtime sample_world recording_path = Some r
    /\ provenance r = PStr "binary_analysis"
    /\ provenance r <> PStr "pyirsdk".
Proof.
  destruct (chain_returns_first_success sample_runtime sample_world recording_path)
    as (_ & _ & _ & Ha & Hb & _).
  destruct (binary_analysis_succeeds sample_runtime sample_world recording_path
              (mkFile 1757770037 200000 (Some "iRacing telemetry"))
              "iRacing telemetry" eq_refl eq_refl) as [r Hr].
  exists r. apply Hb; [exact Ha|exact Hr].
Defined.

End DecoderFacts.

(* ===================================================================== *)
(** * Properties of the entry point                                        *)
(* ===================================================================== *)

Module ProcessorFacts.
Import Py PyData Decoder Processor Samples.

Section EntryPoint.
Variable rt : runtime.
Variable session_info_of : gmap string pyval -> result pyval.
Variable lap_analysis_of : gmap string pyval -> result pyval.
Variable insights_of : pyval -> pyval -> gmap string pyval -> result pyval.
Variable analyzer : gmap string pyval -> result pyval.

#[warnings="-notation-for-abbreviation"]
Local Notation process :=
  (process_telemetry_file rt session_info_of lap_analysis_of insights_of analyzer).
#[warnings="-notation-for-abbreviation"]
Local Notation body :=
  (process_body rt session_info_of lap_analysis_of insights_of analyzer).

(** The hash depends on the path and on what [stat] reports only. *)
Lemma get_file_hash_stat (w w' : world) file_path :
  stat w' file_path = stat w file_path ->
  _get_file_hash rt w' file_path = _get_file_hash rt w file_path.
Proof.
  unfold stat, _get_file_hash, hash_input.
  destruct (fs w' !! file_path) as [f'|], (fs w !! file_path) as [f|];
    simpl; intros H; try discriminate H; [|reflexivity].
  injection H as -> ->. reflexivity.
Qed.

Lemma get_file_hash_missing (w : world) file_path :
  fs w !! file_path = None -> _get_file_hash rt w file_path = Raise FileNotFoundError.
Proof. unfold _get_file_hash. intros ->. reflexivity. Qed.

Lemma get_file_hash_unencodable (w : world) file_path f :
  fs w !! file_path = Some f -> str_encode rt (hash_input rt file_path f) = None ->
  _get_file_hash rt w file_path = Raise UnicodeEncodeError.
Proof. unfold _get_file_hash. intros -> ->. reflexivity. Qed.

Lemma get_file_hash_exists (w : world) file_path f :
  fs w !! file_path = Some f -> is_Some (str_encode rt (hash_input rt file_path f)) ->
  exists h, _get_file_hash rt w file_path = Ok h.
Proof. unfold _get_file_hash. intros -> [bytes ->]. eexists. reflexivity. Qed.

(** The dictionary returned by the [try] block records the hash as its
    ["id"]. *)
Lemma process_body_id (w : world) file_hash file_path data :
  body w file_hash file_path = Ok (Some data) ->
  data !! "id" = Some (PStr file_hash).
Proof.
  unfold process_body.
  destruct (parse_ibt_file rt w file_path) as [raw_data|]; [|discriminate].
  destruct (negb _); [discriminate|].
  destruct (session_info_of raw_data) as [si|]; cbn [mbind result_bind bind];
    [|discriminate].
  destruct (lap_analysis_of raw_data) as [la|]; cbn [mbind result_bind bind];
    [|discriminate].
  destruct (insights_of si la raw_data) as [ins|]; cbn [mbind result_bind bind];
    [|discriminate].
  destruct (sub_get raw_data _ "total_samples" _) as [ts|];
    cbn [mbind result_bind bind]; [|discriminate].
  destruct (sub_get raw_data _ "duration_seconds" _) as [du|];
    cbn [mbind result_bind bind]; [|discriminate].
  intros [= <-]. rewrite lookup_insert_ne by congruence. reflexivity.
Qed.

(** A processed file is recognised by the membership test. *)
Lemma process_known_hash (w : world) (processed_files : gset string) file_path h :
  _get_file_hash rt w file_path = Ok h -> h ∈ processed_files ->
  process w processed_files file_path = (Ok None, processed_files).
Proof.
  intros Hh Hin. unfold process_telemetry_file. rewrite Hh.
  destruct (decide (h ∈ processed_files)); [reflexivity|contradiction].
Qed.

(** C8.  When processing a path has produced a session result, the hash
    of path, modification time and size is the result's id and is in the
    set of processed files; processing the same path again, with the
    same size and modification time, then returns [None] and leaves the
    set as it is, however often it is repeated and whatever else was
    recorded in between. *)
Theorem reprocessing_unchanged_file_returns_nothing
  (w w' : world) (processed_files processed_files' : gset string)
  (file_path : string) (data : gmap string pyval) :
  process w processed_files file_path = (Ok (Some data), processed_files') ->
  stat w' file_path = stat w file_path ->
  exists file_hash,
    _get_file_hash rt w file_path = Ok file_hash
    /\ data !! "id" = Some (PStr file_hash)
    /\ file_hash ∈ processed_files'
    /\ process w' processed_files' file_path = (Ok None, processed_files')
    /\ (forall later, processed_files' ⊆ later ->
                      process w' later file_path = (Ok None, later)).
Proof.
  intros Hfirst Hstat. unfold process_telemetry_file in Hfirst.
  destruct (_get_file_hash rt w file_path) as [h|e] eqn:Hh; [|discriminate].
  destruct (decide (h ∈ processed_files)); [discriminate|].
  destruct (body w h file_path) as [[d|]|e] eqn:Hbody; try discriminate.
  injection Hfirst as <- <-.
  pose proof (get_file_hash_stat w w' file_path Hstat) as Hsame.
  rewrite Hh in Hsame.
  exists h. split; [reflexivity|].
  split; [exact (process_body_id w h file_path d Hbody)|].
  split; [set_solver|].
  split.
  - apply (process_known_hash w' _ file_path h Hsame). set_solver.
  - intros later Hsub. apply (process_known_hash w' _ file_path h Hsame).
    set_solver.
Qed.

(** On a path that does not exist the error of [stat], raised before the
    [try] block, leaves the entry point. *)
Lemma missing_path_stat_error
  (w : world) (processed_files : gset string) (file_path : string) :
  fs w !! file_path = None ->
  process w processed_files file_path = (Raise FileNotFoundError, processed_files).
Proof.
  intros Hnone. unfold process_telemetry_file.
  rewrite (get_file_hash_missing w file_path Hnone). reflexivity.
Qed.

(** On a file whose hash input cannot be encoded (a path with a lone
    surrogate, from a file name that is not valid UTF-8) the error of
    [encode], raised before the [try] block as well, leaves the entry
    point. *)
Lemma unencodable_path_encode_error
  (w : world) (processed_files : gset string) (file_path : string) (f : file) :
  fs w !! file_path = Some f ->
  str_encode rt (hash_input rt file_path f) = None ->
  process w processed_files file_path = (Raise UnicodeEncodeError, processed_files).
Proof.
  intros Hf Henc. unfold process_telemetry_file.
  rewrite (get_file_hash_unencodable w file_path f Hf Henc). reflexivity.
Qed.

(** Every file that can be opened for reading is decoded by binary
    analysis. *)
Lemma readable_file_is_decoded (w : world) (file_path : string) f bytes :
  fs w !! file_path = Some f -> content f = Some bytes ->
  exists r,
    parse_ibt_file rt w file_path = Some r
    /\ reports_success (Some r) = true
    /\ provenance r = PStr "binary_analysis".
Proof.
  intros Hf Hc.
  destruct (DecoderFacts.binary_analysis_succeeds rt w file_path f bytes Hf Hc)
    as [r Hr].
  exists r. unfold parse_ibt_file, parser_methods.
  rewrite (DecoderFacts.try_methods_skip _ _ _
             (DecoderFacts.irsdk_fails rt w file_path)).
  rewrite (DecoderFacts.try_methods_take _ _ _ _ Hr).
  split; [reflexivity|]. split; [exact (proj2 Hr)|].
  exact (DecoderFacts.succeeds_binary_tag rt w file_path r Hr).
Qed.

(** A readable file that was not processed before yields a session
    result whenever the helpers return. *)
Lemma readable_file_is_processed
  (w : world) (processed_files : gset string) (file_path : string) f bytes :
  fs w !! file_path = Some f -> content f = Some bytes ->
  is_Some (str_encode rt (hash_input rt file_path f)) ->
  (forall h, _get_file_hash rt w file_path = Ok h -> h ∉ processed_files) ->
  (forall raw, returns (session_info_of raw)) ->
  (forall raw, returns (lap_analysis_of raw)) ->
  (forall si la raw, returns (insights_of si la raw)) ->
  exists data file_hash,
    _get_file_hash rt w file_path = Ok file_hash
    /\ process w processed_files file_path
       = (Ok (Some data), {[file_hash]} ∪ processed_files).
Proof.
  intros Hf Hc Henc Hnew Hsi Hla Hins.
  destruct (get_file_hash_exists w file_path f Hf Henc) as [h Hh].
  destruct (DecoderFacts.binary_analysis_succeeds rt w file_path f bytes Hf Hc)
    as [r Hr].
  assert (Hparse : parse_ibt_file rt w file_path = Some r).
  { unfold parse_ibt_file, parser_methods.
    rewrite (DecoderFacts.try_methods_skip _ _ _
               (DecoderFacts.irsdk_fails rt w file_path)).
    apply (DecoderFacts.try_methods_take _ _ _ _ Hr). }
  destruct (DecoderFacts.binary_analysis_estimate rt w file_path r (proj1 Hr))
    as [d Hd].
  unfold process_telemetry_file, process_body. rewrite Hh, Hparse.
  destruct (decide (h ∈ processed_files)) as [Hin|_];
    [exfalso; exact (Hnew h Hh Hin)|].
  rewrite (proj2 Hr). cbn [negb].
  destruct (Hsi r) as [si ->]. cbn [mbind result_bind bind].
  destruct (Hla r) as [la ->]. cbn [mbind result_bind bind].
  destruct (Hins si la r) as [ins ->]. cbn [mbind result_bind bind].
  unfold sub_get. rewrite Hd. cbn [mbind result_bind bind].
  eexists _, h. split; reflexivity.
Qed.

(** C3 (as the code has it).  For a path that exists and whose hash
    input can be encoded no exception leaves the entry point: the call
    returns a session result or [None], and it returns [None] when every
    parsing method fails.  An empty file is not a decode failure: every
    file that can be opened for reading, whatever its size, is decoded by
    binary analysis (tag ["binary_analysis"]), and if its hash input can be
    encoded and it was not processed before it yields a session result
    whenever the helpers that fill the result return. *)
Theorem entry_point_failure_modes
  (w : world) (processed_files : gset string) (file_path : string) :
  (forall f,
      fs w !! file_path = Some f ->
      is_Some (str_encode rt (hash_input rt file_path f)) ->
      exists r processed_files',
        process w processed_files file_path = (Ok r, processed_files'))
  /\ (forall f,
         fs w !! file_path = Some f ->
         is_Some (str_encode rt (hash_input rt file_path f)) ->
         parse_ibt_file rt w file_path = None ->
         process w processed_files file_path = (Ok None, processed_files))
  /\ (forall f bytes,
         fs w !! file_path = Some f -> content f = Some bytes ->
         exists r,
           parse_ibt_file rt w file_path = Some r
           /\ reports_success (Some r) = true
           /\ provenance r = PStr "binary_analysis")
  /\ (forall f bytes,
         fs w !! file_path = Some f -> content f = Some bytes ->
         is_Some (str_encode rt (hash_input rt file_path f)) ->
         (forall h, _get_file_hash rt w file_path = Ok h -> h ∉ processed_files) ->
         (forall raw, returns (session_info_of raw)) ->
         (forall raw, returns (lap_analysis_of raw)) ->
         (forall si la raw, returns (insights_of si la raw)) ->
         exists data processed_files',
           process w processed_files file_path
           = (Ok (Some data), processed_files')).
Proof.
  split; [|split; [|split]].
  - intros f Hf Henc. destruct (get_file_hash_exists w file_path f Hf Henc) as [h Hh].
    unfold process_telemetry_file. rewrite Hh.
    destruct (decide (h ∈ processed_files)); [eexists _, _; reflexivity|].
    destruct (body w h file_path) as [[d|]|e]; eexists _, _; reflexivity.
  - intros f Hf Henc Hparse.
    destruct (get_file_hash_exists w file_path f Hf Henc) as [h Hh].
    unfold process_telemetry_file, process_body. rewrite Hh, Hparse.
    destruct (decide (h ∈ processed_files)); reflexivity.
  - intros f bytes Hf Hc. exact (readable_file_is_decoded w file_path f bytes Hf Hc).
  - intros f bytes Hf Hc Henc Hnew Hsi Hla Hins.
    destruct (readable_file_is_processed w processed_files file_path f bytes
                Hf Hc Henc Hnew Hsi Hla Hins) as (data & h & _ & Hrun).
    eexists _, _. exact Hrun.
Qed.

(** The professional analysis cannot abort the processing of a session:
    with any other analyzer, raising or not, the same calls produce a
    session result, the same hashes are recorded, and the results differ
    in the ["professional_analysis"] entry only. *)
Lemma analyzer_cannot_abort (other : gmap string pyval -> result pyval)
  (w : world) (processed_files : gset string) (file_path : string) :
  snd (process w processed_files file_path)
  = snd (process_telemetry_file rt session_info_of lap_analysis_of insights_of
           other w processed_files file_path)
  /\ match fst (process w processed_files file_path),
           fst (process_telemetry_file rt session_info_of lap_analysis_of
                  insights_of other w processed_files file_path) with
     | Ok (Some d), Ok (Some d') =>
         delete "professional_analysis" d = delete "professional_analysis" d'
         /\ is_Some (d !! "professional_analysis")
         /\ is_Some (d' !! "professional_analysis")
     | Ok None, Ok None => True
     | Raise e, Raise e' => e = e'
     | _, _ => False
     end.
Proof.
  unfold process_telemetry_file.
  destruct (_get_file_hash rt w file_path) as [h|e]; [|split; reflexivity].
  destruct (decide (h ∈ processed_files)); [split; [reflexivity|exact I]|].
  unfold process_body.
  destruct (parse_ibt_file rt w file_path) as [raw_data|];
    [|split; [reflexivity|exact I]].
  destruct (negb _); [split; [reflexivity|exact I]|].
  destruct (session_info_of raw_data) as [si|]; cbn [mbind result_bind bind];
    [|split; [reflexivity|exact I]].
  destruct (lap_analysis_of raw_data) as [la|]; cbn [mbind result_bind bind];
    [|split; [reflexivity|exact I]].
  destruct (insights_of si la raw_data) as [ins|]; cbn [mbind result_bind bind];
    [|split; [reflexivity|exact I]].
  destruct (sub_get raw_data _ "total_samples" _) as [ts|];
    cbn [mbind result_bind bind]; [|split; [reflexivity|exact I]].
  destruct (sub_get raw_data _ "duration_seconds" _) as [du|];
    cbn [mbind result_bind bind]; [|split; [reflexivity|exact I]].
  cbn [fst snd]. split; [reflexivity|].
  rewrite !delete_insert_eq, !lookup_insert_eq. repeat split; eexists; reflexivity.
Qed.


End EntryPoint.

(** The sample processor: the sample interpreter with helpers that return
    empty dictionaries. *)
#[warnings="-notation-for-abbreviation"]
Local Notation sample_process :=
  (process_telemetry_file sample_runtime no_session_info no_lap_analysis
     no_insights no_professional_analysis).

Lemma sample_helpers_return :
  (forall raw, returns (no_session_info raw))
  /\ (forall raw, returns (no_lap_analysis raw))
  /\ (forall si la raw, returns (no_insights si la raw)).
Proof. repeat split; intros; eexists; reflexivity. Qed.

Lemma sample_recording_processed :
  exists data file_hash,
    sample_process sample_world ∅ recording_path = (Ok (Some data), {[file_hash]} ∪ ∅).
Proof.
  destruct sample_helpers_return as (Hsi & Hla & Hins).
  destruct (readable_file_is_processed sample_runtime no_session_info
              no_lap_analysis no_insights no_professional_analysis sample_world ∅
              recording_path (mkFile 1757770037 200000 (Some "iRacing telemetry"))
              "iRacing telemetry" eq_refl eq_refl) as (data & h & _ & Hrun);
    try assumption.
  - eexists. reflexivity.
  - intros h _. set_solver.
  - exists data, h. exact Hrun.
Qed.

Lemma sample_empty_file_processed :
  exists data file_hash,
    sample_process sample_world ∅ "/telemetry/empty.ibt"
    = (Ok (Some data), {[file_hash]} ∪ ∅).
Proof.
  destruct sample_helpers_return as (Hsi & Hla & Hins).
  destruct (readable_file_is_processed sample_runtime no_session_info
              no_lap_analysis no_insights no_professional_analysis sample_world ∅
              "/telemetry/empty.ibt" (mkFile 1757770100 0 (Some ""))
              "" eq_refl eq_refl) as (data & h & _ & Hrun);
    try assumption.
  - eexists. reflexivity.
  - intros h _. set_solver.
  - exists data, h. exact Hrun.
Qed.

(** The readable recording whose name cannot be encoded is not processed:
    the error of [encode] leaves the entry point. *)
Lemma misnamed_recording_encode_error :
  (exists f, fs misnamed_world !! misnamed_path = Some f
             /\ content f = Some "iRacing telemetry")
  /\ process_telemetry_file strict_runtime no_session_info no_lap_analysis
       no_insights no_professional_analysis misnamed_world ∅ misnamed_path
     = (Raise UnicodeEncodeError, ∅).
Proof.
  split; [eexists; split; reflexivity|].
  apply (unencodable_path_encode_error strict_runtime no_session_info
           no_lap_analysis no_insights no_professional_analysis misnamed_world ∅
           misnamed_path (mkFile 1757770200 200000 (Some "iRacing telemetry")));
    reflexivity.
Qed.

Lemma reprocessing_unchanged_file_returns_nothing_witness :
  exists data processed_files' file_hash,
    sample_process sample_world ∅ recording_path = (Ok (Some data), processed_files')
    /\ file_hash ∈ processed_files'
    /\ sample_process sample_world processed_files' recording_path
       = (Ok None, processed_files').
Proof.
  destruct sample_recording_processed as (data & h & Hfirst).
  destruct (reprocessing_unchanged_file_returns_nothing
              sample_runtime no_session_info no_lap_analysis no_insights
              no_professional_analysis sample_world sample_world
              ∅ ({[h]} ∪ ∅) recording_path data Hfirst eq_refl)
    as (file_hash & _ & _ & Hin & Hagain & _).
  exists data, ({[h]} ∪ ∅), file_hash. split; [exact Hfirst|].
  split; [exact Hin|exact Hagain].
Defined.

Lemma entry_point_failure_modes_witness :
  (exists r processed_files',
      sample_process sample_world ∅ "/telemetry/empty.ibt" = (Ok r, processed_files'))
  /\ (exists r,
        parse_ibt_file sample_runtime sample_world "/telemetry/empty.ibt" = Some r
        /\ reports_success (Some r) = true
        /\ provenance r = PStr "binary_analysis")
  /\ (exists data processed_files',
        sample_process sample_world ∅ "/telemetry/empty.ibt"
        = (Ok (Some data), processed_files')).
Proof.
  destruct (entry_point_failure_modes sample_runtime no_session_info
              no_lap_analysis no_insights no_professional_analysis
              sample_world ∅ "/telemetry/empty.ibt") as (H1 & _ & H3 & H4).
  split; [|split].
  - apply (H1 (mkFile 1757770100 0 (Some ""))); [reflexivity|].
    eexists. reflexivity.
  - apply (H3 (mkFile 1757770100 0 (Some "")) ""); reflexivity.
  - apply (H4 (mkFile 1757770100 0 (Some "")) ""); try reflexivity.
    + eexists. reflexivity.
    + intros h _. set_solver.
    + intros raw. eexists. reflexivity.
    + intros raw. eexists. reflexivity.
    + intros si la raw. eexists. reflexivity.
Defined.

(** C3 fails as stated: the empty file of the sample directory is not
    reported as a decode failure; the chain decodes it and the entry point
    returns a session result for it. *)
Lemma empty_file_is_not_a_decode_failure :
  (content <$> fs sample_world !! "/telemetry/empty.ibt" = Some (Some "")
   /\ st_size <$> fs sample_world !! "/telemetry/empty.ibt" = Some 0%Z)
  /\ parse_ibt_file sample_runtime sample_world "/telemetry/empty.ibt" <> None
  /\ exists data,
       fst (sample_process sample_world ∅ "/telemetry/empty.ibt") = Ok (Some data).
Proof.
  split; [split; reflexivity|]. split.
  - destruct (readable_file_is_decoded sample_runtime sample_world
                "/telemetry/empty.ibt" (mkFile 1757770100 0 (Some "")) ""
                eq_refl eq_refl) as (r & Hr & _).
    rewrite Hr. discriminate.
  - destruct sample_empty_file_processed as (data & h & Hrun).
    exists data. rewrite Hrun. reflexivity.
Qed.

End ProcessorFacts.

(* ===================================================================== *)
(** * Missing data in the metric engine                                    *)
(* ===================================================================== *)

Module EngineFacts.
Import Py PyData CosWorth Processor Samples.
Local Open Scope R_scope.



End EngineFacts.

(* ===================================================================== *)
(** * Further properties of the segmenter                                  *)
(* ===================================================================== *)

Module MetricsFacts.
Import Py Segmenter Metrics.
Import Lqa.

Lemma Qlt_bool_iff (a b : Q) : Qlt_bool a b = true <-> (a < b)%Q.
Proof.
  unfold Qlt_bool. rewrite negb_true_iff. split.
  - intros H. apply Qnot_le_lt. intros Hle. apply Qle_bool_iff in Hle. congruence.
  - intros H. destruct (Qle_bool b a) eqn:E; [|reflexivity].
    apply Qle_bool_iff in E. lra.
Qed.

Lemma Qlt_bool_false_iff (a b : Q) : Qlt_bool a b = false <-> (b <= a)%Q.
Proof.
  unfold Qlt_bool. rewrite negb_false_iff. apply Qle_bool_iff.
Qed.

(** ** Segments are maximal runs above the threshold *)

Section ScanSound.
Context {A : Type}.
Variable thr : Q.
Variable m : nat.
Variable an : nat -> nat -> option A.

Lemma scan_from_sound (rest : list Q) :
  forall (prefix : list Q) (inside : bool) (start : nat) (acc : list (span A)),
    (inside = true ->
     start < length prefix
     /\ (forall k, start <= k < length prefix ->
                   exists x, (prefix ++ rest) !! k = Some x /\ (thr < x)%Q)
     /\ (start = 0
         \/ exists x, (prefix ++ rest) !! (start - 1) = Some x /\ (x <= thr)%Q)) ->
    (inside = false ->
     length prefix = 0
     \/ exists x, (prefix ++ rest) !! (length prefix - 1) = Some x /\ (x <= thr)%Q) ->
    Forall (run_above thr (prefix ++ rest)) acc ->
    Forall (run_above thr (prefix ++ rest))
           (scan_from thr m (traced an) rest (length prefix) inside start acc).
Proof.
  induction rest as [|x rest IH]; intros prefix inside start acc Hin Hout Hacc;
    cbn [scan_from]; [exact Hacc|].
  assert (Hlen : length (prefix ++ [x]) = S (length prefix))
    by (rewrite length_app; simpl; lia).
  assert (Happ : (prefix ++ [x]) ++ rest = prefix ++ x :: rest)
    by (rewrite <- app_assoc; reflexivity).
  assert (Hx : (prefix ++ x :: rest) !! length prefix = Some x)
    by (apply list_lookup_middle; reflexivity).
  specialize (IH (prefix ++ [x])). rewrite Hlen, Happ in IH.
  destruct (Qlt_bool thr x && negb inside) eqn:Henter.
  { apply andb_true_iff in Henter. destruct Henter as [Hgt Hneg].
    apply Qlt_bool_iff in Hgt. apply negb_true_iff in Hneg.
    apply IH; [|intros ?; discriminate|exact Hacc].
    intros _. split; [lia|]. split.
    - intros k Hk. assert (k = length prefix) as -> by lia. exists x. auto.
    - specialize (Hout Hneg). destruct Hout as [H0|Hprev]; [left; exact H0|right; exact Hprev]. }
  destruct (Qle_bool x thr && inside) eqn:Hleave.
  { apply andb_true_iff in Hleave. destruct Hleave as [Hle Hinside].
    apply Qle_bool_iff in Hle. destruct (Hin Hinside) as (Hstart & Hrun & Hbefore).
    apply IH; [intros ?; discriminate| |].
    - intros _. right. exists x. simpl. rewrite Nat.sub_0_r. auto.
    - destruct (m <? length prefix - start); [|exact Hacc].
      destruct (traced an start (length prefix)) as [sp|] eqn:Htr; [|exact Hacc].
      unfold traced in Htr. destruct (an start (length prefix)); [|discriminate].
      simpl in Htr. injection Htr as <-.
      apply Forall_app; split; [exact Hacc|]. constructor; [|constructor].
      split; [exact Hrun|]. split; [exists x; auto|exact Hbefore]. }
  apply IH; [| |exact Hacc].
  - intros Hinside. destruct (Hin Hinside) as (Hstart & Hrun & Hbefore).
    split; [lia|]. split; [|exact Hbefore].
    intros k Hk. destruct (decide (k = length prefix)) as [->|Hne].
    + exists x. split; [exact Hx|].
      rewrite Hinside, andb_true_r in Hleave.
      destruct (Qle_bool x thr) eqn:E; [discriminate|].
      apply Qnot_le_lt. intros Hle. apply Qle_bool_iff in Hle. congruence.
    + apply Hrun. lia.
  - intros Houtside. right. exists x. simpl. rewrite Nat.sub_0_r.
    split; [exact Hx|].
    rewrite Houtside in Henter. simpl in Henter. rewrite andb_true_r in Henter.
    apply Qlt_bool_false_iff. exact Henter.
Qed.

Lemma scan_sound (signal : list Q) :
  Forall (run_above thr signal) (scan thr m (traced an) signal).
Proof.
  apply (scan_from_sound signal [] false 0 []).
  - intros ?; discriminate.
  - intros _. left. reflexivity.
  - constructor.
Qed.

End ScanSound.

Lemma run_above_end_in_range {A} thr (signal : list Q) (sp : span A) :
  run_above thr signal sp -> seg_end sp < length signal.
Proof.
  intros (_ & (x & Hx & _) & _). apply lookup_lt_Some in Hx. exact Hx.
Qed.

(** X1.  A corner segment is a maximal run of lateral G above 0.3 and a
    braking zone a maximal run of brake pressure above 10: all samples of
    the index range exceed the threshold, the sample at the end index exists
    and is at or below it, and so is the sample just before the range.  In
    particular a run that is still open when the stream ends is never
    emitted. *)
Theorem segments_are_runs_above_threshold
  (speed lateral_g brake_pressure longitudinal_g : list Q) :
  Forall (fun sp => run_above 0.3 lateral_g sp /\ seg_end sp < length lateral_g)
         (corner_spans speed lateral_g)
  /\ Forall (fun sp => run_above 10 brake_pressure sp
                       /\ seg_end sp < length brake_pressure)
            (braking_spans speed brake_pressure longitudinal_g).
Proof.
  split.
  - eapply List.Forall_impl; [|apply scan_sound].
    intros sp H. split; [exact H|]. exact (run_above_end_in_range _ _ _ H).
  - eapply List.Forall_impl; [|apply scan_sound].
    intros sp H. split; [exact H|]. exact (run_above_end_in_range _ _ _ H).
Qed.

(** ** The analysis of one segment *)

Lemma min_from_le (l : list Q) :
  forall x y, In y (x :: l) -> (min_from x l <= y)%Q.
Proof.
  induction l as [|z l IH]; intros x y Hy; simpl.
  - destruct Hy as [->|[]]. lra.
  - destruct (Qlt_bool z x) eqn:E.
    + apply Qlt_bool_iff in E. destruct Hy as [<-|[<-|Hy]].
      * pose proof (IH z z (or_introl eq_refl)). lra.
      * apply IH. left. reflexivity.
      * apply IH. right. exact Hy.
    + apply Qlt_bool_false_iff in E. destruct Hy as [<-|[<-|Hy]].
      * apply IH. left. reflexivity.
      * pose proof (IH x x (or_introl eq_refl)). lra.
      * apply IH. right. exact Hy.
Qed.

Lemma max_from_ge (l : list Q) :
  forall x y, In y (x :: l) -> (y <= max_from x l)%Q.
Proof.
  induction l as [|z l IH]; intros x y Hy; simpl.
  - destruct Hy as [->|[]]. lra.
  - destruct (Qlt_bool x z) eqn:E.
    + apply Qlt_bool_iff in E. destruct Hy as [<-|[<-|Hy]].
      * pose proof (IH z z (or_introl eq_refl)). lra.
      * apply IH. left. reflexivity.
      * apply IH. right. exact Hy.
    + apply Qlt_bool_false_iff in E. destruct Hy as [<-|[<-|Hy]].
      * apply IH. left. reflexivity.
      * pose proof (IH x x (or_introl eq_refl)). lra.
      * apply IH. right. exact Hy.
Qed.

Lemma max_from_in (l : list Q) : forall x, In (max_from x l) (x :: l).
Proof.
  induction l as [|y l IH]; intros x; simpl; [left; reflexivity|].
  destruct (IH (if Qlt_bool x y then y else x)) as [H|H].
  - destruct (Qlt_bool x y); rewrite <- H; [right; left|left]; reflexivity.
  - right; right; exact H.
Qed.

Lemma index_from_lookup (v : Q) (l : list Q) :
  forall k i, index_from v l k = Ok i ->
              k <= i /\ exists x, l !! (i - k) = Some x /\ (x == v)%Q.
Proof.
  induction l as [|y l IH]; intros k i H; simpl in H; [discriminate|].
  destruct (Qeq_bool y v) eqn:E.
  - injection H as <-. split; [lia|]. exists y. rewrite Nat.sub_diag.
    split; [reflexivity|]. apply Qeq_bool_iff. exact E.
  - destruct (IH (S k) i H) as (Hk & x & Hx & Hv). split; [lia|].
    exists x. split; [|exact Hv].
    replace (i - k) with (S (i - S k)) by lia. exact Hx.
Qed.

Lemma In_slice {A} (start stop : nat) (l : list A) (x : A) :
  In x (slice start stop l) ->
  exists k, start <= k < stop /\ l !! k = Some x.
Proof.
  unfold slice. intros Hin. apply list_elem_of_In, list_elem_of_lookup in Hin.
  destruct Hin as [j Hj]. apply lookup_take_Some in Hj. destruct Hj as [Hj Hlt].
  rewrite lookup_drop in Hj. exists (start + j). split; [lia|exact Hj].
Qed.

(** The extremes recorded for one corner section. *)
Lemma corner_section_facts (speed lateral_g : list Q) (start stop : nat)
  (c : corner) :
  _analyze_corner_section speed lateral_g start stop = Some c ->
  Forall (fun v => (apex_speed c <= v)%Q) (slice start stop speed)
  /\ In (apex_speed c) (slice start stop speed)
  /\ head (slice start stop speed) = Some (entry_speed c)
  /\ In (exit_speed c) (slice start stop speed)
  /\ (0 <= speed_loss c)%Q /\ (0 <= speed_gain c)%Q
  /\ Forall (fun g => (g <= max_lateral_g c)%Q) (slice start stop lateral_g)
  /\ In (max_lateral_g c) (slice start stop lateral_g)
  /\ corner_duration c = stop - start.
Proof.
  unfold _analyze_corner_section, corner_section_body.
  destruct (slice start stop speed) as [|s0 ss] eqn:Es; [discriminate|].
  destruct (slice start stop lateral_g) as [|g0 gs] eqn:Eg; [discriminate|].
  cbn [py_min py_max mbind result_bind bind].
  unfold py_index.
  destruct (index_from (min_from s0 ss) (s0 :: ss) 0) as [i|] eqn:Hi;
    cbn [mbind result_bind bind try_except]; [|discriminate].
  unfold py_get.
  destruct ((s0 :: ss) !! i) as [apex|] eqn:Ha;
    cbn [mbind result_bind bind try_except]; [|discriminate].
  intros [= <-]. cbn [apex_speed entry_speed exit_speed speed_loss speed_gain
                      max_lateral_g corner_duration].
  destruct (index_from_lookup _ _ _ _ Hi) as (_ & x & Hx & Hmin).
  rewrite Nat.sub_0_r, Ha in Hx. injection Hx as <-.
  assert (Hlow : forall v, In v (s0 :: ss) -> (apex <= v)%Q).
  { intros v Hv. rewrite Hmin. apply min_from_le. exact Hv. }
  assert (Hlast : In (List.last (s0 :: ss) s0) (s0 :: ss)).
  { destruct (exists_last (l := s0 :: ss)) as (l' & a & Heq); [discriminate|].
    rewrite Heq, last_last. apply in_or_app. right. left. reflexivity. }
  assert (Hapex : In apex (s0 :: ss)).
  { apply list_elem_of_In. eapply list_elem_of_lookup_2. exact Ha. }
  split; [apply List.Forall_forall; exact Hlow|].
  split; [exact Hapex|]. split; [reflexivity|]. split; [exact Hlast|].
  split; [pose proof (Hlow s0 (or_introl eq_refl)); lra|].
  split; [pose proof (Hlow _ Hlast) as Hq; cbn [List.last] in Hq; lra|].
  split; [apply List.Forall_forall; intros g Hg; apply max_from_ge; exact Hg|].
  split; [apply max_from_in|reflexivity].
Qed.

(** X2.  In the dictionary of a corner the apex speed is the minimum of the
    speeds of the range: it is one of them and no speed of the range is
    below it, so the speed lost into the apex and the speed gained out of it
    are never negative; the entry speed is the first speed of the range; and
    the peak lateral G is one of the values of the range and no value
    exceeds it. *)
Theorem corner_section_extremes (speed lateral_g : list Q) (start stop : nat)
  (c : corner) :
  _analyze_corner_section speed lateral_g start stop = Some c ->
  Forall (fun v => (apex_speed c <= v)%Q) (slice start stop speed)
  /\ In (apex_speed c) (slice start stop speed)
  /\ head (slice start stop speed) = Some (entry_speed c)
  /\ In (exit_speed c) (slice start stop speed)
  /\ (0 <= speed_loss c)%Q /\ (0 <= speed_gain c)%Q
  /\ Forall (fun g => (g <= max_lateral_g c)%Q) (slice start stop lateral_g)
  /\ In (max_lateral_g c) (slice start stop lateral_g)
  /\ corner_duration c = stop - start.
Proof. exact (corner_section_facts speed lateral_g start stop c). Qed.

Lemma corner_section_extremes_witness :
  exists c,
    _analyze_corner_section scenario_speed scenario_lateral_g 2 5 = Some c
    /\ In (apex_speed c) (slice 2 5 scenario_speed)
    /\ (0 <= speed_loss c)%Q.
Proof.
  destruct (_analyze_corner_section scenario_speed scenario_lateral_g 2 5)
    as [c|] eqn:Hc; [|exfalso; vm_compute in Hc; discriminate Hc].
  exists c. split; [reflexivity|].
  destruct (corner_section_extremes scenario_speed scenario_lateral_g 2 5 c Hc)
    as (_ & Hin & _ & _ & Hloss & _).
  split; [exact Hin|exact Hloss].
Defined.

(** ** Means of bounded lists *)

Lemma inject_Z_S (n : nat) :
  (inject_Z (Z.of_nat (S n)) == inject_Z (Z.of_nat n) + 1)%Q.
Proof. rewrite Nat2Z.inj_succ. unfold Z.succ. rewrite inject_Z_plus. reflexivity. Qed.

Lemma inject_Z_length_pos {A} (l : list A) :
  l <> [] -> (0 < inject_Z (Z.of_nat (length l)))%Q.
Proof.
  intros Hne. destruct l as [|x l]; [congruence|].
  change 0%Q with (inject_Z 0). rewrite <- Zlt_Qlt. simpl. lia.
Qed.

Lemma fold_sum_lower (b : Q) (l : list Q) :
  forall a, Forall (fun x => (b <= x)%Q) l ->
            (a + b * inject_Z (Z.of_nat (length l)) <= fold_left Qplus l a)%Q.
Proof.
  induction l as [|x l IH]; intros a Hall; simpl fold_left.
  - change (inject_Z (Z.of_nat (length (@nil Q)))) with 0%Q. lra.
  - inversion Hall as [|? ? Hx Hl]; subst. specialize (IH (a + x)%Q Hl).
    cbn [length]. rewrite inject_Z_S. lra.
Qed.

Lemma fold_sum_upper (b : Q) (l : list Q) :
  forall a, Forall (fun x => (x <= b)%Q) l ->
            (fold_left Qplus l a <= a + b * inject_Z (Z.of_nat (length l)))%Q.
Proof.
  induction l as [|x l IH]; intros a Hall; simpl fold_left.
  - change (inject_Z (Z.of_nat (length (@nil Q)))) with 0%Q. lra.
  - inversion Hall as [|? ? Hx Hl]; subst. specialize (IH (a + x)%Q Hl).
    cbn [length]. rewrite inject_Z_S. lra.
Qed.

Lemma fold_sum_lower_strict (b : Q) (l : list Q) :
  forall a, l <> [] -> Forall (fun x => (b < x)%Q) l ->
            (a + b * inject_Z (Z.of_nat (length l)) < fold_left Qplus l a)%Q.
Proof.
  induction l as [|x l IH]; intros a Hne Hall; [congruence|].
  inversion Hall as [|? ? Hx Hl]; subst. simpl fold_left. cbn [length].
  rewrite inject_Z_S. destruct l as [|y l].
  - change (inject_Z (Z.of_nat (length (@nil Q)))) with 0%Q. cbn [fold_left]. lra.
  - specialize (IH (a + x)%Q ltac:(discriminate) Hl). lra.
Qed.

Lemma mean_lower_strict (b : Q) (l : list Q) :
  l <> [] -> Forall (fun x => (b < x)%Q) l -> (b < mean l)%Q.
Proof.
  intros Hne Hall. unfold mean, Qsum.
  apply Qlt_shift_div_l; [apply inject_Z_length_pos; exact Hne|].
  pose proof (fold_sum_lower_strict b l 0 Hne Hall). lra.
Qed.

Lemma mean_lower (b : Q) (l : list Q) :
  l <> [] -> Forall (fun x => (b <= x)%Q) l -> (b <= mean l)%Q.
Proof.
  intros Hne Hall. unfold mean, Qsum.
  apply Qle_shift_div_l; [apply inject_Z_length_pos; exact Hne|].
  pose proof (fold_sum_lower b l 0 Hall). lra.
Qed.

Lemma mean_upper (b : Q) (l : list Q) :
  l <> [] -> Forall (fun x => (x <= b)%Q) l -> (mean l <= b)%Q.
Proof.
  intros Hne Hall. unfold mean, Qsum.
  apply Qle_shift_div_r; [apply inject_Z_length_pos; exact Hne|].
  pose proof (fold_sum_upper b l 0 Hall). lra.
Qed.

Lemma Qabs'_nonneg (q : Q) : (0 <= Qabs' q)%Q.
Proof.
  unfold Qabs'. destruct (Qlt_bool q 0) eqn:E.
  - apply Qlt_bool_iff in E. lra.
  - apply Qlt_bool_false_iff in E. exact E.
Qed.

(** What [_analyze_braking_zone] stores. *)
Lemma braking_zone_extremes (speed brake_pressure longitudinal_g : list Q)
  (start stop : nat) (z : braking_zone) :
  _analyze_braking_zone speed brake_pressure longitudinal_g start stop = Some z ->
  slice start stop brake_pressure <> []
  /\ In (max_pressure z) (slice start stop brake_pressure)
  /\ Forall (fun p => (p <= max_pressure z)%Q) (slice start stop brake_pressure)
  /\ average_pressure z = mean (slice start stop brake_pressure)
  /\ (0 <= max_deceleration z)%Q
  /\ braking_distance z = length (slice start stop speed) * 20
  /\ head (slice start stop speed) = Some (zone_entry_speed z)
  /\ braking_duration z = stop - start.
Proof.
  unfold _analyze_braking_zone, braking_zone_body.
  destruct (slice start stop speed) as [|s0 ss] eqn:Es; [discriminate|].
  destruct (slice start stop brake_pressure) as [|p0 ps] eqn:Ep; [discriminate|].
  cbn [py_max mbind result_bind bind].
  destruct (py_min _) as [g|]; cbn [mbind result_bind bind try_except]; [|discriminate].
  intros [= <-]. cbn [max_pressure average_pressure max_deceleration braking_distance
                      zone_entry_speed braking_duration].
  split; [discriminate|]. split; [apply max_from_in|].
  split; [apply List.Forall_forall; intros p Hp; apply max_from_ge; exact Hp|].
  split; [reflexivity|]. split; [apply Qabs'_nonneg|].
  repeat split.
Qed.

Lemma length_slice_le {A} (start stop : nat) (l : list A) :
  length (slice start stop l) <= stop - start.
Proof. unfold slice. rewrite length_take. lia. Qed.

Lemma slice_above {A} thr (signal : list Q) (sp : span A) :
  run_above thr signal sp ->
  Forall (fun x => (thr < x)%Q) (slice (seg_start sp) (seg_end sp) signal).
Proof.
  intros (Hrun & _). apply List.Forall_forall. intros x Hx.
  apply In_slice in Hx. destruct Hx as (k & Hk & Hlook).
  destruct (Hrun k Hk) as (y & Hy & Hgt). congruence.
Qed.

(** X3.  Every emitted corner has a peak lateral G above the entry
    threshold 0.3.  Every emitted braking zone has a peak and an average
    brake pressure above 10, a non-negative peak deceleration, and an
    estimated braking distance of at most 20 m per sample of its
    duration. *)
Theorem emitted_segments_exceed_thresholds
  (speed lateral_g brake_pressure longitudinal_g : list Q) :
  Forall (fun sp => (0.3 < max_lateral_g (seg_data sp))%Q)
         (corner_spans speed lateral_g)
  /\ Forall (fun sp =>
               let z := seg_data sp in
               (10 < max_pressure z)%Q
               /\ (10 < average_pressure z)%Q
               /\ (0 <= max_deceleration z)%Q
               /\ braking_distance z <= 20 * braking_duration z)
            (braking_spans speed brake_pressure longitudinal_g).
Proof.
  split.
  - pose proof (proj1 (SegmenterFacts.scan_invariant 0.3 5
                         (_analyze_corner_section speed lateral_g) lateral_g)) as Hwf.
    pose proof (scan_sound 0.3 5 (_analyze_corner_section speed lateral_g) lateral_g)
      as Hrun.
    fold (corner_spans speed lateral_g) in Hwf, Hrun.
    apply List.Forall_forall. intros sp Hsp.
    rewrite List.Forall_forall in Hwf, Hrun.
    destruct (Hwf sp Hsp) as [_ Han]. pose proof (slice_above _ _ _ (Hrun sp Hsp)) as Habove.
    destruct (corner_section_facts _ _ _ _ _ Han) as (_ & _ & _ & _ & _ & _ & _ & Hin & _).
    rewrite List.Forall_forall in Habove. apply Habove. exact Hin.
  - pose proof (proj1 (SegmenterFacts.scan_invariant 10 3
                         (_analyze_braking_zone speed brake_pressure longitudinal_g)
                         brake_pressure)) as Hwf.
    pose proof (scan_sound 10 3
                  (_analyze_braking_zone speed brake_pressure longitudinal_g)
                  brake_pressure) as Hrun.
    fold (braking_spans speed brake_pressure longitudinal_g) in Hwf, Hrun.
    apply List.Forall_forall. intros sp Hsp.
    rewrite List.Forall_forall in Hwf, Hrun.
    destruct (Hwf sp Hsp) as [_ Han]. pose proof (slice_above _ _ _ (Hrun sp Hsp)) as Habove.
    destruct (braking_zone_extremes _ _ _ _ _ _ Han)
      as (Hne & Hin & _ & Havg & Hdec & Hdist & _ & Hdur).
    cbv zeta. split; [|split; [|split]].
    + rewrite List.Forall_forall in Habove. apply Habove. exact Hin.
    + rewrite Havg. apply mean_lower_strict; assumption.
    + exact Hdec.
    + rewrite Hdist, Hdur.
      pose proof (length_slice_le (seg_start sp) (seg_end sp) speed). lia.
Qed.

(** ** Braking intensity *)

Lemma categorize_from (zones : list braking_zone) :
  forall acc,
    fold_left categorize_step zones acc
    = {| light := light acc ++ List.filter is_light zones;
         moderate := moderate acc ++ List.filter is_moderate zones;
         heavy := heavy acc ++ List.filter is_heavy zones;
         maximum := maximum acc ++ List.filter is_maximum zones |}.
Proof.
  induction zones as [|z zones IH]; intros acc; simpl.
  - rewrite !app_nil_r. destruct acc; reflexivity.
  - rewrite IH. unfold categorize_step, is_moderate, is_heavy, is_maximum, is_light.
    destruct (Qlt_bool (max_deceleration z) braking_light);
      destruct (Qlt_bool (max_deceleration z) braking_moderate);
      destruct (Qlt_bool (max_deceleration z) braking_heavy);
      simpl; rewrite <- ?app_assoc; reflexivity.
Qed.

Lemma four_way_split (zones : list braking_zone) :
  length (List.filter is_light zones) + length (List.filter is_moderate zones)
  + length (List.filter is_heavy zones) + length (List.filter is_maximum zones)
  = length zones.
Proof.
  induction zones as [|z zones IH]; [reflexivity|]. simpl.
  unfold is_moderate, is_heavy, is_maximum, is_light in *.
  destruct (Qlt_bool (max_deceleration z) braking_light);
    destruct (Qlt_bool (max_deceleration z) braking_moderate);
    destruct (Qlt_bool (max_deceleration z) braking_heavy);
    simpl; lia.
Qed.

(** X4.  The four braking-intensity categories partition the zones: each
    zone is put in exactly one category (light below 0.2 g, moderate from
    0.2 g, heavy from 0.5 g, maximum from 0.8 g), in stream order, so the
    four reported counts add up to the number of zones. *)
Theorem braking_categories_partition (zones : list braking_zone) :
  let categories := categorize zones in
  light categories = List.filter is_light zones
  /\ moderate categories = List.filter is_moderate zones
  /\ heavy categories = List.filter is_heavy zones
  /\ maximum categories = List.filter is_maximum zones
  /\ Forall (fun z => (max_deceleration z < 0.2)%Q) (light categories)
  /\ Forall (fun z => (0.2 <= max_deceleration z < 0.5)%Q) (moderate categories)
  /\ Forall (fun z => (0.5 <= max_deceleration z < 0.8)%Q) (heavy categories)
  /\ Forall (fun z => (0.8 <= max_deceleration z)%Q) (maximum categories)
  /\ list_sum (map snd (_categorize_braking_zones zones)) = length zones.
Proof.
  cbv zeta. unfold _categorize_braking_zones, categorize.
  rewrite categorize_from. cbn [light moderate heavy maximum app map snd list_sum].
  repeat (split; [reflexivity|]).
  split; [|split; [|split; [|split]]].
  - apply List.Forall_forall. intros z Hz. apply List.filter_In in Hz.
    destruct Hz as [_ Hz]. unfold is_light in Hz. apply Qlt_bool_iff in Hz. exact Hz.
  - apply List.Forall_forall. intros z Hz. apply List.filter_In in Hz.
    destruct Hz as [_ Hz]. unfold is_moderate, is_light in Hz.
    apply andb_true_iff in Hz. destruct Hz as [H1 H2].
    apply negb_true_iff, Qlt_bool_false_iff in H1. apply Qlt_bool_iff in H2.
    split; assumption.
  - apply List.Forall_forall. intros z Hz. apply List.filter_In in Hz.
    destruct Hz as [_ Hz]. unfold is_heavy, is_light in Hz.
    apply andb_true_iff in Hz. destruct Hz as [Hz H3].
    apply andb_true_iff in Hz. destruct Hz as [H1 H2].
    apply negb_true_iff, Qlt_bool_false_iff in H2. apply Qlt_bool_iff in H3.
    split; assumption.
  - apply List.Forall_forall. intros z Hz. apply List.filter_In in Hz.
    destruct Hz as [_ Hz]. unfold is_maximum, is_light in Hz.
    apply andb_true_iff in Hz. destruct Hz as [_ H3].
    apply negb_true_iff, Qlt_bool_false_iff in H3. exact H3.
  - pose proof (four_way_split zones). cbn [list_sum foldr]. unfold list_sum. simpl. lia.
Qed.

(** ** Peak-G zones *)

Lemma slice_nonempty {A} (start stop : nat) (l : list A) :
  start < stop -> start < length l -> slice start stop l <> [].
Proof.
  intros H1 H2 Hnil. apply (f_equal (@length A)) in Hnil.
  unfold slice in Hnil. rewrite length_take, length_drop in Hnil. simpl in Hnil. lia.
Qed.

Lemma peak_loop_scan (lateral_g rest : list Q) :
  forall (prefix : list Q) (inside : bool) (start : nat) (zones : list peak_zone),
    lateral_g = prefix ++ rest ->
    (inside = true -> start < length prefix) ->
    peak_loop lateral_g rest (length prefix) inside start zones
    = Ok (scan_from 1 0 (peak_section lateral_g) rest (length prefix) inside start zones).
Proof.
  induction rest as [|x rest IH]; intros prefix inside start zones Hfull Hin;
    cbn [peak_loop scan_from]; [reflexivity|].
  assert (Hlen : length (prefix ++ [x]) = S (length prefix))
    by (rewrite length_app; simpl; lia).
  assert (Happ : lateral_g = (prefix ++ [x]) ++ rest)
    by (rewrite <- app_assoc; exact Hfull).
  specialize (IH (prefix ++ [x])). rewrite Hlen in IH.
  destruct (Qlt_bool 1 x && negb inside).
  { apply IH; [exact Happ|intros _; lia]. }
  destruct (Qle_bool x 1 && inside) eqn:Hleave.
  - apply andb_true_iff in Hleave. destruct Hleave as [_ Hinside].
    specialize (Hin Hinside).
    assert (Hpos : (0 <? length prefix - start) = true) by (apply Nat.ltb_lt; lia).
    rewrite Hpos. unfold peak_section.
    destruct (py_max (slice start (length prefix) lateral_g)) as [max_g|e] eqn:Hmax.
    + cbn [mbind result_bind bind]. apply IH; [exact Happ|intros ?; discriminate].
    + exfalso. unfold py_max in Hmax.
      destruct (slice start (length prefix) lateral_g) eqn:Hs; [|discriminate].
      revert Hs. apply slice_nonempty; [exact Hin|].
      rewrite Hfull, length_app. lia.
  - apply IH; [exact Happ|]. intros Hinside. specialize (Hin Hinside). lia.
Qed.

(** X5.  [_find_peak_g_zones] never raises, and each zone it reports is a
    maximal run of lateral G above 1.0 g that is closed before the stream
    ends: it lasts at least one sample, its duration is the length of its
    index range, and both its peak and its average lateral G exceed 1.0. *)
Theorem peak_zones_are_runs_above_one_g (lateral_g : list Q) :
  exists zones,
    _find_peak_g_zones lateral_g = Ok zones
    /\ Forall (fun z =>
                 peak_start z < peak_end z < length lateral_g
                 /\ peak_duration z = peak_end z - peak_start z
                 /\ run_above 1 lateral_g (peak_span z)
                 /\ (1 < peak_max_g z)%Q
                 /\ exists a, peak_average_g z = Num a /\ (1 < a)%Q)
              zones.
Proof.
  exists (map seg_data (scan 1 0 (traced (peak_section lateral_g)) lateral_g)).
  split.
  - unfold _find_peak_g_zones.
    pose proof (peak_loop_scan lateral_g lateral_g [] false 0 [] eq_refl
                  ltac:(intros ?; discriminate)) as Hloop.
    cbn [length] in Hloop. rewrite Hloop.
    unfold scan. rewrite SegmenterFacts.scan_from_traced. reflexivity.
  - pose proof (proj1 (SegmenterFacts.scan_invariant 1 0
                         (peak_section lateral_g) lateral_g)) as Hwf.
    pose proof (scan_sound 1 0 (peak_section lateral_g) lateral_g) as Hrun.
    apply List.Forall_map, List.Forall_forall. intros sp Hsp.
    rewrite List.Forall_forall in Hwf, Hrun.
    destruct (Hwf sp Hsp) as [Hlen Han]. pose proof (Hrun sp Hsp) as Hsp_run.
    pose proof (slice_above _ _ _ Hsp_run) as Habove.
    pose proof (run_above_end_in_range _ _ _ Hsp_run) as Hend.
    unfold peak_section in Han.
    destruct (py_max (slice (seg_start sp) (seg_end sp) lateral_g)) as [max_g|]
      eqn:Hmax; [|discriminate].
    injection Han as Hdata. rewrite <- Hdata.
    cbn [peak_start peak_end peak_duration peak_max_g peak_average_g].
    unfold py_max in Hmax.
    destruct (slice (seg_start sp) (seg_end sp) lateral_g) as [|g0 gs] eqn:Hs;
      [discriminate|]. injection Hmax as <-.
    split; [lia|]. split; [reflexivity|]. split; [|split].
    + unfold peak_span. cbn [peak_start peak_end]. rewrite Hdata.
      destruct sp; exact Hsp_run.
    + rewrite List.Forall_forall in Habove. apply Habove. apply max_from_in.
    + exists (mean (g0 :: gs)). split; [reflexivity|].
      apply mean_lower_strict; [discriminate|exact Habove].
Qed.

(** ** Brake pressure *)

Lemma brake_pressure_of_spec (g : Q) :
  let p := brake_pressure_of g in
  (0 <= p <= 100)%Q
  /\ ((10 < p)%Q <-> (g < -0.2)%Q)
  /\ ((p == 0)%Q <-> (-0.1 <= g)%Q).
Proof.
  cbv zeta. unfold brake_pressure_of, Qmin', Qabs'.
  destruct (Qlt_bool g (-0.1)) eqn:E1.
  - apply Qlt_bool_iff in E1.
    assert (Qlt_bool g 0 = true) as -> by (apply Qlt_bool_iff; lra).
    destruct (Qlt_bool (- g * 50) 100) eqn:E2.
    + apply Qlt_bool_iff in E2. repeat split; intros; lra.
    + apply Qlt_bool_false_iff in E2. repeat split; intros; lra.
  - apply Qlt_bool_false_iff in E1. repeat split; intros; lra.
Qed.

(** X6.  The simulated brake pressure has one value per longitudinal-G
    sample, always between 0 and 100; it is 0 exactly when the deceleration
    does not exceed 0.1 g, and it exceeds the braking-zone threshold 10
    exactly when the deceleration exceeds 0.2 g.  Hence every sample of a
    braking zone detected on this pressure decelerates by more than
    0.2 g. *)
Theorem brake_pressure_matches_deceleration (speed longitudinal_g : list Q) :
  let pressure := _calculate_brake_pressure longitudinal_g in
  length pressure = length longitudinal_g
  /\ Forall2 (fun g p => (0 <= p <= 100)%Q
                         /\ ((10 < p)%Q <-> (g < -0.2)%Q)
                         /\ ((p == 0)%Q <-> (-0.1 <= g)%Q))
             longitudinal_g pressure
  /\ Forall (fun sp =>
               forall k, seg_start sp <= k < seg_end sp ->
                         exists g, longitudinal_g !! k = Some g /\ (g < -0.2)%Q)
            (braking_spans speed pressure longitudinal_g).
Proof.
  cbv zeta. unfold _calculate_brake_pressure.
  split; [apply length_map|]. split.
  - induction longitudinal_g as [|g gs IH]; simpl; constructor;
      [apply brake_pressure_of_spec|exact IH].
  - eapply List.Forall_impl;
      [|apply (scan_sound 10 3
                 (_analyze_braking_zone speed (map brake_pressure_of longitudinal_g)
                    longitudinal_g))].
    intros sp (Hrun & _) k Hk. destruct (Hrun k Hk) as (p & Hp & Hgt).
    rewrite list_lookup_fmap in Hp.
    destruct (longitudinal_g !! k) as [g|] eqn:Hg; [|discriminate].
    injection Hp as <-. exists g. split; [reflexivity|].
    apply (brake_pressure_of_spec g). exact Hgt.
Qed.

(** ** The cornering analysis as a whole *)

Lemma mapM_ok {A B} (f : A -> result B) (g : A -> B) (l : list A) :
  (forall x, In x l -> f x = Ok (g x)) -> mapM f l = Ok (map g l).
Proof.
  induction l as [|x l IH]; intros H; [reflexivity|].
  cbn [mapM]. rewrite (H x (or_introl eq_refl)). cbn [mbind result_bind bind].
  rewrite IH by (intros y Hy; apply H; right; exact Hy). reflexivity.
Qed.

Lemma mapM_raise {A B} (f : A -> result B) (E : exn) (l : list A) :
  (exists x, In x l /\ f x = Raise E) ->
  (forall x e, In x l -> f x = Raise e -> e = E) ->
  mapM f l = Raise E.
Proof.
  induction l as [|x l IH]; intros (y & Hy & Hfy) Hall; [destruct Hy|].
  cbn [mapM]. destruct (f x) as [b|e] eqn:Hfx; cbn [mbind result_bind bind].
  - destruct Hy as [->|Hy]; [congruence|].
    rewrite IH; [reflexivity|exists y; auto|].
    intros z e Hz. apply Hall. right. exact Hz.
  - rewrite (Hall x e (or_introl eq_refl) Hfx). reflexivity.
Qed.

Lemma In_slice_In {A} (start stop : nat) (l : list A) (x : A) :
  In x (slice start stop l) -> In x l.
Proof.
  intros H. apply In_slice in H. destruct H as (k & _ & Hk).
  apply list_elem_of_In. eapply list_elem_of_lookup_2. exact Hk.
Qed.

(** The speeds stored in an emitted corner are samples of the speed trace,
    and the apex is the slowest of the three. *)
Lemma identified_corner_speeds (speed lateral_g steering : list Q) (c : corner) :
  In c (_identify_corners speed lateral_g steering) ->
  In (entry_speed c) speed /\ In (apex_speed c) speed /\ In (exit_speed c) speed
  /\ (apex_speed c <= entry_speed c)%Q /\ (apex_speed c <= exit_speed c)%Q
  /\ lateral_g <> [].
Proof.
  rewrite SegmenterFacts.identify_corners_spans. intros Hc.
  apply in_map_iff in Hc. destruct Hc as (sp & <- & Hsp).
  pose proof (proj1 (SegmenterFacts.scan_invariant 0.3 5
                       (_analyze_corner_section speed lateral_g) lateral_g)) as Hwf.
  fold (corner_spans speed lateral_g) in Hwf. rewrite List.Forall_forall in Hwf.
  destruct (Hwf sp Hsp) as [_ Han].
  destruct (corner_section_facts _ _ _ _ _ Han)
    as (Hlow & Hapex & Hhead & Hexit & _ & _ & _ & Hg & _).
  assert (Hentry : In (entry_speed (seg_data sp))
                      (slice (seg_start sp) (seg_end sp) speed)).
  { destruct (slice (seg_start sp) (seg_end sp) speed); [discriminate|].
    injection Hhead as <-. left. reflexivity. }
  rewrite List.Forall_forall in Hlow.
  split; [eapply In_slice_In; exact Hentry|].
  split; [eapply In_slice_In; exact Hapex|].
  split; [eapply In_slice_In; exact Hexit|].
  split; [apply Hlow; exact Hentry|]. split; [apply Hlow; exact Hexit|].
  apply In_slice_In in Hg. intros ->. destruct Hg.
Qed.

Lemma py_div_pos (a b : Q) : (0 < b)%Q -> py_div a b = Ok (a / b)%Q.
Proof.
  intros Hb. unfold py_div. destruct (Qeq_bool b 0) eqn:E; [|reflexivity].
  apply Qeq_bool_iff in E. lra.
Qed.

Lemma ratio_bounds (a b : Q) : (0 < a)%Q -> (a <= b)%Q -> (0 < a / b <= 1)%Q.
Proof.
  intros Ha Hab. split.
  - apply Qlt_shift_div_l; lra.
  - apply Qle_shift_div_r; lra.
Qed.

Lemma class_stats_of_sound (cs : list corner) :
  cs <> [] -> Forall sound_corner cs ->
  exists st, class_stats_of cs = Ok st
             /\ count st = length cs
             /\ (0 < speed_maintained st <= 100)%Q.
Proof.
  intros Hne Hall. unfold class_stats_of.
  rewrite (mapM_ok _ (fun c => (apex_speed c / entry_speed c)%Q)).
  2:{ intros c Hc. rewrite List.Forall_forall in Hall.
      destruct (Hall c Hc) as (H1 & H2 & _). apply py_div_pos. lra. }
  cbn [mbind result_bind bind]. eexists. split; [reflexivity|].
  cbn [count speed_maintained]. split; [reflexivity|].
  assert (Hr : Forall (fun r => (0 < r)%Q /\ (r <= 1)%Q)
                      (map (fun c => (apex_speed c / entry_speed c)%Q) cs)).
  { apply List.Forall_map. eapply List.Forall_impl; [|exact Hall].
    intros c (H1 & H2 & _). apply ratio_bounds; assumption. }
  apply Forall_and in Hr. destruct Hr as [Hlo Hhi].
  assert (Hmap : map (fun c => (apex_speed c / entry_speed c)%Q) cs <> []).
  { destruct cs; [congruence|discriminate]. }
  pose proof (mean_lower_strict 0 _ Hmap Hlo).
  pose proof (mean_upper 1 _ Hmap Hhi). lra.
Qed.

Lemma corner_analysis_loop_sound (corners : list corner) :
  Forall sound_corner corners ->
  forall types acc,
    (forall x, In x types -> In x corner_types) ->
    Forall (class_entry_ok corners) acc ->
    exists out, corner_analysis_loop corners types acc = Ok out
                /\ Forall (class_entry_ok corners) out.
Proof.
  intros Hall. induction types as [|[name rng] types IH]; intros acc Hsub Hacc.
  - exists acc. split; [reflexivity|exact Hacc].
  - cbn [corner_analysis_loop].
    destruct (type_corners corners rng) as [|c0 cs] eqn:Hcs.
    + apply IH; [intros x Hx; apply Hsub; right; exact Hx|exact Hacc].
    + destruct (class_stats_of_sound (c0 :: cs)) as (st & Hst & Hcount & Hsm).
      * discriminate.
      * rewrite <- Hcs. unfold type_corners.
        apply List.Forall_forall. intros c Hc. apply List.filter_In in Hc.
        rewrite List.Forall_forall in Hall. apply Hall. apply Hc.
      * rewrite Hst. cbn [mbind result_bind bind].
        apply IH; [intros x Hx; apply Hsub; right; exact Hx|].
        apply Forall_app. split; [exact Hacc|]. constructor; [|constructor].
        unfold class_entry_ok. cbn [fst snd]. rewrite Hcount.
        split; [simpl; lia|]. split; [exact Hsm|].
        exists rng. split; [apply Hsub; left; reflexivity|].
        rewrite Hcs. reflexivity.
Qed.

Lemma Qmin'_spec (a b : Q) : (Qmin' a b <= a)%Q /\ (Qmin' a b == a \/ Qmin' a b == b)%Q.
Proof.
  unfold Qmin'. destruct (Qlt_bool b a) eqn:E.
  - apply Qlt_bool_iff in E. split; [lra|right; reflexivity].
  - split; [lra|left; reflexivity].
Qed.

Lemma cornering_efficiency_sound (corners : list corner) :
  Forall sound_corner corners ->
  exists eff, _calculate_cornering_efficiency corners = Ok eff
              /\ (0 <= eff <= 100)%Q
              /\ (corners <> [] -> (0 < eff)%Q).
Proof.
  intros Hall. unfold _calculate_cornering_efficiency.
  destruct corners as [|c0 cs] eqn:Hcs.
  - exists 0%Q. split; [reflexivity|]. split; [lra|congruence].
  - rewrite <- Hcs in *.
    rewrite (mapM_ok _ (fun c => Qmin' 100 (apex_speed c / entry_speed c * 50
                                            + exit_speed c / apex_speed c * 30))).
    2:{ intros c Hc. rewrite List.Forall_forall in Hall.
        destruct (Hall c Hc) as (H1 & H2 & H3).
        rewrite py_div_pos by lra. cbn [mbind result_bind bind].
        rewrite py_div_pos by lra. reflexivity. }
    cbn [mbind result_bind bind]. eexists. split; [reflexivity|].
    assert (Hs : Forall (fun s => (0 < s)%Q /\ (s <= 100)%Q)
                   (map (fun c => Qmin' 100 (apex_speed c / entry_speed c * 50
                                             + exit_speed c / apex_speed c * 30))
                        corners)).
    { apply List.Forall_map. eapply List.Forall_impl; [|exact Hall].
      intros c (H1 & H2 & H3).
      pose proof (ratio_bounds _ _ H1 H2) as [Hr _].
      assert (0 < exit_speed c / apex_speed c)%Q as He
          by (apply Qlt_shift_div_l; lra).
      destruct (Qmin'_spec 100 (apex_speed c / entry_speed c * 50
                                + exit_speed c / apex_speed c * 30)) as [Hle [Heq|Heq]];
        split; lra. }
    apply Forall_and in Hs. destruct Hs as [Hlo Hhi].
    assert (Hmap : map (fun c => Qmin' 100 (apex_speed c / entry_speed c * 50
                                            + exit_speed c / apex_speed c * 30))
                       corners <> []).
    { rewrite Hcs. discriminate. }
    pose proof (mean_lower_strict 0 _ Hmap Hlo).
    pose proof (mean_upper 100 _ Hmap Hhi).
    split; [lra|intros _; lra].
Qed.

Lemma identified_corners_sound (speed lateral_g steering : list Q) :
  Forall (fun v => (0 < v)%Q) speed ->
  Forall sound_corner (_identify_corners speed lateral_g steering).
Proof.
  intros Hpos. apply List.Forall_forall. intros c Hc.
  destruct (identified_corner_speeds _ _ _ _ Hc) as (He & Ha & Hx & Hae & _).
  rewrite List.Forall_forall in Hpos.
  split; [apply Hpos; exact Ha|]. split; [exact Hae|apply Hpos; exact Hx].
Qed.

(** X7.  When every speed sample is positive the cornering analysis
    returns: it raises no division error.  The total is the number of
    detected corners, the overall cornering efficiency lies between 0 and
    100, and every class that is reported has at least one corner, counts
    exactly the corners of its speed range, and reports a speed maintained
    between 0 and 100 percent. *)
Theorem cornering_analysis_returns_on_positive_speeds (t : telemetry) :
  Forall (fun v => (0 < v)%Q) (speed t) ->
  exists r,
    _analyze_cornering t = Ok r
    /\ match r with
       | None => speed t = [] \/ lateral_g t = []
       | Some a =>
           let corners :=
             _identify_corners (speed t) (lateral_g t) (steering_angle t) in
           total_corners a = length corners
           /\ (0 <= cornering_efficiency (overall a) <= 100)%Q
           /\ Forall (class_entry_ok corners) (corner_type_stats a)
       end.
Proof.
  intros Hpos. unfold _analyze_cornering.
  destruct (speed t) as [|s0 ss] eqn:Hs; [exists None; split; [reflexivity|left; reflexivity]|].
  destruct (lateral_g t) as [|g0 gs] eqn:Hg;
    [exists None; split; [reflexivity|right; reflexivity]|].
  pose proof (identified_corners_sound (s0 :: ss) (g0 :: gs) (steering_angle t) Hpos)
    as Hsound.
  destruct (corner_analysis_loop_sound _ Hsound corner_types [])
    as (out & Hout & Hok); [auto|constructor|].
  destruct (cornering_efficiency_sound _ Hsound) as (eff & Heff & Hrange & _).
  rewrite Hout. cbn [mbind result_bind bind]. rewrite Heff.
  cbn [mbind result_bind bind]. eexists. split; [reflexivity|].
  cbn [total_corners overall cornering_efficiency corner_type_stats].
  split; [reflexivity|]. split; [exact Hrange|exact Hok].
Qed.

Lemma cornering_analysis_returns_on_positive_speeds_witness :
  exists a,
    _analyze_cornering boundary_telemetry = Ok (Some a)
    /\ (0 <= cornering_efficiency (overall a) <= 100)%Q.
Proof.
  destruct (cornering_analysis_returns_on_positive_speeds boundary_telemetry)
    as (r & Hr & Hprop).
  - repeat constructor.
  - destruct r as [a|].
    + exists a. split; [exact Hr|]. apply Hprop.
    + exfalso. destruct Hprop as [H|H]; discriminate H.
Defined.

(** X8.  A corner entered at standstill makes the cornering analysis raise:
    whenever a detected corner has entry speed 0, [_analyze_cornering]
    raises [ZeroDivisionError] (from the speed-maintained ratio of the
    hairpin class) instead of returning a dictionary. *)
Theorem cornering_analysis_raises_on_zero_entry_speed (t : telemetry) (c : corner) :
  In c (_identify_corners (speed t) (lateral_g t) (steering_angle t)) ->
  (entry_speed c == 0)%Q ->
  _analyze_cornering t = Raise ZeroDivisionError.
Proof.
  intros Hc Hzero.
  destruct (identified_corner_speeds _ _ _ _ Hc) as (He & _ & _ & _ & _ & Hlat).
  unfold _analyze_cornering.
  destruct (speed t) as [|s0 ss] eqn:Hs; [destruct He|].
  destruct (lateral_g t) as [|g0 gs] eqn:Hg; [congruence|].
  unfold corner_types. cbn [corner_analysis_loop].
  assert (Hin : In c (type_corners
                        (_identify_corners (s0 :: ss) (g0 :: gs) (steering_angle t))
                        (0, 60)%Q)).
  { unfold type_corners. apply List.filter_In. split; [exact Hc|].
    apply SegmenterFacts.in_range_closed; rewrite Hzero; lra. }
  destruct (type_corners _ (0, 60)%Q) as [|c0 cs] eqn:Hcs; [destruct Hin|].
  unfold class_stats_of.
  rewrite (mapM_raise _ ZeroDivisionError).
  - reflexivity.
  - exists c. split; [exact Hin|]. unfold py_div.
    assert (Qeq_bool (entry_speed c) 0 = true) as -> by (apply Qeq_bool_iff; exact Hzero).
    reflexivity.
  - intros x e _. unfold py_div. destruct (Qeq_bool (entry_speed x) 0); congruence.
Qed.

Lemma cornering_analysis_raises_on_zero_entry_speed_witness :
  _analyze_cornering standstill_telemetry = Raise ZeroDivisionError.
Proof.
  apply (cornering_analysis_raises_on_zero_entry_speed standstill_telemetry
           (mkCorner 0 0 65 0.5 7 (0 - 0) (65 - 0))).
  - vm_compute. left. reflexivity.
  - reflexivity.
Defined.

End MetricsFacts.

(* ===================================================================== *)
(** * Facts: lap splitting and lap analysis (ibt_parser.py)                *)
(* ===================================================================== *)

Module LapAnalysisFacts.
Import Py LapSplitter LapAnalysis.
Import Lqa.

(** ** [Map.prototype.set] *)

Lemma map_set_keys (k : Z) (v : Q) (m : list (Z * Q)) :
  In k (map fst m) -> map fst (map_set k v m) = map fst m.
Proof.
  induction m as [|[k' v'] m IH]; simpl; [intros []|].
  intros Hin. destruct (k' =? k)%Z eqn:E.
  - apply Z.eqb_eq in E. subst. reflexivity.
  - simpl. f_equal. apply IH. destruct Hin as [H|H]; [|exact H].
    apply Z.eqb_neq in E. congruence.
Qed.

Lemma map_set_fresh (k : Z) (v : Q) (m : list (Z * Q)) :
  ~ In k (map fst m) -> map_set k v m = m ++ [(k, v)].
Proof.
  induction m as [|[k' v'] m IH]; simpl; [reflexivity|].
  intros Hnin. destruct (k' =? k)%Z eqn:E.
  - apply Z.eqb_eq in E. subst. exfalso. apply Hnin. left. reflexivity.
  - f_equal. apply IH. intros H. apply Hnin. right. exact H.
Qed.

Lemma map_set_keys_cases (k : Z) (v : Q) (m : list (Z * Q)) :
  map fst (map_set k v m) = map fst m
  \/ (~ In k (map fst m) /\ map fst (map_set k v m) = map fst m ++ [k]).
Proof.
  destruct (in_dec Z.eq_dec k (map fst m)) as [Hin|Hnin].
  - left. apply map_set_keys. exact Hin.
  - right. split; [exact Hnin|]. rewrite map_set_fresh by exact Hnin.
    rewrite map_app. reflexivity.
Qed.

Lemma map_set_length (k : Z) (v : Q) (m : list (Z * Q)) :
  length (map_set k v m) <= S (length m).
Proof.
  induction m as [|[k' v'] m IH]; simpl; [lia|].
  destruct (k' =? k)%Z; simpl; lia.
Qed.

(** ** Any stream: the lap numbers are distinct and bounded by the
       transitions *)

Lemma keys_ok_step (seen : list (option Z)) (st : lap_state) (s : sample) :
  keys_ok seen st -> keys_ok (seen ++ [Lap s]) (lap_step st s).
Proof.
  intros (Hnd & Hkeys & Hcur). unfold keys_ok.
  assert (Hmono : forall k, In (Some k) seen -> In (Some k) (seen ++ [Lap s])).
  { intros k Hk. apply in_or_app. left. exact Hk. }
  unfold lap_step. destruct (Lap s) as [lap|] eqn:Hlap.
  2:{ split; [exact Hnd|]. split.
      - intros k Hk. destruct (Hkeys k Hk). split; [assumption|]. apply Hmono. assumption.
      - destruct Hcur as [H|H]; [left; exact H|right; apply Hmono; exact H]. }
  destruct (lap =? currentLap st)%Z eqn:E; cbn [negb].
  { split; [exact Hnd|]. split.
    - intros k Hk. destruct (Hkeys k Hk). split; [assumption|]. apply Hmono. assumption.
    - destruct Hcur as [H|H]; [left; exact H|right; apply Hmono; exact H]. }
  cbn [laps currentLap].
  assert (Hnew : In (Some lap) (seen ++ [Some lap])).
  { apply in_or_app. right. left. reflexivity. }
  destruct (0 <=? currentLap st)%Z eqn:Epos;
    [destruct (SessionTime s) as [t|]|].
  2,3: (split; [exact Hnd|]; split; [|right; exact Hnew];
        intros k Hk; destruct (Hkeys k Hk); split; [assumption|];
        apply Hmono; assumption).
  apply Z.leb_le in Epos.
  destruct (map_set_keys_cases (currentLap st) (t - lapStartTime st) (laps st))
    as [Heq|[Hnin Heq]]; rewrite Heq.
  - split; [exact Hnd|]. split; [|right; exact Hnew].
    intros k Hk. destruct (Hkeys k Hk). split; [assumption|]. apply Hmono. assumption.
  - split; [|split; [|right; exact Hnew]].
    + apply NoDup_ListNoDup. apply NoDup_app. split; [apply NoDup_ListNoDup; exact Hnd|].
      split; [|apply NoDup_singleton].
      intros x Hx Hx'. apply list_elem_of_singleton in Hx'. subst x.
      apply Hnin. apply list_elem_of_In. exact Hx.
    + intros k Hk. apply in_app_or in Hk. destruct Hk as [Hk|[<-|[]]].
      * destruct (Hkeys k Hk). split; [assumption|]. apply Hmono. assumption.
      * split; [exact Epos|]. destruct Hcur as [H|H]; [lia|]. apply Hmono. exact H.
Qed.

Lemma keys_ok_fold (samples : list sample) :
  keys_ok (map Lap samples) (fold_left lap_step samples initial_state).
Proof.
  induction samples as [|s samples IH] using rev_ind.
  - split; [constructor|]. split; [intros k []|left; reflexivity].
  - rewrite fold_left_app, map_app. simpl. apply keys_ok_step. exact IH.
Qed.

Lemma laps_bounded_by_transitions (samples : list sample) :
  forall st,
    length (laps (fold_left lap_step samples st))
    <= length (laps st)
       + (if (currentLap st =? -1)%Z
          then Nat.pred (transitions (currentLap st) (map Lap samples))
          else transitions (currentLap st) (map Lap samples)).
Proof.
  induction samples as [|s samples IH]; intros st; simpl.
  - destruct (currentLap st =? -1)%Z; simpl; lia.
  - eapply Nat.le_trans; [apply IH|]. unfold lap_step.
    destruct (Lap s) as [lap|]; [|lia].
    destruct (lap =? currentLap st)%Z eqn:E; cbn [negb]; [lia|].
    cbn [laps currentLap].
    destruct (currentLap st =? -1)%Z eqn:Ecur.
    + apply Z.eqb_eq in Ecur. rewrite Ecur in E |- *.
      change (0 <=? -1)%Z with false. cbn [Nat.pred].
      destruct (lap =? -1)%Z; [discriminate|lia].
    + assert (Hset : forall t,
                 length (map_set (currentLap st) t (laps st)) <= S (length (laps st)))
        by (intros t; apply map_set_length).
      destruct (0 <=? currentLap st)%Z; [destruct (SessionTime s) as [t|]|];
        try specialize (Hset (t - lapStartTime st)%Q);
        destruct (lap =? -1)%Z; lia.
Qed.

(** X9.  For every stream of samples (lap index or session time possibly
    missing, lap indices in any order) the laps emitted by the lap analysis
    of the Node script have pairwise distinct lap numbers; every emitted
    lap number is non-negative and is the lap index of one of the first
    1000 samples; and the number of emitted laps is at most the number of
    lap-index changes among those samples minus one (the change that
    opens the first lap closes none). *)
Theorem emitted_laps_distinct_and_bounded (samples : list sample) :
  let emitted := summary_laps samples in
  List.NoDup (map lapNumber emitted)
  /\ (forall k, In k (map lapNumber emitted) ->
        (0 <= k)%Z /\ In (Some k) (map Lap (sampleData samples)))
  /\ length emitted
     <= Nat.pred (transitions (-1) (map Lap (sampleData samples))).
Proof.
  cbv zeta. unfold summary_laps.
  rewrite map_map. cbn [lapNumber].
  rewrite length_map.
  destruct (keys_ok_fold (sampleData samples)) as (Hnd & Hkeys & _).
  split; [exact Hnd|]. split; [exact Hkeys|].
  pose proof (laps_bounded_by_transitions (sampleData samples) initial_state) as H.
  cbn in H. exact H.
Qed.

(** ** Advancing streams: the closed laps, in order, with their times *)

Lemma first_time_app_some (p : Z -> bool) (l1 l2 : list (Z * Q)) (t : Q) :
  first_time p l1 = Some t -> first_time p (l1 ++ l2) = Some t.
Proof.
  unfold first_time. induction l1 as [|x l1 IH]; simpl; [discriminate|].
  destruct (p (fst x)); [intros H; exact H|exact IH].
Qed.

Lemma first_time_app_none (p : Z -> bool) (l : list (Z * Q)) (x : Z * Q) :
  Forall (fun s => p (fst s) = false) l -> p (fst x) = true ->
  first_time p (l ++ [x]) = Some (snd x).
Proof.
  unfold first_time. induction l as [|y l IH]; simpl; intros Hall Hx.
  - rewrite Hx. reflexivity.
  - inversion Hall as [|? ? Hy Hl]; subst. rewrite Hy. apply IH; assumption.
Qed.

Lemma first_time_in (p : Z -> bool) (l : list (Z * Q)) (t : Q) :
  first_time p l = Some t -> exists s, In s l /\ p (fst s) = true /\ snd s = t.
Proof.
  unfold first_time. destruct (List.find _ l) as [s|] eqn:E; [|discriminate].
  intros [= <-]. apply find_some in E. exists s. tauto.
Qed.

Lemma sorted_app_l {A} (R : A -> A -> Prop) (l1 l2 : list A) :
  StronglySorted R (l1 ++ l2) -> StronglySorted R l1.
Proof.
  induction l1 as [|x l1 IH]; simpl; intros H; [constructor|].
  inversion H as [|? ? Hs Hall]; subst. constructor; [apply IH; exact Hs|].
  apply Forall_app in Hall. tauto.
Qed.

Lemma sorted_app_elem {A} (R : A -> A -> Prop) (l1 l2 : list A) (x1 x2 : A) :
  StronglySorted R (l1 ++ l2) -> x1 ∈ l1 -> x2 ∈ l2 -> R x1 x2.
Proof.
  induction l1 as [|x l1 IH]; simpl; intros H H1 H2.
  - apply elem_of_nil in H1. contradiction.
  - inversion H as [|? ? Hs Hall]; subst.
    apply elem_of_cons in H1. destruct H1 as [->|H1]; [|apply IH; assumption].
    rewrite Forall_forall in Hall. apply Hall. apply elem_of_app. right. exact H2.
Qed.

Lemma sorted_app_intro {A} (R : A -> A -> Prop) (l1 l2 : list A) :
  (forall x1 x2, x1 ∈ l1 -> x2 ∈ l2 -> R x1 x2) ->
  StronglySorted R l1 -> StronglySorted R l2 -> StronglySorted R (l1 ++ l2).
Proof.
  intros Hcross H1 H2. induction H1 as [|x l1 Hs IH Hall]; simpl; [exact H2|].
  constructor.
  - apply IH. intros x1 x2 Hx1 Hx2. apply Hcross; [|exact Hx2].
    apply elem_of_cons. right. exact Hx1.
  - apply Forall_app. split; [exact Hall|].
    apply Forall_forall. intros y Hy. apply Hcross; [|exact Hy].
    apply elem_of_cons. left. reflexivity.
Qed.

Lemma advancing_snoc (seen : list (Z * Q)) (x : Z * Q) :
  advancing (seen ++ [x]) ->
  advancing seen /\ Forall (fun s => (fst s <= fst x)%Z /\ (snd s < snd x)%Q) seen.
Proof.
  intros H. split; [eapply sorted_app_l; exact H|].
  apply Forall_forall. intros s Hs.
  apply (sorted_app_elem _ seen [x] s x H); [exact Hs|].
  apply list_elem_of_singleton. reflexivity.
Qed.

Lemma closed_laps_ok_step (seen : list (Z * Q)) (x : Z * Q) (st : lap_state) :
  advancing (seen ++ [x]) ->
  closed_laps_ok seen st ->
  closed_laps_ok (seen ++ [x])
    (lap_step st {| Lap := Some (fst x); SessionTime := Some (snd x) |}).
Proof.
  intros Hadv Hok. destruct (advancing_snoc _ _ Hadv) as [_ Hbelow].
  rewrite Forall_forall in Hbelow.
  unfold closed_laps_ok. rewrite last_snoc.
  unfold closed_laps_ok in Hok.
  destruct (last seen) as [final|] eqn:Hlast.
  2:{ (* the first sample *)
    apply last_None in Hlast. subst seen st. cbn [app].
    unfold lap_step, initial_state. cbn [Lap SessionTime currentLap laps lapStartTime].
    destruct (fst x =? -1)%Z eqn:E; cbn [negb].
    - apply Z.eqb_eq in E. cbn [currentLap laps lapStartTime].
      split; [symmetry; exact E|]. split; [repeat constructor; lia|].
      split; [intros H; lia|]. split; [constructor|]. split; [constructor|].
      intros s [<-|[]] Hs. left. reflexivity.
    - change (0 <=? -1)%Z with false. cbn [currentLap laps lapStartTime].
      split; [reflexivity|]. split; [repeat constructor; lia|].
      split.
      { intros _. exists (snd x). split; [|apply LapSplitterFacts.or_zero_some].
        unfold first_time. simpl. rewrite Z.eqb_refl. reflexivity. }
      split; [constructor|]. split; [constructor|].
      intros s [<-|[]] Hs. left. reflexivity. }
  destruct Hok as (Hcur & Hle & Hstart & Hsorted & Hentries & Hall).
  assert (Hfinal : In final seen).
  { apply list_elem_of_In. apply last_Some_elem_of. exact Hlast. }
  destruct (Hbelow final (proj2 (list_elem_of_In _ _) Hfinal)) as [Hfx _].
  unfold lap_step. cbn [Lap SessionTime].
  destruct (fst x =? currentLap st)%Z eqn:E; cbn [negb].
  - (* same lap *)
    apply Z.eqb_eq in E. rewrite Hcur in E.
    split; [congruence|]. split.
    { apply Forall_app. split; [|repeat constructor; lia].
      eapply List.Forall_impl; [|exact Hle]. cbn. intros s Hs. lia. }
    split.
    { intros Hpos. destruct (Hstart Hpos) as (ts & Hts & Heq).
      exists ts. split; [apply first_time_app_some; exact Hts|exact Heq]. }
    split; [exact Hsorted|]. split.
    { eapply List.Forall_impl; [|exact Hentries]. cbn.
      intros e (Hrange & ta & tb & Hta & Htb & Hlt & Hv).
      split; [lia|]. exists ta, tb.
      split; [apply first_time_app_some; exact Hta|].
      split; [apply first_time_app_some; exact Htb|]. split; assumption. }
    intros s Hs Hpos. apply in_app_or in Hs. destruct Hs as [Hs|[<-|[]]].
    + destruct (Hall s Hs Hpos) as [H|H]; [left; congruence|right; exact H].
    + left. reflexivity.
  - (* a new lap *)
    apply Z.eqb_neq in E. rewrite Hcur in E.
    assert (Hup : (fst final < fst x)%Z) by lia.
    cbn [currentLap laps lapStartTime].
    split; [reflexivity|]. split.
    { apply Forall_app. split; [|repeat constructor; lia].
      eapply List.Forall_impl; [|exact Hle]. cbn. intros s Hs. lia. }
    split.
    { intros _. exists (snd x). split; [|apply LapSplitterFacts.or_zero_some].
      apply first_time_app_none; [|apply Z.eqb_refl].
      eapply List.Forall_impl; [|exact Hle]. cbn. intros s Hs.
      apply Z.eqb_neq. lia. }
    assert (Hkeep : Forall (fun e =>
                   (0 <= fst e < fst x)%Z
                   /\ exists ta tb,
                       first_time (Z.eqb (fst e)) (seen ++ [x]) = Some ta
                       /\ first_time (Z.ltb (fst e)) (seen ++ [x]) = Some tb
                       /\ (ta < tb)%Q
                       /\ (snd e == tb - ta)%Q) (laps st)).
    { eapply List.Forall_impl; [|exact Hentries]. cbn.
      intros e (Hrange & ta & tb & Hta & Htb & Hlt & Hv).
      split; [lia|]. exists ta, tb.
      split; [apply first_time_app_some; exact Hta|].
      split; [apply first_time_app_some; exact Htb|]. split; assumption. }
    destruct (0 <=? currentLap st)%Z eqn:Epos.
    + apply Z.leb_le in Epos.
      assert (Hfresh : ~ In (currentLap st) (map fst (laps st))).
      { intros Hin. apply in_map_iff in Hin. destruct Hin as (e & He & Hin).
        rewrite Forall_forall in Hentries.
        destruct (Hentries e (proj2 (list_elem_of_In _ _) Hin)) as [Hr _]. lia. }
      rewrite map_set_fresh by exact Hfresh. rewrite map_app. cbn [map fst].
      destruct (Hstart Epos) as (ts & Hts & Heq).
      destruct (first_time_in _ _ _ Hts) as (s0 & Hs0 & _ & Hs0t).
      destruct (Hbelow s0 (proj2 (list_elem_of_In _ _) Hs0)) as [_ Hs0lt].
      split.
      { apply sorted_app_intro; [|exact Hsorted|repeat constructor].
        intros k1 k2 Hk1 Hk2. apply list_elem_of_singleton in Hk2. subst k2.
        apply list_elem_of_In, in_map_iff in Hk1. destruct Hk1 as (e & He & Hin).
        rewrite Forall_forall in Hentries.
        destruct (Hentries e (proj2 (list_elem_of_In _ _) Hin)) as [Hr _]. lia. }
      split.
      { apply Forall_app. split; [exact Hkeep|]. constructor; [|constructor].
        cbn [fst snd]. split; [lia|]. exists ts, (snd x).
        split; [apply first_time_app_some; exact Hts|].
        split.
        { apply first_time_app_none.
          - eapply List.Forall_impl; [|exact Hle]. cbn. intros s Hs.
            apply Z.ltb_ge. lia.
          - apply Z.ltb_lt. lia. }
        split; [rewrite <- Hs0t; exact Hs0lt|]. rewrite Heq. reflexivity. }
      intros s Hs Hpos. apply in_app_or in Hs. destruct Hs as [Hs|[<-|[]]].
      * right. apply in_or_app.
        destruct (Hall s Hs Hpos) as [H|H]; [right; left; congruence|left; exact H].
      * left. reflexivity.
    + apply Z.leb_gt in Epos.
      split; [exact Hsorted|]. split; [exact Hkeep|].
      intros s Hs Hpos. apply in_app_or in Hs. destruct Hs as [Hs|[<-|[]]].
      * destruct (Hall s Hs Hpos) as [H|H]; [|right; exact H].
        rewrite Forall_forall in Hle.
        assert (Hfirst : (fst s <= fst final)%Z)
          by (apply Hle, list_elem_of_In; exact Hs).
        exfalso. lia.
      * left. reflexivity.
Qed.

Lemma closed_laps_ok_fold (stream : list (Z * Q)) :
  advancing stream ->
  closed_laps_ok stream (fold_left lap_step (samples_of stream) initial_state).
Proof.
  induction stream as [|x stream IH] using rev_ind; intros Hadv.
  - reflexivity.
  - unfold samples_of. rewrite map_app, fold_left_app. simpl.
    apply closed_laps_ok_step; [exact Hadv|].
    apply IH. apply (advancing_snoc _ _ Hadv).
Qed.

Lemma last_map {A B} (f : A -> B) (l : list A) :
  last (map f l) = option_map f (last l).
Proof.
  induction l as [|x l IH] using rev_ind; [reflexivity|].
  rewrite map_app. simpl. rewrite !last_snoc. reflexivity.
Qed.

Lemma advancing_take (n : nat) (stream : list (Z * Q)) :
  advancing stream -> advancing (take n stream).
Proof.
  intros H. rewrite <- (take_drop n stream) in H.
  eapply sorted_app_l. exact H.
Qed.

Lemma summary_laps_samples_of (stream : list (Z * Q)) :
  summary_laps (samples_of stream)
  = map (fun e => {| lapNumber := fst e; lapTime := snd e |})
        (laps (fold_left lap_step (samples_of (take 1000 stream)) initial_state)).
Proof.
  unfold summary_laps, sampleData, samples_of. rewrite List.firstn_map. reflexivity.
Qed.

(** X10.  On a stream in which every sample carries a lap index and a
    session time, the lap index never decreases and the session time
    strictly increases, the lap analysis of the Node script emits, among
    the first 1000 samples, exactly the non-negative lap indices other than
    the one the stream ends in (the lap still open is never emitted), in
    increasing order; and the time of each emitted lap is the session time
    of the first sample of a later lap minus the session time of the first
    sample of the lap itself, which is positive. *)
Theorem advancing_stream_closed_laps (stream : list (Z * Q))
  (Hadv : advancing stream) :
  let kept := take 1000 stream in
  let emitted := summary_laps (samples_of stream) in
  StronglySorted Z.lt (map lapNumber emitted)
  /\ (forall k, In k (map lapNumber emitted) <->
        (0 <= k)%Z /\ In k (map fst kept) /\ last (map fst kept) <> Some k)
  /\ Forall (fun r =>
       exists ta tb,
         first_time (Z.eqb (lapNumber r)) kept = Some ta
         /\ first_time (Z.ltb (lapNumber r)) kept = Some tb
         /\ (lapTime r == tb - ta)%Q
         /\ (0 < lapTime r)%Q) emitted.
Proof.
  cbv zeta. rewrite summary_laps_samples_of.
  pose proof (closed_laps_ok_fold (take 1000 stream) (advancing_take _ _ Hadv)) as Hok.
  set (kept := take 1000 stream) in *.
  set (st := fold_left lap_step (samples_of kept) initial_state) in *.
  rewrite map_map. cbn [lapNumber].
  unfold closed_laps_ok in Hok.
  destruct (last kept) as [final|] eqn:Hlast.
  2:{ rewrite Hok. apply last_None in Hlast. rewrite Hlast. cbn.
      split; [constructor|]. split; [|constructor].
      intros k. split; [intros []|intros (_ & [] & _)]. }
  destruct Hok as (Hcur & Hle & Hstart & Hsorted & Hentries & Hall).
  assert (Hlastk : last (map fst kept) = Some (fst final)).
  { rewrite last_map, Hlast. reflexivity. }
  split; [exact Hsorted|]. split.
  - intros k. rewrite Hlastk. split.
    + intros Hin. apply in_map_iff in Hin. destruct Hin as (e & <- & Hin).
      rewrite Forall_forall in Hentries.
      destruct (Hentries e (proj2 (list_elem_of_In _ _) Hin))
        as (Hr & ta & _ & Hta & _).
      split; [lia|]. split.
      * destruct (first_time_in _ _ _ Hta) as (s & Hs & Heq & _).
        apply Z.eqb_eq in Heq. rewrite Heq. apply in_map. exact Hs.
      * intros [= H]. lia.
    + intros (Hpos & Hin & Hne). apply in_map_iff in Hin.
      destruct Hin as (s & <- & Hs).
      destruct (Hall s Hs Hpos) as [H|H]; [|exact H].
      exfalso. apply Hne. rewrite H. reflexivity.
  - apply Forall_map. eapply List.Forall_impl; [|exact Hentries]. cbn.
    intros e (_ & ta & tb & Hta & Htb & Hlt & Hv).
    exists ta, tb. split; [exact Hta|]. split; [exact Htb|].
    split; [exact Hv|]. rewrite Hv. lra.
Qed.

Lemma advancing_stream_closed_laps_witness :
  advancing three_lap_stream
  /\ map lapNumber (summary_laps (samples_of three_lap_stream)) = [0; 1]%Z
  /\ Forall (fun r =>
       exists ta tb,
         first_time (Z.eqb (lapNumber r)) (take 1000 three_lap_stream) = Some ta
         /\ first_time (Z.ltb (lapNumber r)) (take 1000 three_lap_stream) = Some tb
         /\ (lapTime r == tb - ta)%Q
         /\ (0 < lapTime r)%Q) (summary_laps (samples_of three_lap_stream)).
Proof.
  assert (Hadv : advancing three_lap_stream).
  { unfold advancing, three_lap_stream.
    repeat (constructor; [|repeat (constructor; [cbn; split; [lia|reflexivity]|]); constructor]).
    constructor. }
  split; [exact Hadv|]. split; [reflexivity|].
  exact (proj2 (proj2 (advancing_stream_closed_laps three_lap_stream Hadv))).
Defined.

(** ** [extract_lap_analysis] *)

Lemma filter_positive_times (laps : list lap_record) :
  Forall (fun t => (0 < t)%Q)
         (map lapTime (List.filter (fun lap => Qlt_bool 0 (lapTime lap)) laps)).
Proof.
  apply Forall_map. apply Forall_forall. intros r Hr.
  apply list_elem_of_In, filter_In in Hr. destruct Hr as [_ Hr].
  apply MetricsFacts.Qlt_bool_iff in Hr. exact Hr.
Qed.

Lemma filter_all (laps : list lap_record) :
  Forall (fun r => (0 < lapTime r)%Q) laps ->
  List.filter (fun lap => Qlt_bool 0 (lapTime lap)) laps = laps.
Proof.
  induction 1 as [|r laps Hr Hall IH]; simpl; [reflexivity|].
  apply MetricsFacts.Qlt_bool_iff in Hr. rewrite Hr, IH. reflexivity.
Qed.

Lemma Qmax'_nonneg (q : Q) : (0 <= Qmax' 0 q)%Q.
Proof.
  unfold Qmax'. destruct (Qlt_bool 0 q) eqn:E; [|lra].
  apply MetricsFacts.Qlt_bool_iff in E. lra.
Qed.

(** X11.  For a non-empty list of laps, [extract_lap_analysis] counts
    every lap in [total_laps] but keeps only the positive lap times, in
    order; a lap whose time is zero or negative is counted and its time
    dropped.  With no positive lap time the fastest, slowest and average
    entries are [None]; otherwise all three are present, and the fastest
    and the slowest lap are lap times of the list that bound all of them
    (the average is a rounded quotient and is not bounded here).  The
    consistency rating is present exactly when there are at least two
    positive lap times, and it is never negative, whatever the standard
    deviation. *)
Theorem lap_analysis_statistics (stdev average : list Q -> Q) (laps : list lap_record)
  (Hne : laps <> []) :
  exists a,
    extract_lap_analysis stdev average (Some (Some laps)) = Laps a
    /\ total_laps a = length laps
    /\ length (lap_times a) <= total_laps a
    /\ Forall (fun t => (0 < t)%Q) (lap_times a)
    /\ (forall r, In r laps -> (0 < lapTime r)%Q -> In (lapTime r) (lap_times a))
    /\ (forall t, In t (lap_times a) -> In t (map lapTime laps))
    /\ match lap_times a with
       | [] => fastest_lap a = None /\ slowest_lap a = None
               /\ average_lap_time a = None
       | _ :: _ =>
           exists fastest slowest,
             fastest_lap a = Some fastest /\ slowest_lap a = Some slowest
             /\ average_lap_time a = Some (average (lap_times a))
             /\ In fastest (lap_times a) /\ In slowest (lap_times a)
             /\ Forall (fun t => (fastest <= t <= slowest)%Q) (lap_times a)
             /\ (0 < fastest)%Q
       end
    /\ (consistency_rating a <> None <-> 2 <= length (lap_times a))
    /\ (lap_time_std a <> None <-> 2 <= length (lap_times a))
    /\ (forall c, consistency_rating a = Some c -> (0 <= c)%Q).
Proof.
  destruct laps as [|r0 laps']; [congruence|].
  set (laps := r0 :: laps') in *.
  set (times := map lapTime (List.filter (fun lap => Qlt_bool 0 (lapTime lap)) laps)).
  eexists. split; [reflexivity|]. cbn [total_laps lap_times fastest_lap slowest_lap
    average_lap_time lap_time_std consistency_rating]. fold laps. fold times.
  pose proof (filter_positive_times laps) as Hpos. fold times in Hpos.
  split; [reflexivity|]. split.
  { unfold times. rewrite length_map. apply filter_length_le. }
  split; [exact Hpos|]. split.
  { intros r Hr Hlt. unfold times. apply in_map. apply filter_In.
    split; [exact Hr|]. apply MetricsFacts.Qlt_bool_iff. exact Hlt. }
  split.
  { intros t Ht. unfold times in Ht. apply in_map_iff in Ht.
    destruct Ht as (r & <- & Hr). apply filter_In in Hr. apply in_map. tauto. }
  split.
  { destruct times as [|t times'] eqn:Htimes; [tauto|].
    exists (min_from t times'), (max_from t times').
    cbn [min_or_none max_or_none].
    split; [reflexivity|]. split; [reflexivity|]. split; [reflexivity|].
    split; [apply SegmenterFacts.min_from_in|].
    split; [apply MetricsFacts.max_from_in|].
    assert (Hbounds : Forall (fun x => (min_from t times' <= x <= max_from t times')%Q)
                             (t :: times')).
    { apply Forall_forall. intros x Hx. apply list_elem_of_In in Hx. split.
      - apply MetricsFacts.min_from_le. exact Hx.
      - apply MetricsFacts.max_from_ge. exact Hx. }
    split; [exact Hbounds|].
    rewrite Forall_forall in Hpos. apply Hpos. apply list_elem_of_In.
    apply SegmenterFacts.min_from_in. }
  destruct (1 <? length times) eqn:E.
  - apply Nat.ltb_lt in E. split; [split; [lia|discriminate]|].
    split; [split; [lia|discriminate]|].
    intros c [= <-]. apply Qmax'_nonneg.
  - apply Nat.ltb_ge in E. split; [split; [congruence|lia]|].
    split; [split; [congruence|lia]|]. discriminate.
Qed.

Lemma lap_analysis_statistics_witness :
  laps_with_invalid_time <> []
  /\ exists a,
       extract_lap_analysis (fun _ => 0%Q) (fun _ => 89.75%Q)
         (Some (Some laps_with_invalid_time)) = Laps a
       /\ total_laps a = 3
       /\ lap_times a = [90.5; 89]%Q
       /\ (consistency_rating a <> None <-> 2 <= length (lap_times a)).
Proof.
  assert (Hne : laps_with_invalid_time <> []) by discriminate.
  split; [exact Hne|].
  destruct (lap_analysis_statistics (fun _ => 0%Q) (fun _ => 89.75%Q)
              laps_with_invalid_time Hne)
    as (a & Ha & Htotal & _ & _ & _ & _ & _ & Hrating & _).
  exists a. split; [exact Ha|]. split; [exact Htotal|].
  split; [|exact Hrating].
  injection Ha as <-. reflexivity.
Defined.

(** X12.  On a stream whose lap index never decreases and whose session
    time strictly increases, the lap analysis applied to the laps emitted
    by the lap splitter drops no lap: it reports no laps only when no lap
    was closed, and otherwise its lap times are the times of the emitted
    laps, in order, so that [total_laps] is the number of lap times. *)
Theorem advancing_stream_keeps_every_lap (stdev average : list Q -> Q)
  (stream : list (Z * Q)) (Hadv : advancing stream) :
  let emitted := summary_laps (samples_of stream) in
  match extract_lap_analysis stdev average (Some (Some emitted)) with
  | NoSummary => False
  | NoLaps => emitted = []
  | Laps a =>
      lap_times a = map lapTime emitted
      /\ total_laps a = length (lap_times a)
      /\ total_laps a = length emitted
  end.
Proof.
  cbv zeta.
  assert (Hpos : Forall (fun r => (0 < lapTime r)%Q) (summary_laps (samples_of stream))).
  { rewrite summary_laps_samples_of.
    pose proof (closed_laps_ok_fold (take 1000 stream) (advancing_take _ _ Hadv)) as Hok.
    unfold closed_laps_ok in Hok.
    destruct (last (take 1000 stream)) as [final|].
    2:{ rewrite Hok. constructor. }
    destruct Hok as (_ & _ & _ & _ & Hentries & _).
    apply Forall_map. eapply List.Forall_impl; [|exact Hentries]. cbn.
    intros e (_ & ta & tb & _ & _ & Hlt & Hv). rewrite Hv. lra. }
  destruct (summary_laps (samples_of stream)) as [|r emitted] eqn:E; [reflexivity|].
  cbn -[List.filter]. rewrite (filter_all _ Hpos).
  cbn. rewrite ?length_map. repeat split; reflexivity.
Qed.

Lemma advancing_stream_keeps_every_lap_witness :
  advancing three_lap_stream
  /\ match extract_lap_analysis (fun _ => 0%Q) (fun _ => 90.125%Q)
             (Some (Some (summary_laps (samples_of three_lap_stream)))) with
     | NoSummary => False
     | NoLaps => summary_laps (samples_of three_lap_stream) = []
     | Laps a =>
         lap_times a = map lapTime (summary_laps (samples_of three_lap_stream))
         /\ total_laps a = length (lap_times a)
         /\ total_laps a = length (summary_laps (samples_of three_lap_stream))
     end.
Proof.
  assert (Hadv : advancing three_lap_stream).
  { unfold advancing, three_lap_stream.
    repeat (constructor; [|repeat (constructor; [cbn; split; [lia|reflexivity]|]); constructor]).
    constructor. }
  split; [exact Hadv|].
  exact (advancing_stream_keeps_every_lap (fun _ => 0%Q) (fun _ => 90.125%Q)
           three_lap_stream Hadv).
Defined.

End LapAnalysisFacts.

(* ===================================================================== *)
(** * Facts: the chain of parsing methods and the world (real_ibt_parser.py) *)
(* ===================================================================== *)

Module DecodingFacts.
Import Py PyData Decoder Decoding Samples.

Section World.
Variable rt : runtime.
Variable w : world.

Lemma readable_dec (file_path : string) :
  readable w file_path
  \/ (fs w !! file_path = None
      \/ exists f, fs w !! file_path = Some f /\ content f = None).
Proof.
  unfold readable. destruct (fs w !! file_path) as [f|] eqn:Hf.
  - destruct (content f) as [bytes|] eqn:Hc.
    + left. exists f, bytes. split; [reflexivity|exact Hc].
    + right. right. exists f. split; [reflexivity|exact Hc].
  - right. left. reflexivity.
Qed.

Lemma unreadable_not_readable (file_path : string) :
  (fs w !! file_path = None
   \/ exists f, fs w !! file_path = Some f /\ content f = None) ->
  ~ readable w file_path.
Proof.
  intros [H|(f & Hf & Hc)] (f' & bytes & Hf' & Hc'); [congruence|].
  rewrite Hf in Hf'. injection Hf' as <-. congruence.
Qed.

(** The Node fallback returns the JSON object with its two tags
    overwritten, and nothing in every other case. *)
Lemma node_fallback_output (file_path : string) :
  _parse_with_node_fallback w file_path
  = Ok ((fun d => <["success" := PBool true]> (<["method" := PStr "node_js_parser"]> d))
          <$> node_output w file_path).
Proof.
  unfold _parse_with_node_fallback, node_output.
  destruct (node_script_exists w); cbn [negb]; [|reflexivity].
  destruct (node w file_path) as [e|returncode json_file]; [reflexivity|].
  destruct returncode as [|p|p]; cbn [Z.eqb]; try reflexivity.
  destruct json_file as [[data|e]|]; cbn [mbind result_bind bind try_except];
    try reflexivity.
  destruct data; reflexivity.
Qed.

Lemma tagged_reports_success (d : gmap string pyval) :
  reports_success
    (Some (<["success" := PBool true]> (<["method" := PStr "node_js_parser"]> d)))
  = true.
Proof.
  unfold reports_success, truthy, dict_get. rewrite lookup_insert_eq. cbn [default].
  rewrite andb_true_r. apply negb_true_iff, Nat.eqb_neq. intros Hsize.
  apply map_size_empty_iff in Hsize.
  apply (insert_non_empty _ _ _ Hsize).
Qed.

Lemma unreadable_chain (file_path : string) :
  ~ readable w file_path ->
  parse_ibt_file rt w file_path
  = (fun d => <["success" := PBool true]> (<["method" := PStr "node_js_parser"]> d))
      <$> node_output w file_path.
Proof.
  intros Hnot. destruct (readable_dec file_path) as [Hr|Hun]; [contradiction|].
  unfold parse_ibt_file, parser_methods.
  rewrite (DecoderFacts.try_methods_skip _ _ _ (DecoderFacts.irsdk_fails rt w file_path)).
  rewrite (DecoderFacts.try_methods_skip _ _ _
             (DecoderFacts.binary_analysis_unreadable rt w file_path Hun)).
  cbn [try_methods]. rewrite node_fallback_output.
  destruct (node_output w file_path) as [d|]; cbn [fmap option_fmap option_map];
    [|reflexivity].
  rewrite tagged_reports_success. reflexivity.
Qed.

Lemma readable_chain (file_path : string) :
  readable w file_path ->
  exists r, parse_ibt_file rt w file_path = Some r
            /\ provenance r = PStr "binary_analysis".
Proof.
  intros (f & bytes & Hf & Hc).
  destruct (DecoderFacts.binary_analysis_succeeds rt w file_path f bytes Hf Hc)
    as [r Hr].
  exists r. unfold parse_ibt_file, parser_methods.
  rewrite (DecoderFacts.try_methods_skip _ _ _ (DecoderFacts.irsdk_fails rt w file_path)).
  rewrite (DecoderFacts.try_methods_take _ _ _ _ Hr).
  split; [reflexivity|]. exact (DecoderFacts.succeeds_binary_tag rt w file_path r Hr).
Qed.

(** X13.  What [parse_ibt_file] returns is decided by the file system and
    the Node parser alone: a recording that can be opened for reading is
    always decoded by binary analysis, whatever the Node parser would do;
    a recording that cannot be opened is decoded exactly when the Node
    script is installed, exits with code 0 and leaves a JSON object, and
    then the result is that object, entry for entry, with its ["method"]
    and ["success"] entries overwritten.  So decoding fails exactly when
    the recording is unreadable and the Node parser leaves no object. *)
Theorem decode_outcome (file_path : string) :
  (parse_ibt_file rt w file_path = None
   <-> ~ readable w file_path /\ node_output w file_path = None)
  /\ (forall r,
        parse_ibt_file rt w file_path = Some r ->
        (readable w file_path /\ provenance r = PStr "binary_analysis")
        \/ (~ readable w file_path
            /\ provenance r = PStr "node_js_parser"
            /\ r !! "success" = Some (PBool true)
            /\ exists d,
                 node_output w file_path = Some d
                 /\ forall k, k <> "method" -> k <> "success" -> r !! k = d !! k)).
Proof.
  destruct (readable_dec file_path) as [Hr|Hun].
  - destruct (readable_chain file_path Hr) as (r & Hparse & Htag).
    split.
    + split; [rewrite Hparse; discriminate|]. intros [Hnot _]. contradiction.
    + intros r' Hr'. left. split; [exact Hr|]. congruence.
  - pose proof (unreadable_not_readable file_path Hun) as Hnot.
    rewrite (unreadable_chain file_path Hnot).
    destruct (node_output w file_path) as [d|]; cbn [fmap option_fmap option_map].
    + split.
      * split; [discriminate|]. intros [_ H]. discriminate H.
      * intros r [= <-]. right. split; [exact Hnot|].
        split.
        { unfold provenance, dict_get.
          rewrite lookup_insert_ne by congruence. rewrite lookup_insert_eq. reflexivity. }
        split; [apply lookup_insert_eq|].
        exists d. split; [reflexivity|]. intros k Hm Hs.
        rewrite lookup_insert_ne by congruence.
        rewrite lookup_insert_ne by congruence. reflexivity.
    + split; [split; [intros _; split; [exact Hnot|reflexivity]|reflexivity]|].
      intros r H. discriminate H.
Qed.

End World.

(** ** File names *)

Lemma contains_char_app (c : ascii) (a b : string) :
  contains_char c (a +:+ b) = contains_char c a || contains_char c b.
Proof.
  induction a as [|x a IH]; simpl; [reflexivity|].
  rewrite IH. apply orb_assoc.
Qed.

Lemma contains_char_concat (c : ascii) (words : list string) :
  contains_char c " " = false ->
  Forall (fun s => contains_char c s = false) words ->
  contains_char c (String.concat " " words) = false.
Proof.
  intros Hsep. induction 1 as [|x l Hx Hl IH]; [reflexivity|].
  destruct l as [|y l]; [exact Hx|].
  change (String.concat " " (x :: y :: l))
    with (x +:+ " " +:+ String.concat " " (y :: l)).
  rewrite !contains_char_app, Hx, Hsep, IH. reflexivity.
Qed.

Lemma prefix_other_char (c : ascii) (old s : string) (a : ascii) :
  Ascii.eqb c a = false -> String.prefix (String a old) (String c s) = false.
Proof.
  intros H. cbn [String.prefix]. destruct (ascii_dec a c) as [->|_]; [|reflexivity].
  rewrite Ascii.eqb_refl in H. discriminate H.
Qed.

(** Dropping the extension of a name without any other dot. *)
Lemma replace_extension (s : string) :
  contains_char "." s = false -> replace ".ibt" "" (s +:+ ".ibt") = s.
Proof.
  unfold replace. induction s as [|c s IH]; [reflexivity|].
  cbn [contains_char]. intros H. apply orb_false_iff in H. destruct H as [Hc Hs].
  change (String c s +:+ ".ibt") with (String c (s +:+ ".ibt")).
  cbn [replace_from]. rewrite (prefix_other_char c "ibt" (s +:+ ".ibt") "." Hc).
  rewrite (IH Hs). reflexivity.
Qed.

Lemma split_on_plain (sep : ascii) (s : string) :
  contains_char sep s = false -> split_on sep s = [s].
Proof.
  induction s as [|c s IH]; [reflexivity|].
  cbn [contains_char split_on]. intros H. apply orb_false_iff in H.
  destruct H as [Hc Hs]. rewrite Hc, (IH Hs). reflexivity.
Qed.

Lemma split_on_app (sep : ascii) (a b : string) :
  contains_char sep a = false ->
  split_on sep (a +:+ String sep b) = a :: split_on sep b.
Proof.
  induction a as [|c a IH].
  - intros _. change ("" +:+ String sep b) with (String sep b).
    cbn [split_on]. rewrite Ascii.eqb_refl. reflexivity.
  - cbn [contains_char]. intros H. apply orb_false_iff in H. destruct H as [Hc Ha].
    change (String c a +:+ String sep b) with (String c (a +:+ String sep b)).
    cbn [split_on]. rewrite Hc, (IH Ha). reflexivity.
Qed.

(** Splitting at the spaces gives back the words. *)
Lemma split_on_concat (words : list string) :
  words <> [] ->
  Forall (fun s => contains_char " " s = false) words ->
  split_on " " (String.concat " " words) = words.
Proof.
  intros Hne Hall. induction Hall as [|x l Hx Hl IH]; [congruence|].
  destruct l as [|y l]; [apply split_on_plain; exact Hx|].
  change (String.concat " " (x :: y :: l))
    with (x +:+ String " " (String.concat " " (y :: l))).
  rewrite (split_on_app _ _ _ Hx), IH by discriminate. reflexivity.
Qed.

Lemma split_first_app (sep : ascii) (a b : string) :
  contains_char sep a = false ->
  split_first sep (a +:+ String sep b) = (a, b).
Proof.
  induction a as [|c a IH].
  - intros _. change ("" +:+ String sep b) with (String sep b).
    cbn [split_first]. rewrite Ascii.eqb_refl. reflexivity.
  - cbn [contains_char]. intros H. apply orb_false_iff in H. destruct H as [Hc Ha].
    change (String c a +:+ String sep b) with (String c (a +:+ String sep b)).
    cbn [split_first]. rewrite Hc, (IH Ha). reflexivity.
Qed.

Lemma nth_two_last (first date time : string) (words : list string) :
  let parts := first :: words ++ [date; time] in
  (3 <=? length parts)%nat = true
  /\ nth (length parts - 2) parts EmptyString = date
  /\ nth (length parts - 1) parts EmptyString = time.
Proof.
  cbv zeta. cbn [length]. rewrite length_app. cbn [length].
  split; [apply Nat.leb_le; lia|].
  replace (S (length words + 2) - 2) with (S (length words)) by lia.
  replace (S (length words + 2) - 1) with (S (S (length words))) by lia.
  cbn [nth]. split.
  - rewrite app_nth2 by lia. rewrite Nat.sub_diag. reflexivity.
  - rewrite app_nth2 by lia.
    replace (S (length words) - length words) with 1 by lia. reflexivity.
Qed.

(** X16.  A file name that follows the naming convention
    ["<car>_<track> <words ...> <date> <time>.ibt"], where no part holds a
    space or a dot, the car holds no underscore and the date is ten
    characters with a dash, is parsed back into its parts: the car is the
    text before the first underscore, the track the text after it
    (further underscores included), the session date is the last word but
    one and the session time the last word with its dashes turned into
    colons, however many words stand in between; and nothing else is
    recorded. *)
Theorem file_name_is_parsed_back (car track date time : string)
  (words : list string)
  (Hcar : word car) (Hunder : contains_char "_" car = false)
  (Htrack : word track) (Hwords : Forall word words)
  (Hdate : word date) (Htime : word time)
  (Hdash : contains_char "-" date = true) (Hlen : String.length date = 10) :
  _parse_filename_info
    (file_name_of ((car +:+ "_" +:+ track) :: words ++ [date; time]))
  = <["session_time" := PStr (replace "-" ":" time)]>
      (<["session_date" := PStr date]>
         (<["track" := PStr track]> (<["car" := PStr car]> ∅))).
Proof.
  assert (Hfirst : word (car +:+ "_" +:+ track)).
  { destruct Hcar as [Hc1 Hc2], Htrack as [Ht1 Ht2].
    split; rewrite !contains_char_app; [rewrite Hc1, Ht1|rewrite Hc2, Ht2];
      reflexivity. }
  assert (Hall : Forall word ((car +:+ "_" +:+ track) :: words ++ [date; time])).
  { constructor; [exact Hfirst|]. apply Forall_app. split; [exact Hwords|].
    constructor; [exact Hdate|]. constructor; [exact Htime|constructor]. }
  unfold _parse_filename_info, file_name_of.
  rewrite replace_extension.
  2:{ apply contains_char_concat; [reflexivity|].
      eapply List.Forall_impl; [|exact Hall]. intros s [_ H]. exact H. }
  rewrite split_on_concat.
  2:{ discriminate. }
  2:{ eapply List.Forall_impl; [|exact Hall]. intros s [H _]. exact H. }
  cbv zeta.
  destruct (nth_two_last (car +:+ "_" +:+ track) date time words)
    as (Hthree & Hnth2 & Hnth1).
  cbv zeta in Hthree, Hnth2, Hnth1. rewrite Hthree, Hnth2, Hnth1.
  rewrite Hdash, Hlen. cbn [andb Nat.eqb].
  change (car +:+ "_" +:+ track) with (car +:+ String "_" track).
  rewrite contains_char_app. cbn [contains_char]. rewrite Ascii.eqb_refl.
  rewrite orb_true_r. rewrite (split_first_app _ _ _ Hunder). reflexivity.
Qed.

Lemma file_name_is_parsed_back_witness :
  _parse_filename_info "porsche992cup_roadatlanta full 2025-09-13 13-27-17.ibt"
  = <["session_time" := PStr "13:27:17"]>
      (<["session_date" := PStr "2025-09-13"]>
         (<["track" := PStr "roadatlanta"]> (<["car" := PStr "porsche992cup"]> ∅))).
Proof.
  exact (file_name_is_parsed_back "porsche992cup" "roadatlanta" "2025-09-13"
           "13-27-17" ["full"]
           (conj eq_refl eq_refl) eq_refl (conj eq_refl eq_refl)
           (@List.Forall_cons string word "full" [] (conj eq_refl eq_refl)
              (@List.Forall_nil string word))
           (conj eq_refl eq_refl) (conj eq_refl eq_refl) eq_refl eq_refl).
Defined.

(** ** The generated lap times *)

Import Lqa.

Lemma Qlt_bool_comp (a a' b b' : Q) :
  (a == a')%Q -> (b == b')%Q -> Qlt_bool a b = Qlt_bool a' b'.
Proof.
  intros Ha Hb. destruct (Qlt_bool a b) eqn:E; symmetry.
  - apply MetricsFacts.Qlt_bool_iff in E. apply MetricsFacts.Qlt_bool_iff. lra.
  - apply MetricsFacts.Qlt_bool_false_iff in E. apply MetricsFacts.Qlt_bool_false_iff. lra.
Qed.

Lemma round_half_even_exact (q : Q) (z : Z) :
  (q == inject_Z z)%Q -> round_half_even q = z.
Proof.
  intros H.
  assert (Hf : Qfloor q = z) by (rewrite H; apply Qfloor_Z).
  unfold round_half_even. cbv zeta. rewrite Hf.
  assert (Hlt : Qlt_bool (q - inject_Z z) (1 # 2) = true)
    by (apply MetricsFacts.Qlt_bool_iff; lra).
  rewrite Hlt. reflexivity.
Qed.

(** On rationals, rounding to three decimals changes no multiple of
    0.001. *)
Lemma round3_exact (q : Q) (z : Z) : (q * 1000 == inject_Z z)%Q -> (round3 q == q)%Q.
Proof.
  intros H. unfold round3. rewrite (round_half_even_exact _ _ H). rewrite <- H. field.
Qed.

Section Estimates.
Variable rt : runtime.

(** The offset of lap [i] before the hash is added. *)
#[warnings="-notation-for-abbreviation"]
Local Notation hash_part i :=
  (inject_Z (py_hash rt (str_int (Z.of_nat i)) mod 100) / 100)%Q.

Lemma generated_lap_time_exact (b : Z) (i : nat) :
  (generated_lap_time rt (inject_Z b) i
   == inject_Z b
      + (if (i <? 5)%nat then -2 + inject_Z (Z.of_nat i) * 0.1
         else -1 + inject_Z (Z.of_nat i) * 0.05)
      + hash_part i)%Q.
Proof.
  unfold generated_lap_time. cbv zeta.
  set (hm := (py_hash rt (str_int (Z.of_nat i)) mod 100)%Z).
  set (fi := Z.of_nat i).
  destruct (i <? 5)%nat.
  - rewrite (round3_exact _ (1000 * b + (-2000 + 100 * fi) + 10 * hm)%Z).
    + ring.
    + rewrite !inject_Z_plus, !inject_Z_mult.
      change (inject_Z 1000) with 1000%Q. change (inject_Z (-2000)) with (-2000)%Q.
      change (inject_Z 100) with 100%Q. change (inject_Z 10) with 10%Q. field.
  - rewrite (round3_exact _ (1000 * b + (-1000 + 50 * fi) + 10 * hm)%Z).
    + ring.
    + rewrite !inject_Z_plus, !inject_Z_mult.
      change (inject_Z 1000) with 1000%Q. change (inject_Z (-1000)) with (-1000)%Q.
      change (inject_Z 50) with 50%Q. change (inject_Z 10) with 10%Q. field.
Qed.

Lemma hash_part_bounds (i : nat) : (0 <= hash_part i <= 0.99)%Q.
Proof.
  pose proof (Z.mod_pos_bound (py_hash rt (str_int (Z.of_nat i))) 100 eq_refl) as [Hlo Hhi].
  set (hm := (py_hash rt (str_int (Z.of_nat i)) mod 100)%Z) in *.
  assert (H0 : (inject_Z 0 <= inject_Z hm)%Q) by (rewrite <- Zle_Qle; exact Hlo).
  assert (H1 : (inject_Z hm <= inject_Z 99)%Q) by (rewrite <- Zle_Qle; lia).
  change (inject_Z 0) with 0%Q in H0. change (inject_Z 99) with 99%Q in H1.
  split.
  - apply Qle_shift_div_l; lra.
  - apply Qle_shift_div_r; lra.
Qed.

(** On rationals, every generated lap time lies in a band of 0.99 s that
    starts 2 s below the base time and moves up with the lap index. *)
Lemma generated_lap_time_band (b : Z) (i : nat) :
  let t := generated_lap_time rt (inject_Z b) i in
  let fi := inject_Z (Z.of_nat i) in
  (inject_Z b - 2 <= t)%Q
  /\ (i < 5 -> (inject_Z b - 2 + 0.1 * fi <= t <= inject_Z b - 1.01 + 0.1 * fi)%Q)
  /\ (5 <= i -> (inject_Z b - 1 + 0.05 * fi <= t <= inject_Z b - 0.01 + 0.05 * fi)%Q).
Proof.
  cbv zeta. pose proof (generated_lap_time_exact b i) as He.
  pose proof (hash_part_bounds i) as [Hlo Hhi].
  set (h := hash_part i) in *.
  assert (Hi0 : (0 <= inject_Z (Z.of_nat i))%Q).
  { change 0%Q with (inject_Z 0). rewrite <- Zle_Qle. lia. }
  destruct (i <? 5)%nat eqn:E.
  - apply Nat.ltb_lt in E. split; [lra|]. split; [intros _; lra|lia].
  - apply Nat.ltb_ge in E.
    assert (Hi5 : (5 <= inject_Z (Z.of_nat i))%Q).
    { change 5%Q with (inject_Z 5). rewrite <- Zle_Qle. lia. }
    split; [lra|]. split; [lia|intros _; lra].
Qed.

Lemma find_base_time_cases (filename : string) :
  exists b, find_base_time filename track_times = inject_Z b /\ (45 <= b <= 115)%Z.
Proof.
  unfold track_times. cbn [find_base_time].
  repeat match goal with
         | |- context [if ?c then _ else _] =>
             destruct c; [eexists; split; [reflexivity|lia]|]
         end.
  exists 90%Z. split; [reflexivity|lia].
Qed.

Lemma lookup_map_seq {A} (g : nat -> A) (n : nat) :
  forall a i t, map g (seq a n) !! i = Some t -> t = g (a + i) /\ i < n.
Proof.
  induction n as [|n IH]; intros a i t; simpl; [discriminate|].
  destruct i as [|i]; simpl.
  - intros [= <-]. rewrite Nat.add_0_r. split; [reflexivity|lia].
  - intros H. destruct (IH _ _ _ H) as [-> Hi].
    split; [f_equal; lia|lia].
Qed.

Ltac lookup_dict :=
  unfold dict_of; cbn [list_to_map foldr uncurry fst snd];
  repeat (rewrite lookup_insert_ne by congruence);
  rewrite ?lookup_insert_eq.

(** With a positive duration the generator returns the track-based
    dictionary built from its list of lap times, which is not empty. *)
Lemma generated_laps_dictionary (file_path : string) (duration : Q) :
  (0 < duration)%Q ->
  let base := find_base_time (lower (basename file_path)) track_times in
  let n := Z.to_nat (Z.max 1 (int_of_float (duration / base))) in
  let times := map (generated_lap_time rt base) (seq 0 n) in
  let d := _generate_realistic_lap_times rt file_path duration in
  1 <= n
  /\ d !! "estimation_method" = Some (PStr "track_based_realistic")
  /\ d !! "lap_times" = Some (PList (map PFloat times))
  /\ d !! "total_laps" = Some (PInt (Z.of_nat (length times)))
  /\ exists t0 ts, times = t0 :: ts
                   /\ d !! "fastest_lap" = Some (PFloat (min_from t0 ts)).
Proof.
  intros Hpos. cbv zeta. unfold _generate_realistic_lap_times. cbv zeta.
  apply MetricsFacts.Qlt_bool_iff in Hpos. rewrite Hpos.
  set (base := find_base_time (lower (basename file_path)) track_times).
  set (n := Z.to_nat (Z.max 1 (int_of_float (duration / base)))).
  assert (Hn : 1 <= n) by (unfold n; lia).
  split; [exact Hn|].
  destruct n as [|n']; [lia|].
  cbn [seq map].
  split; [lookup_dict; reflexivity|].
  split; [lookup_dict; reflexivity|].
  split; [lookup_dict; reflexivity|].
  eexists _, _. split; [reflexivity|]. lookup_dict. reflexivity.
Qed.

Lemma generated_laps_failed (file_path : string) (duration : Q) :
  (duration <= 0)%Q ->
  let d := _generate_realistic_lap_times rt file_path duration in
  d !! "estimation_method" = Some (PStr "failed")
  /\ d !! "lap_times" = Some (PList [])
  /\ d !! "total_laps" = Some (PInt 0)
  /\ d !! "fastest_lap" = Some PNone.
Proof.
  intros Hneg. cbv zeta. unfold _generate_realistic_lap_times. cbv zeta.
  apply MetricsFacts.Qlt_bool_false_iff in Hneg. rewrite Hneg.
  repeat split; lookup_dict; reflexivity.
Qed.

(** X14.  For every positive duration the lap-time generator returns a
    track-based estimate with at least one lap: the number of laps is
    [max(1, int(duration / base))] for a base time between 45 and 115 s
    chosen by the track in the file name; whatever the string hash of the
    interpreter, lap [i] lies within a millisecond of a band of 0.99 s,
    which starts at [base - 2 + 0.1 i] for the first five laps and at
    [base - 1 + 0.05 i] for the later ones (the millisecond leaves room
    for the rounding of the float arithmetic and of [round(., 3)]), so
    every lap time is positive and no lap is faster than [base - 2]; and
    the fastest lap reported is one of the lap times and lies between
    [base - 2] and [base - 1.009]. *)
Theorem generated_laps_stay_in_band (file_path : string) (duration : Q)
  (Hpos : (0 < duration)%Q) :
  let base := find_base_time (lower (basename file_path)) track_times in
  let d := _generate_realistic_lap_times rt file_path duration in
  exists times fastest,
    d !! "estimation_method" = Some (PStr "track_based_realistic")
    /\ d !! "lap_times" = Some (PList (map PFloat times))
    /\ d !! "total_laps" = Some (PInt (Z.of_nat (length times)))
    /\ d !! "fastest_lap" = Some (PFloat fastest)
    /\ Z.of_nat (length times) = Z.max 1 (int_of_float (duration / base))
    /\ (45 <= base <= 115)%Q
    /\ In fastest times
    /\ (base - 2 <= fastest <= base - 1.009)%Q
    /\ forall i t, times !! i = Some t ->
         let fi := inject_Z (Z.of_nat i) in
         (0 < t)%Q /\ (base - 2 <= t)%Q
         /\ (i < 5 ->
             (base - 2.001 + 0.1 * fi <= t <= base - 1.009 + 0.1 * fi)%Q)
         /\ (5 <= i ->
             (base - 1.001 + 0.05 * fi <= t <= base - 0.009 + 0.05 * fi)%Q).
Proof.
  cbv zeta.
  destruct (generated_laps_dictionary file_path duration Hpos)
    as (Hn & Hmethod & Htimes & Htotal & t0 & ts & Hcons & Hfast).
  destruct (find_base_time_cases (lower (basename file_path))) as (b & Hb & Hrange).
  set (base := find_base_time (lower (basename file_path)) track_times) in *.
  set (n := Z.to_nat (Z.max 1 (int_of_float (duration / base)))) in *.
  set (times := map (generated_lap_time rt base) (seq 0 n)) in *.
  assert (Hb45 : (45 <= base)%Q).
  { rewrite Hb. change 45%Q with (inject_Z 45). rewrite <- Zle_Qle. lia. }
  assert (Hb115 : (base <= 115)%Q).
  { rewrite Hb. change 115%Q with (inject_Z 115). rewrite <- Zle_Qle. lia. }
  assert (Hband : forall i t, times !! i = Some t ->
             let fi := inject_Z (Z.of_nat i) in
             (0 < t)%Q /\ (base - 2 <= t)%Q
             /\ (i < 5 -> (base - 2 + 0.1 * fi <= t <= base - 1.01 + 0.1 * fi)%Q)
             /\ (5 <= i -> (base - 1 + 0.05 * fi <= t <= base - 0.01 + 0.05 * fi)%Q)).
  { intros i t Hi. apply lookup_map_seq in Hi. destruct Hi as [-> _].
    cbn [Nat.add]. cbv zeta.
    pose proof (generated_lap_time_band b i) as Hg. cbv zeta in Hg.
    rewrite <- Hb in Hg. destruct Hg as (H1 & H2 & H3).
    split; [lra|]. split; [exact H1|]. split; assumption. }
  assert (Hslack : forall i t, times !! i = Some t ->
             let fi := inject_Z (Z.of_nat i) in
             (0 < t)%Q /\ (base - 2 <= t)%Q
             /\ (i < 5 ->
                 (base - 2.001 + 0.1 * fi <= t <= base - 1.009 + 0.1 * fi)%Q)
             /\ (5 <= i ->
                 (base - 1.001 + 0.05 * fi <= t <= base - 0.009 + 0.05 * fi)%Q)).
  { intros i t Hi. cbv zeta. destruct (Hband i t Hi) as (H0 & H1 & H2 & H3).
    cbv zeta in H2, H3.
    split; [exact H0|]. split; [exact H1|].
    split; intros Hi5; [specialize (H2 Hi5)|specialize (H3 Hi5)]; lra. }
  exists times, (min_from t0 ts).
  split; [exact Hmethod|]. split; [exact Htimes|]. split; [exact Htotal|].
  split; [exact Hfast|]. split.
  { unfold times. rewrite length_map, length_seq. unfold n. lia. }
  split; [split; assumption|].
  assert (Hin : In (min_from t0 ts) times)
    by (rewrite Hcons; apply SegmenterFacts.min_from_in).
  split; [exact Hin|]. split; [|exact Hslack].
  split.
  - apply list_elem_of_In, list_elem_of_lookup in Hin. destruct Hin as [i Hi].
    destruct (Hband i _ Hi) as (_ & H & _). exact H.
  - assert (H0 : times !! 0 = Some t0) by (rewrite Hcons; reflexivity).
    destruct (Hband 0 t0 H0) as (_ & _ & H & _).
    specialize (H ltac:(lia)). change (inject_Z (Z.of_nat 0)) with 0%Q in H.
    pose proof (MetricsFacts.min_from_le ts t0 t0 (or_introl eq_refl)) as Hle.
    lra.
Qed.

End Estimates.

(** ** The estimate attached by binary analysis *)

Section FileSize.
Variable rt : runtime.
Variable w : world.

Lemma binary_analysis_lap_analysis (file_path : string) (f : file) (bytes : string) :
  fs w !! file_path = Some f -> content f = Some bytes ->
  exists r,
    succeeds (_parse_with_binary_analysis rt w) file_path r
    /\ r !! "lap_analysis"
       = Some (PDict (_generate_realistic_lap_times rt file_path
                        (inject_Z ((st_size f - 10000) / 400) / 60))).
Proof.
  intros Hf Hc.
  destruct (DecoderFacts.binary_analysis_succeeds rt w file_path f bytes Hf Hc)
    as [r Hr].
  exists r. split; [exact Hr|]. destruct Hr as [Hr _]. revert Hr.
  unfold _parse_with_binary_analysis, _estimate_telemetry_data, open_read, getsize.
  rewrite Hf, Hc. cbn [mbind result_bind bind try_except].
  rewrite DecoderFacts.session_info_truthy, DecoderFacts.dict_of_cons_truthy.
  intros [= <-]. unfold dict_update at 1. rewrite lookup_union.
  rewrite lookup_insert_ne by congruence. rewrite lookup_insert_eq.
  destruct (_ !! "lap_analysis"); reflexivity.
Qed.

(** X15.  A recording that can be opened is always decoded with
    ['success': True], but what its lap analysis holds depends on the file
    size alone: below 10400 bytes (an empty file included) the estimate is
    tagged ["failed"] with no laps and no fastest lap; from 10400 bytes on
    it is track based with at least one lap. *)
Theorem lap_estimate_depends_on_file_size (file_path : string) (f : file)
  (bytes : string)
  (Hf : fs w !! file_path = Some f) (Hc : content f = Some bytes) :
  exists r la,
    parse_ibt_file rt w file_path = Some r
    /\ r !! "success" = Some (PBool true)
    /\ r !! "lap_analysis" = Some (PDict la)
    /\ ((st_size f < 10400)%Z ->
        la !! "estimation_method" = Some (PStr "failed")
        /\ la !! "lap_times" = Some (PList [])
        /\ la !! "total_laps" = Some (PInt 0)
        /\ la !! "fastest_lap" = Some PNone)
    /\ ((10400 <= st_size f)%Z ->
        la !! "estimation_method" = Some (PStr "track_based_realistic")
        /\ exists times,
             la !! "lap_times" = Some (PList (map PFloat times))
             /\ la !! "total_laps" = Some (PInt (Z.of_nat (length times)))
             /\ 1 <= length times).
Proof.
  destruct (binary_analysis_lap_analysis file_path f bytes Hf Hc) as (r & Hr & Hla).
  exists r, (_generate_realistic_lap_times rt file_path
               (inject_Z ((st_size f - 10000) / 400) / 60)).
  split.
  { unfold parse_ibt_file, parser_methods.
    rewrite (DecoderFacts.try_methods_skip _ _ _ (DecoderFacts.irsdk_fails rt w file_path)).
    apply DecoderFacts.try_methods_take. exact Hr. }
  split.
  { destruct Hr as [Hr _].
    exact (proj2 (DecoderFacts.binary_analysis_result rt w file_path r Hr)). }
  split; [exact Hla|]. split.
  - intros Hsmall. apply generated_laps_failed.
    assert (Hq : ((st_size f - 10000) / 400 < 1)%Z)
      by (apply Z.div_lt_upper_bound; lia).
    assert (Hle : (inject_Z ((st_size f - 10000) / 400) <= inject_Z 0)%Q)
      by (rewrite <- Zle_Qle; lia).
    change (inject_Z 0) with 0%Q in Hle.
    apply Qle_shift_div_r; lra.
  - intros Hbig.
    assert (Hq : (1 <= (st_size f - 10000) / 400)%Z)
      by (apply Z.div_le_lower_bound; lia).
    assert (Hle : (inject_Z 1 <= inject_Z ((st_size f - 10000) / 400))%Q)
      by (rewrite <- Zle_Qle; exact Hq).
    change (inject_Z 1) with 1%Q in Hle.
    assert (Hpos : (0 < inject_Z ((st_size f - 10000) / 400) / 60)%Q)
      by (apply Qlt_shift_div_l; lra).
    destruct (generated_laps_dictionary rt file_path _ Hpos)
      as (Hn & Hmethod & Htimes & Htotal & _).
    split; [exact Hmethod|]. eexists. split; [exact Htimes|].
    split; [exact Htotal|]. rewrite length_map, length_seq. exact Hn.
Qed.

End FileSize.

Lemma lap_estimate_depends_on_file_size_witness :
  exists r la,
    parse_ibt_file sample_runtime sample_world "/telemetry/empty.ibt" = Some r
    /\ r !! "success" = Some (PBool true)
    /\ r !! "lap_analysis" = Some (PDict la)
    /\ la !! "estimation_method" = Some (PStr "failed")
    /\ la !! "total_laps" = Some (PInt 0).
Proof.
  destruct (lap_estimate_depends_on_file_size sample_runtime sample_world
              "/telemetry/empty.ibt" (mkFile 1757770100 0 (Some "")) ""
              eq_refl eq_refl)
    as (r & la & Hparse & Hsuccess & Hla & Hsmall & _).
  exists r, la. split; [exact Hparse|]. split; [exact Hsuccess|].
  split; [exact Hla|].
  destruct (Hsmall ltac:(cbn; lia)) as (Hmethod & _ & Htotal & _).
  split; assumption.
Defined.

Lemma generated_laps_stay_in_band_witness :
  (0 < 1000)%Q
  /\ exists times fastest,
       _generate_realistic_lap_times sample_runtime recording_path 1000 !! "lap_times"
       = Some (PList (map PFloat times))
       /\ Z.of_nat (length times) = 11%Z
       /\ In fastest times
       /\ (88 <= fastest <= 88.991)%Q.
Proof.
  split; [reflexivity|].
  destruct (generated_laps_stay_in_band sample_runtime recording_path 1000 eq_refl)
    as (times & fastest & _ & Htimes & _ & _ & Hlen & _ & Hin & Hfast & _).
  exists times, fastest. split; [exact Htimes|]. split; [exact Hlen|].
  split; [exact Hin|exact Hfast].
Defined.

End DecodingFacts.

(* ===================================================================== *)
(** * Facts: the monitor and the processor (file_monitor.py)                *)
(* ===================================================================== *)

Module MonitorFacts.
Import Py PyData Decoder Processor Decoding Monitor Samples.

Section ProcessNewFile.
Variable rt : runtime.
Variable session_info_of : gmap string pyval -> result pyval.
Variable lap_analysis_of : gmap string pyval -> result pyval.
Variable insights_of : pyval -> pyval -> gmap string pyval -> result pyval.
Variable analyzer : gmap string pyval -> result pyval.

#[warnings="-notation-for-abbreviation"]
Local Notation process :=
  (process_telemetry_file rt session_info_of lap_analysis_of insights_of analyzer).
#[warnings="-notation-for-abbreviation"]
Local Notation process_new :=
  (_process_new_file rt session_info_of lap_analysis_of insights_of analyzer).

(** A call of the processor either returns a result whose id is a hash
    that was not in the set and is added to it, or returns no result and
    leaves the set as it is. *)
Lemma process_outcome (w : world) (processed : gset string) (file_path : string) :
  (exists d h,
      process w processed file_path = (Ok (Some d), {[h]} ∪ processed)
      /\ (h ∉ processed) /\ d !! "id" = Some (PStr h))
  \/ (exists out,
        process w processed file_path = (out, processed)
        /\ forall d, out <> Ok (Some d)).
Proof.
  unfold process_telemetry_file.
  destruct (_get_file_hash rt w file_path) as [h|e].
  2:{ right. eexists. split; [reflexivity|]. discriminate. }
  destruct (decide (h ∈ processed)) as [Hin|Hnew].
  { right. eexists. split; [reflexivity|]. discriminate. }
  destruct (process_body rt session_info_of lap_analysis_of insights_of analyzer
              w h file_path) as [[d|]|e] eqn:Hbody.
  - left. exists d, h. split; [reflexivity|]. split; [exact Hnew|].
    exact (ProcessorFacts.process_body_id rt _ _ _ _ w h file_path d Hbody).
  - right. eexists. split; [reflexivity|]. discriminate.
  - right. eexists. split; [reflexivity|]. discriminate.
Qed.

Lemma result_with_id_is_result (d : gmap string pyval) (h : string) :
  d !! "id" = Some (PStr h) -> is_result (Some d) = true.
Proof.
  intros Hid. unfold is_result, truthy. apply negb_true_iff, Nat.eqb_neq.
  intros Hsize. apply map_size_empty_iff in Hsize. rewrite Hsize in Hid.
  rewrite lookup_empty in Hid. discriminate Hid.
Qed.

(** The monitor's processor keeps what the call of the processor
    recorded. *)
Lemma process_new_file_records (w : world) (m : monitor) (file_path : string) :
  processed_files (snd (process_new w m file_path))
  = snd (process w (processed_files m) file_path).
Proof.
  unfold _process_new_file.
  destruct (process w (processed_files m) file_path) as [[[d|]|e] processed];
    [|reflexivity|reflexivity].
  destruct (is_result (Some d)); [|reflexivity].
  destruct (summary_of rt file_path d); reflexivity.
Qed.

(** X17.  One call of [_process_new_file], run from its start to its end
    without another call in between (the code takes no lock; calls that
    overlap on timer threads are outside this statement), whatever the
    world and whatever the helpers of the processor do.  Either the
    processor records nothing, and then the call hands nothing back and
    leaves the counter and the last-file summary as they were; or the
    processor records exactly one hash that it had not recorded, and then
    the counter goes up by exactly one and the call hands back either
    nothing (the summary could not be built: the recording is counted but
    not handed on) or the result whose id is that hash.  So the counter
    stays equal to the number of recorded hashes when it was, and a result
    is handed back only for a hash not recorded before. *)
Theorem monitor_call_counts_new_hash (w : world) (m : monitor) (file_path : string) :
  let out := fst (process_new w m file_path) in
  let m' := snd (process_new w m file_path) in
  ((out = None /\ m' = m)
   \/ (exists h,
         (h ∉ processed_files m)
         /\ processed_files m' = {[h]} ∪ processed_files m
         /\ files_processed m' = S (files_processed m)
         /\ ((out = None /\ last_processed_file m' = last_processed_file m)
             \/ (exists d summary,
                   out = Some d /\ d !! "id" = Some (PStr h)
                   /\ summary_of rt file_path d = Ok summary
                   /\ last_processed_file m' = Some summary))))
  /\ processed_files m ⊆ processed_files m'
  /\ (files_processed m = size (processed_files m) ->
      files_processed m' = size (processed_files m'))
  /\ (forall d, out = Some d ->
        exists h, d !! "id" = Some (PStr h)
                  /\ (h ∉ processed_files m) /\ (h ∈ processed_files m')).
Proof.
  cbv zeta. unfold _process_new_file.
  destruct (process_outcome w (processed_files m) file_path)
    as [(d & h & -> & Hnew & Hid)|(out & -> & Hnone)].
  - rewrite (result_with_id_is_result d h Hid).
    assert (Hsize : size ({[h]} ∪ processed_files m) = S (size (processed_files m))).
    { rewrite size_union by set_solver. rewrite size_singleton. reflexivity. }
    destruct (summary_of rt file_path d) as [summary|e] eqn:Hsummary;
      cbn [fst snd processed_files files_processed last_processed_file].
    + split.
      { right. exists h. split; [exact Hnew|]. split; [reflexivity|].
        split; [reflexivity|]. right. exists d, summary.
        split; [reflexivity|]. split; [exact Hid|].
        split; [exact Hsummary|reflexivity]. }
      split; [set_solver|]. split; [intros Hinv; rewrite Hsize, Hinv; reflexivity|].
      intros d' [= <-]. exists h.
      split; [exact Hid|]. split; [exact Hnew|set_solver].
    + split.
      { right. exists h. split; [exact Hnew|]. split; [reflexivity|].
        split; [reflexivity|]. left. split; reflexivity. }
      split; [set_solver|]. split; [intros Hinv; rewrite Hsize, Hinv; reflexivity|].
      intros d' H. discriminate H.
  - destruct m as [processed count last_file].
    cbn [processed_files files_processed last_processed_file] in *.
    destruct out as [[d|]|e]; [exfalso; exact (Hnone d eq_refl)| |];
      cbn [fst snd processed_files files_processed last_processed_file];
      (split; [left; split; reflexivity|]; split; [set_solver|];
       split; [intros Hinv; exact Hinv|]; intros d' H; discriminate H).
Qed.

(** X18.  [_process_new_file] turns the errors that leave the processor
    before its own [try] block into a plain [None]: the
    [FileNotFoundError] of [stat] on a path that does not exist and the
    [UnicodeEncodeError] of [encode] on a file whose path cannot be
    encoded are caught, nothing is counted and nothing is recorded.  So a
    path that was missing is processed when it shows up later as a
    readable file, provided that its hash input can be encoded, that this
    version of the file was not processed before and that the helpers of
    the processor return. *)
Theorem monitor_absorbs_missing_path (w w' : world) (m : monitor)
  (file_path : string) (f : file) (bytes : string)
  (Hmissing : fs w !! file_path = None)
  (Hf : fs w' !! file_path = Some f) (Hc : content f = Some bytes)
  (Henc : is_Some (str_encode rt (hash_input rt file_path f)))
  (Hnew : forall h, _get_file_hash rt w' file_path = Ok h -> h ∉ processed_files m)
  (Hsi : forall raw, returns (session_info_of raw))
  (Hla : forall raw, returns (lap_analysis_of raw))
  (Hins : forall si la raw, returns (insights_of si la raw)) :
  process w (processed_files m) file_path
  = (Raise FileNotFoundError, processed_files m)
  /\ process_new w m file_path = (None, m)
  /\ (forall w0 path0 f0,
        fs w0 !! path0 = Some f0 ->
        str_encode rt (hash_input rt path0 f0) = None ->
        process w0 (processed_files m) path0
        = (Raise UnicodeEncodeError, processed_files m)
        /\ process_new w0 m path0 = (None, m))
  /\ exists d h,
       _get_file_hash rt w' file_path = Ok h
       /\ process w' (processed_files (snd (process_new w m file_path))) file_path
          = (Ok (Some d), {[h]} ∪ processed_files m)
       /\ d !! "id" = Some (PStr h).
Proof.
  pose proof (ProcessorFacts.missing_path_stat_error rt session_info_of
                lap_analysis_of insights_of analyzer w (processed_files m)
                file_path Hmissing) as Hraise.
  assert (Hnone : process_new w m file_path = (None, m)).
  { unfold _process_new_file. rewrite Hraise. destruct m. reflexivity. }
  split; [exact Hraise|]. split; [exact Hnone|]. split.
  { intros w0 path0 f0 Hf0 Henc0.
    pose proof (ProcessorFacts.unencodable_path_encode_error rt session_info_of
                  lap_analysis_of insights_of analyzer w0 (processed_files m)
                  path0 f0 Hf0 Henc0) as Hraise0.
    split; [exact Hraise0|].
    unfold _process_new_file. rewrite Hraise0. destruct m. reflexivity. }
  rewrite Hnone. cbn [snd].
  destruct (ProcessorFacts.readable_file_is_processed rt session_info_of
              lap_analysis_of insights_of analyzer w' (processed_files m)
              file_path f bytes Hf Hc Henc Hnew Hsi Hla Hins) as (d & h & Hh & Hp).
  exists d, h. split; [exact Hh|]. split; [exact Hp|].
  destruct (process_outcome w' (processed_files m) file_path)
    as [(d' & h' & Hp' & Hnew' & Hid)|(out & Hp' & Hno)].
  - rewrite Hp in Hp'. injection Hp' as <- Hset.
    assert (Heq : h' = h).
    { assert (Hel : h' ∈ ({[h]} ∪ processed_files m : gset string)).
      { rewrite Hset. apply elem_of_union_l, elem_of_singleton. reflexivity. }
      apply elem_of_union in Hel. destruct Hel as [Hel|Hel]; [|contradiction].
      apply elem_of_singleton in Hel. exact Hel. }
    rewrite <- Heq. exact Hid.
  - rewrite Hp in Hp'. injection Hp' as <- _. exfalso. exact (Hno d eq_refl).
Qed.

End ProcessNewFile.

Lemma monitor_call_counts_new_hash_witness :
  let call :=
    _process_new_file sample_runtime no_session_info no_lap_analysis no_insights
      no_professional_analysis sample_world fresh recording_path in
  exists h,
    processed_files (snd call) = {[h]} ∪ ∅
    /\ files_processed (snd call) = 1.
Proof.
  cbv zeta.
  destruct (monitor_call_counts_new_hash sample_runtime no_session_info
              no_lap_analysis no_insights no_professional_analysis
              sample_world fresh recording_path) as (Hcases & _).
  cbv zeta in Hcases.
  destruct Hcases as [(_ & Hsame)|(h & _ & Hset & Hcount & _)].
  - exfalso.
    destruct ProcessorFacts.sample_recording_processed as (d & h & Hrun).
    pose proof (process_new_file_records sample_runtime no_session_info
                  no_lap_analysis no_insights no_professional_analysis
                  sample_world fresh recording_path) as Hrec.
    rewrite Hsame in Hrec. cbn [fresh processed_files] in Hrec.
    rewrite Hrun in Hrec. cbn [snd] in Hrec.
    apply (not_elem_of_empty (C := gset string) h). rewrite Hrec.
    apply elem_of_union_l, elem_of_singleton. reflexivity.
  - exists h. split; [exact Hset|exact Hcount].
Defined.

Lemma monitor_absorbs_missing_path_witness :
  _process_new_file strict_runtime no_session_info no_lap_analysis no_insights
    no_professional_analysis node_only_world fresh recording_path
  = (None, fresh)
  /\ _process_new_file strict_runtime no_session_info no_lap_analysis no_insights
       no_professional_analysis misnamed_world fresh misnamed_path
     = (None, fresh)
  /\ exists d h,
       process_telemetry_file strict_runtime no_session_info no_lap_analysis
         no_insights no_professional_analysis sample_world ∅ recording_path
       = (Ok (Some d), {[h]} ∪ ∅)
       /\ d !! "id" = Some (PStr h).
Proof.
  destruct ProcessorFacts.sample_helpers_return as (Hsi & Hla & Hins).
  assert (Henc : is_Some (str_encode strict_runtime
                            (hash_input strict_runtime recording_path
                               (mkFile 1757770037 200000 (Some "iRacing telemetry")))))
    by (eexists; reflexivity).
  destruct (monitor_absorbs_missing_path strict_runtime no_session_info
              no_lap_analysis no_insights no_professional_analysis
              node_only_world sample_world fresh recording_path
              (mkFile 1757770037 200000 (Some "iRacing telemetry"))
              "iRacing telemetry" eq_refl eq_refl eq_refl Henc
              (fun h _ => not_elem_of_empty h) Hsi Hla Hins)
    as (_ & Hnone & Hstrict & d & h & _ & Hp & Hid).
  split; [exact Hnone|]. split.
  - apply (Hstrict misnamed_world misnamed_path
             (mkFile 1757770200 200000 (Some "iRacing telemetry"))); reflexivity.
  - exists d, h. split; [|exact Hid].
    rewrite Hnone in Hp. exact Hp.
Defined.

End MonitorFacts.

(* ===================================================================== *)
(** * Facts: theoretical best and pace trend (cosworth_pi_analysis.py)      *)
(* ===================================================================== *)

Module PaceFacts.
Import Py CosWorth Sessions.
Import Lra.
Local Open Scope R_scope.

(** ** Sorting keeps the elements *)

Lemma In_insert_sorted (x y : R) (l : list R) :
  In y (insert_sorted x l) <-> y = x \/ In y l.
Proof.
  induction l as [|z l IH]; simpl.
  - split; [intros [H|[]]; left; symmetry; exact H|intros [H|[]]; left; symmetry; exact H].
  - destruct (Rle_dec x z); simpl.
    + split; [intros [H|H]; [left; symmetry; exact H|right; exact H]
             |intros [H|H]; [left; symmetry; exact H|right; exact H]].
    + rewrite IH. tauto.
Qed.

Lemma In_np_sort (y : R) (l : list R) : In y (np_sort l) <-> In y l.
Proof.
  induction l as [|x l IH]; simpl; [tauto|].
  rewrite In_insert_sorted, IH. split; intros [H|H]; auto.
Qed.

Lemma length_insert_sorted (x : R) (l : list R) :
  length (insert_sorted x l) = S (length l).
Proof.
  induction l as [|z l IH]; simpl; [reflexivity|].
  destruct (Rle_dec x z); simpl; [reflexivity|]. rewrite IH. reflexivity.
Qed.

Lemma length_np_sort (l : list R) : length (np_sort l) = length l.
Proof.
  induction l as [|x l IH]; simpl; [reflexivity|].
  rewrite length_insert_sorted, IH. reflexivity.
Qed.

(** ** The minimum and the mean *)

Lemma fold_left_Rmin_le (l : list R) :
  forall a, fold_left Rmin l a <= a /\ Forall (fun x => fold_left Rmin l a <= x) l.
Proof.
  induction l as [|y l IH]; intros a; simpl.
  - split; [lra|constructor].
  - destruct (IH (Rmin a y)) as [H1 H2].
    pose proof (Rmin_l a y). pose proof (Rmin_r a y).
    split; [lra|]. constructor; [lra|exact H2].
Qed.

Lemma fold_left_Rmin_in (l : list R) :
  forall a, fold_left Rmin l a = a \/ In (fold_left Rmin l a) l.
Proof.
  induction l as [|y l IH]; intros a; simpl; [left; reflexivity|].
  destruct (IH (Rmin a y)) as [H|H]; [|right; right; exact H].
  rewrite H. unfold Rmin. destruct (Rle_dec a y); [left|right; left]; reflexivity.
Qed.

Lemma np_min_le (l : list R) : Forall (fun x => np_min l <= x) l.
Proof.
  destruct l as [|x l]; [constructor|]. simpl.
  destruct (fold_left_Rmin_le l x) as [H1 H2]. constructor; assumption.
Qed.

Lemma np_min_in (l : list R) : l <> [] -> In (np_min l) l.
Proof.
  destruct l as [|x l]; [congruence|]. intros _. simpl.
  destruct (fold_left_Rmin_in l x) as [H|H]; [left; symmetry; exact H|right; exact H].
Qed.

Lemma Rsum_lower (m : R) (l : list R) :
  Forall (fun x => m <= x) l -> INR (length l) * m <= Rsum l.
Proof.
  induction 1 as [|x l Hx _ IH].
  - simpl. lra.
  - cbn [length Rsum fold_right]. rewrite S_INR. unfold Rsum in IH. lra.
Qed.

Lemma INR_length_pos {A} (l : list A) : l <> [] -> 0 < INR (length l).
Proof.
  intros Hne. destruct l as [|x l]; [congruence|].
  cbn [length]. rewrite S_INR. pose proof (pos_INR (length l)). lra.
Qed.

Lemma np_mean_lower (m : R) (l : list R) :
  l <> [] -> Forall (fun x => m <= x) l -> m <= np_mean l.
Proof.
  intros Hne Hall. unfold np_mean.
  pose proof (INR_length_pos l Hne) as Hpos.
  pose proof (Rsum_lower m l Hall) as Hsum.
  apply Rmult_le_reg_r with (r := INR (length l)); [exact Hpos|].
  unfold Rdiv. rewrite Rmult_assoc, Rinv_l by lra. lra.
Qed.

(** X19.  When [_calculate_performance_metrics] returns metrics, the
    fastest lap it reports is one of the lap times and no lap time is
    below it; and when that lap time is not negative, the average lap time
    is at least 99.9 % of it and the theoretical best (0.998 times the
    mean of the three best laps, or of all laps when there are fewer) is
    at least 99.7 % of it, so the reported gap to the theoretical best is
    at least minus 0.3 % of the fastest lap.  The bounds leave 0.1 % for
    the rounding of the binary64 arithmetic, in which the mean of equal
    lap times can fall a last digit below them. *)
Theorem theoretical_best_is_near_fastest (sd : session_data) (p : performance)
  (Hp : _calculate_performance_metrics sd = Metrics p) :
  In (fastest_lap p) (get_lap_times sd)
  /\ Forall (fun t => fastest_lap p <= t) (get_lap_times sd)
  /\ (0 <= fastest_lap p ->
      0.999 * fastest_lap p <= average_lap_time p
      /\ 0.997 * fastest_lap p <= theoretical_best p
      /\ - 0.003 * fastest_lap p <= gap_to_theoretical p).
Proof.
  unfold _calculate_performance_metrics in Hp.
  destruct (get_lap_times sd) as [|x l] eqn:Hl; [discriminate|].
  injection Hp as <-.
  cbn [fastest_lap theoretical_best gap_to_theoretical average_lap_time].
  set (laps := x :: l) in *.
  assert (Hne : laps <> []) by discriminate.
  pose proof (np_min_le laps) as Hmin.
  assert (Hbest : 0.998 * np_min laps <= _calculate_theoretical_best laps).
  { unfold _calculate_theoretical_best. cbv zeta.
    assert (Hmean : np_min laps
                    <= np_mean (take (Nat.min 3 (length (np_sort laps))) (np_sort laps))).
    { apply np_mean_lower.
      - rewrite length_np_sort. unfold laps. cbn [length].
        destruct (np_sort (x :: l)) as [|y s] eqn:Hs.
        + pose proof (length_np_sort (x :: l)) as Hlen. rewrite Hs in Hlen.
          discriminate Hlen.
        + destruct (length l) as [|[|k]]; discriminate.
      - apply Forall_forall. intros t Ht. rewrite Forall_forall in Hmin.
        apply Hmin. apply list_elem_of_In, In_np_sort.
        apply list_elem_of_In. exact (subseteq_take _ _ _ Ht). }
    lra. }
  change (fold_left Rmin l x) with (np_min laps).
  split; [exact (np_min_in laps Hne)|]. split; [exact Hmin|].
  intros Hpos. pose proof (np_mean_lower _ laps Hne Hmin) as Hmean.
  split; [lra|]. split; lra.
Qed.

Lemma theoretical_best_is_near_fastest_witness :
  exists p,
    _calculate_performance_metrics three_lap_session = Metrics p
    /\ In (fastest_lap p) [90; 95; 100]
    /\ 0.997 * fastest_lap p <= theoretical_best p.
Proof.
  eexists. split; [reflexivity|].
  destruct (theoretical_best_is_near_fastest three_lap_session _ eq_refl)
    as (Hin & _ & Hbest).
  split; [exact Hin|]. apply Hbest.
  cbn [fastest_lap]. unfold get_lap_times, three_lap_session. cbn.
  unfold Rmin. repeat destruct (Rle_dec _ _); lra.
Defined.

(** ** The least-squares slope of linear lap times *)

Lemma Rsum_map_affine (a b : R) (x : list R) :
  Rsum (map (fun xi => a + b * xi) x) = INR (length x) * a + b * Rsum x.
Proof.
  induction x as [|x0 x IH].
  - simpl. lra.
  - cbn [map length Rsum fold_right]. rewrite S_INR.
    unfold Rsum in IH. rewrite IH. lra.
Qed.

Lemma Rsum_map_scale (b : R) (g : R -> R) (x : list R) :
  Rsum (map (fun xi => b * g xi) x) = b * Rsum (map g x).
Proof.
  induction x as [|x0 x IH].
  - simpl. lra.
  - cbn [map Rsum fold_right]. unfold Rsum in IH. rewrite IH. lra.
Qed.

Lemma Rsum_squares_nonneg (c : R) (x : list R) :
  0 <= Rsum (map (fun xi => Rsqr (xi - c)) x).
Proof.
  induction x as [|x0 x IH]; simpl; [lra|].
  pose proof (Rle_0_sqr (x0 - c)). unfold Rsum in *. lra.
Qed.

Lemma combine_map_r {A B} (g : A -> B) (x : list A) :
  combine x (map g x) = map (fun xi => (xi, g xi)) x.
Proof. induction x as [|x0 x IH]; simpl; [reflexivity|]. rewrite IH. reflexivity. Qed.

Lemma linear_laps_arange (a b : R) (n : nat) :
  linear_laps a b n = map (fun xi => a + b * xi) (arange n).
Proof. unfold linear_laps, arange. rewrite map_map. reflexivity. Qed.

Lemma length_arange (n : nat) : length (arange n) = n.
Proof. unfold arange. rewrite length_map, length_seq. reflexivity. Qed.

(** The squared deviations of the lap indices do not sum to zero once
    there are two laps. *)
Lemma arange_spread_pos (n : nat) (c : R) :
  (2 <= n)%nat -> 0 < Rsum (map (fun xi => Rsqr (xi - c)) (arange n)).
Proof.
  intros Hn. destruct n as [|[|n]]; [lia|lia|].
  unfold arange. cbn [seq map Rsum fold_right].
  pose proof (Rsum_squares_nonneg c (map INR (seq 2 n))) as Hrest.
  unfold Rsum in Hrest.
  change (INR 0) with 0. change (INR 1) with 1.
  unfold Rsqr in *. nra.
Qed.

Lemma polyfit_slope_linear (a b : R) (n : nat) :
  (2 <= n)%nat -> polyfit_slope (linear_laps a b n) = b.
Proof.
  intros Hn. unfold polyfit_slope. cbv zeta.
  assert (Hlen : length (linear_laps a b n) = n).
  { unfold linear_laps. rewrite length_map, length_seq. reflexivity. }
  rewrite Hlen. rewrite linear_laps_arange.
  set (x := arange n).
  assert (Hx : length x = n) by apply length_arange.
  assert (Hn0 : INR n <> 0).
  { apply not_0_INR. lia. }
  set (xm := np_mean x).
  assert (Hym : np_mean (map (fun xi => a + b * xi) x) = a + b * xm).
  { unfold xm, np_mean. rewrite Rsum_map_affine, length_map, Hx. field. exact Hn0. }
  rewrite Hym, combine_map_r, map_map. cbn [fst snd].
  assert (Hnum : Rsum (map (fun xi => (xi - xm) * (a + b * xi - (a + b * xm))) x)
                 = b * Rsum (map (fun xi => Rsqr (xi - xm)) x)).
  { rewrite <- Rsum_map_scale. f_equal. apply map_ext. intros xi.
    unfold Rsqr. ring. }
  rewrite Hnum.
  pose proof (arange_spread_pos n xm Hn) as Hpos. fold x in Hpos.
  field. lra.
Qed.

(** X20.  For a session of at least five laps whose lap times change by
    [b] seconds from each lap to the next, [_analyze_pace_degradation]
    reports one value as trend slope and as degradation per lap, within a
    millisecond of [b], and interprets it as "Improving" when the laps get
    faster by 0.011 s per lap or more, as "Stable" when the change per lap
    is at most 0.009 s in absolute value, and as "Degrading" when the laps
    get slower by 0.011 s per lap or more.  The margins of a millisecond
    around the thresholds -0.01 and 0.01 leave room for the rounding of
    the binary64 fit, which decides the label of a change of exactly
    0.01 s per lap. *)
Theorem linear_laps_pace_trend (a b : R) (n : nat) (Hn : (5 <= n)%nat) :
  exists slope interpretation,
    _analyze_pace_degradation (linear_laps a b n)
    = PaceTrend slope slope interpretation
    /\ Rabs (slope - b) <= 0.001
    /\ (b <= -0.011 -> interpretation = "Improving"%string)
    /\ (-0.009 <= b <= 0.009 -> interpretation = "Stable"%string)
    /\ (0.011 <= b -> interpretation = "Degrading"%string).
Proof.
  unfold _analyze_pace_degradation.
  assert (Hlen : length (linear_laps a b n) = n).
  { unfold linear_laps. rewrite length_map, length_seq. reflexivity. }
  rewrite Hlen. replace (n <? 5)%nat with false by (symmetry; apply Nat.ltb_ge; exact Hn).
  cbv zeta. rewrite polyfit_slope_linear by lia.
  eexists _, _. split; [reflexivity|]. split.
  { replace (b - b) with 0 by ring. rewrite Rabs_R0. lra. }
  destruct (Rlt_dec b (-0.01)) as [Hlt|Hge].
  - split; [reflexivity|]. split; intros H; lra.
  - destruct (Rlt_dec (Rabs b) 0.01) as [Habs|Habs].
    + apply Rabs_def2 in Habs.
      split; [intros H; lra|]. split; [reflexivity|intros H; lra].
    + split; [intros H; lra|]. split; [|reflexivity].
      intros H. exfalso. apply Habs. apply Rabs_def1; lra.
Qed.

Lemma linear_laps_pace_trend_witness :
  exists slope interpretation,
    _analyze_pace_degradation (linear_laps 90 (-0.05) 6)
    = PaceTrend slope slope interpretation
    /\ Rabs (slope - -0.05) <= 0.001
    /\ interpretation = "Improving"%string.
Proof.
  destruct (linear_laps_pace_trend 90 (-0.05) 6 ltac:(repeat constructor))
    as (slope & interpretation & Hrun & Hslope & Himp & _ & _).
  exists slope, interpretation. split; [exact Hrun|]. split; [exact Hslope|].
  apply Himp. lra.
Defined.

End PaceFacts.

(* ===================================================================== *)
(** * Facts: the benchmark comparison (cosworth_pi_analysis.py)             *)
(* ===================================================================== *)

Module BenchmarkFacts.
Import Py PyData Benchmark.
Import Lqa.

Lemma benchmark_for_cases (track car : string) (b : benchmark) :
  benchmark_for track car = Some b ->
  In b [ mkBenchmark 85.2 84.1 87.5; mkBenchmark 95.8 94.7 98.2;
         mkBenchmark 48.5 47.8 50.1; mkBenchmark 42.1 41.5 43.8 ]%Q.
Proof.
  unfold benchmark_for, benchmarks. cbn [assoc].
  destruct (String.eqb "roadatlanta" track).
  - cbn [assoc]. destruct (String.eqb "porsche992cup" car);
      [intros [= <-]; left; reflexivity|].
    destruct (String.eqb "toyotagr86" car); [intros [= <-]|discriminate].
    right; left; reflexivity.
  - destruct (String.eqb "talladega" track); [|discriminate].
    cbn [assoc]. destruct (String.eqb "porsche992cup" car);
      [intros [= <-]; right; right; left; reflexivity|].
    destruct (String.eqb "toyotagr86" car); [intros [= <-]|discriminate].
    right; right; right; left; reflexivity.
Qed.

(** The table orders its times: alien, then professional, then fast
    amateur, none of them zero, and the fast amateur is at most 2.4 s
    behind the professional. *)
Lemma benchmark_order (track car : string) (b : benchmark) :
  benchmark_for track car = Some b ->
  (0 < alien_time b < pro_time b)%Q
  /\ (pro_time b + 1.6 <= fast_amateur b <= pro_time b + 2.4)%Q.
Proof.
  intros H. apply benchmark_for_cases in H.
  destruct H as [<-|[<-|[<-|[<-|[]]]]]; cbn [alien_time pro_time fast_amateur]; lra.
Qed.

Lemma Qle_bool_true (a b : Q) : Qle_bool a b = true <-> (a <= b)%Q.
Proof. apply Qle_bool_iff. Qed.

Lemma Qle_bool_false (a b : Q) : Qle_bool a b = false <-> (b < a)%Q.
Proof.
  split.
  - intros H. apply Qnot_le_lt. intros Hle. apply Qle_bool_iff in Hle. congruence.
  - intros H. destruct (Qle_bool a b) eqn:E; [|reflexivity].
    apply Qle_bool_iff in E. lra.
Qed.

Lemma Qeq_bool_false (a : Q) : ~ (a == 0)%Q -> Qeq_bool a 0 = false.
Proof.
  intros H. destruct (Qeq_bool a 0) eqn:E; [|reflexivity].
  apply Qeq_bool_iff in E. contradiction.
Qed.

(** X21.  A benchmark comparison exists exactly when the session has a
    non-zero fastest lap and its track and car (in any letter case) are in
    the benchmark table.  When it exists, the gap to the alien time is
    larger than the gap to the professional time, which is larger than
    the gap to the fast amateur; the performance level is one of the four
    levels, "Professional level" exactly when the gap to the professional
    is at most 1 s; a session rated "Professional level" is never
    interpreted below "Very strong performance", and a session rated
    "Beginner/Learning" is always interpreted as "Development level".
    For any benchmark entry a faster lap never gets a worse level. *)
Theorem benchmark_comparison_is_consistent (track car : string) (fastest : Q) :
  let r := _generate_benchmark_comparison track car (Some fastest) in
  (comparison_of r = None
   <-> (fastest == 0)%Q \/ benchmark_for (lower track) (lower car) = None)
  /\ (forall c,
        comparison_of r = Some c ->
        (gap_to_fast_amateur c < gap_to_pro c < gap_to_alien c)%Q
        /\ level_rank (performance_level c) <= 3
        /\ (performance_level c = "Professional level" <-> (gap_to_pro c <= 1)%Q)
        /\ (performance_level c = "Professional level" ->
            interpretation r
            = "Exceptional performance - within half second of professional level"
            \/ interpretation r
               = "Very strong performance - approaching professional level")
        /\ (performance_level c = "Beginner/Learning" ->
            interpretation r
            = "Development level - focus on fundamentals and consistency"))
  /\ (forall b slower,
        (fastest <= slower)%Q ->
        level_rank (_determine_performance_level fastest b)
        <= level_rank (_determine_performance_level slower b)).
Proof.
  cbv zeta. unfold _generate_benchmark_comparison. cbv zeta.
  cbn [comparison_of interpretation].
  split; [|split].
  - destruct (benchmark_for (lower track) (lower car)) as [b|] eqn:Hb.
    2:{ split; [intros _; right; reflexivity|reflexivity]. }
    destruct (benchmark_order _ _ _ Hb) as [Hord _].
    rewrite (Qeq_bool_false (pro_time b)) by lra. cbn [negb]. rewrite andb_true_r.
    destruct (Qeq_bool fastest 0) eqn:E; cbn [negb].
    + split; [intros _; left; apply Qeq_bool_iff; exact E|reflexivity].
    + split; [discriminate|]. intros [H|H]; [|discriminate].
      apply Qeq_bool_iff in H. congruence.
  - intros c. destruct (benchmark_for (lower track) (lower car)) as [b|] eqn:Hb;
      [|discriminate].
    destruct (benchmark_order _ _ _ Hb) as [Hord Ham].
    destruct (negb (Qeq_bool fastest 0) && negb (Qeq_bool (pro_time b) 0));
      [|discriminate].
    intros [= <-].
    cbn [gap_to_pro gap_to_alien gap_to_fast_amateur performance_level
         _determine_performance_level _interpret_benchmark_comparison].
    rewrite (Qeq_bool_false (fast_amateur b)) by lra.
    split; [lra|].
    destruct (Qle_bool (fastest - pro_time b) 1) eqn:Epro.
    { apply Qle_bool_true in Epro.
      split; [cbn; lia|]. split; [tauto|]. split; [|discriminate].
      intros _. destruct (Qle_bool (fastest - pro_time b) 0.5) eqn:E5;
        [left; reflexivity|].
      replace (Qle_bool (fastest - pro_time b) 1.5) with true;
        [right; reflexivity|].
      symmetry. apply Qle_bool_true. lra. }
    apply Qle_bool_false in Epro.
    destruct (Qle_bool (fastest - fast_amateur b) 1) eqn:E1.
    { split; [cbn; lia|]. split; [split; [discriminate|lra]|].
      split; discriminate. }
    destruct (Qle_bool (fastest - fast_amateur b) 3) eqn:E3.
    { split; [cbn; lia|]. split; [split; [discriminate|lra]|].
      split; discriminate. }
    apply Qle_bool_false in E3.
    split; [cbn; lia|]. split; [split; [discriminate|lra]|].
    split; [discriminate|]. intros _.
    rewrite (proj2 (Qle_bool_false (fastest - pro_time b) 0.5)) by lra.
    rewrite (proj2 (Qle_bool_false (fastest - pro_time b) 1.5)) by lra.
    rewrite (proj2 (Qle_bool_false (fastest - pro_time b) 3)) by lra.
    reflexivity.
  - intros [b|] slower Hle; [|reflexivity].
    unfold _determine_performance_level.
    destruct (Qeq_bool (fast_amateur b) 0); [reflexivity|]. cbv zeta.
    destruct (Qle_bool (fastest - pro_time b) 1) eqn:F1; [cbn; lia|].
    apply Qle_bool_false in F1.
    rewrite (proj2 (Qle_bool_false (slower - pro_time b) 1)) by lra.
    destruct (Qle_bool (fastest - fast_amateur b) 1) eqn:F2.
    { destruct (Qle_bool (slower - fast_amateur b) 1); [cbn; lia|].
      destruct (Qle_bool (slower - fast_amateur b) 3); cbn; lia. }
    apply Qle_bool_false in F2.
    rewrite (proj2 (Qle_bool_false (slower - fast_amateur b) 1)) by lra.
    destruct (Qle_bool (fastest - fast_amateur b) 3) eqn:F3.
    { destruct (Qle_bool (slower - fast_amateur b) 3); cbn; lia. }
    apply Qle_bool_false in F3.
    rewrite (proj2 (Qle_bool_false (slower - fast_amateur b) 3)) by lra.
    cbn. lia.
Qed.

End BenchmarkFacts.

(* ===================================================================== *)
(** * Facts: the session information (enhanced_telemetry_processor.py)      *)
(* ===================================================================== *)

Module SessionInfoFacts.
Import Py PyData Decoder Decoding SessionInfo Samples.

Section Recording.
Variable rt : runtime.
Variable w : world.

(** The entries of a result of binary analysis that the session
    information reads. *)
Lemma binary_analysis_entries (file_path : string) (f : file) (bytes : string) :
  fs w !! file_path = Some f -> content f = Some bytes ->
  exists r,
    parse_ibt_file rt w file_path = Some r
    /\ r !! "method" = Some (PStr "binary_analysis")
    /\ r !! "fileName" = Some (PStr (basename file_path))
    /\ r !! "car" = _parse_filename_info (basename file_path) !! "car"
    /\ r !! "track" = _parse_filename_info (basename file_path) !! "track"
    /\ r !! "estimated_telemetry"
       = Some (PDict (dict_of
                        [ ("total_samples", PInt ((st_size f - 10000) / 400));
                          ("sample_rate", PInt 60);
                          ("duration_seconds",
                           PFloat (inject_Z ((st_size f - 10000) / 400) / 60));
                          ("estimated_parameters", PInt 100) ])).
Proof.
  intros Hf Hc.
  destruct (DecoderFacts.binary_analysis_succeeds rt w file_path f bytes Hf Hc)
    as [r Hr].
  exists r. split.
  { unfold parse_ibt_file, parser_methods.
    rewrite (DecoderFacts.try_methods_skip _ _ _ (DecoderFacts.irsdk_fails rt w file_path)).
    apply DecoderFacts.try_methods_take. exact Hr. }
  destruct Hr as [Hr _].
  split; [exact (proj1 (DecoderFacts.binary_analysis_result rt w file_path r Hr))|].
  revert Hr.
  unfold _parse_with_binary_analysis, _estimate_telemetry_data, open_read, getsize.
  rewrite Hf, Hc. cbn [mbind result_bind bind try_except].
  rewrite DecoderFacts.session_info_truthy, DecoderFacts.dict_of_cons_truthy.
  set (session := _extract_session_from_binary rt (substring 0 1024 bytes) file_path).
  assert (Hsession : forall k,
             k <> "source" -> k <> "binary_analysis" ->
             session !! k = _parse_filename_info (basename file_path) !! k).
  { intros k H1 H2. unfold session, _extract_session_from_binary, dict_update.
    rewrite lookup_insert_ne by congruence.
    destruct (contains "iRacing" _); [rewrite lookup_insert_ne by congruence|];
      rewrite lookup_union_l by apply lookup_empty; reflexivity. }
  intros [= <-]. unfold dict_update.
  split; [|split; [|split]].
  - rewrite lookup_union_r
      by (rewrite !lookup_insert_ne by congruence; apply lookup_empty).
    rewrite lookup_insert_ne by congruence.
    rewrite lookup_union_r.
    + rewrite !lookup_insert_ne by congruence. apply lookup_insert_eq.
    + apply DecoderFacts.session_info_keys; congruence.
  - rewrite lookup_union_r
      by (rewrite !lookup_insert_ne by congruence; apply lookup_empty).
    rewrite lookup_insert_ne by congruence.
    rewrite lookup_union_l
      by (rewrite !lookup_insert_ne by congruence; apply lookup_empty).
    apply Hsession; congruence.
  - rewrite lookup_union_r
      by (rewrite !lookup_insert_ne by congruence; apply lookup_empty).
    rewrite lookup_insert_ne by congruence.
    rewrite lookup_union_l
      by (rewrite !lookup_insert_ne by congruence; apply lookup_empty).
    apply Hsession; congruence.
  - rewrite lookup_union_l'; [apply lookup_insert_eq|].
    rewrite lookup_insert_eq. eexists. reflexivity.
Qed.

(** X22.  The session information of a recording that can be opened
    (which is decoded by binary analysis, from the file name and the file
    size only) is extracted without an exception and labels the data
    ['data_quality': 'real_analysis'] with parsing method
    ["binary_analysis"]; the file name is the base name of the path; car
    and track are those of the file name, or ["Unknown"] when the file
    name gives none; and the estimated samples, sample rate (60) and
    duration in minutes are those computed from the file size. *)
Theorem session_info_of_readable_recording (file_path : string) (f : file)
  (bytes : string)
  (Hf : fs w !! file_path = Some f) (Hc : content f = Some bytes) :
  exists r s,
    parse_ibt_file rt w file_path = Some r
    /\ _extract_enhanced_session_info r = Ok (PDict s)
    /\ s !! "data_quality" = Some (PStr "real_analysis")
    /\ s !! "parsing_method" = Some (PStr "binary_analysis")
    /\ s !! "file_name" = Some (PStr (basename file_path))
    /\ s !! "car"
       = Some (default (PStr "Unknown")
                 (_parse_filename_info (basename file_path) !! "car"))
    /\ s !! "track"
       = Some (default (PStr "Unknown")
                 (_parse_filename_info (basename file_path) !! "track"))
    /\ s !! "estimated_samples" = Some (PInt ((st_size f - 10000) / 400))
    /\ s !! "estimated_sample_rate" = Some (PInt 60)
    /\ s !! "estimated_duration_minutes"
       = Some (PFloat (inject_Z ((st_size f - 10000) / 400) / 60 / 60)).
Proof.
  destruct (binary_analysis_entries file_path f bytes Hf Hc)
    as (r & Hparse & Hmethod & Hname & Hcar & Htrack & Htelem).
  set (telem := dict_of
                  [ ("total_samples", PInt ((st_size f - 10000) / 400));
                    ("sample_rate", PInt 60);
                    ("duration_seconds",
                     PFloat (inject_Z ((st_size f - 10000) / 400) / 60));
                    ("estimated_parameters", PInt 100) ]) in Htelem.
  assert (Hsamples : telem !! "total_samples"
                     = Some (PInt ((st_size f - 10000) / 400))).
  { unfold telem, dict_of. cbn [list_to_map foldr uncurry fst snd].
    apply lookup_insert_eq. }
  assert (Hrate : telem !! "sample_rate" = Some (PInt 60)).
  { unfold telem, dict_of. cbn [list_to_map foldr uncurry fst snd].
    rewrite lookup_insert_ne by congruence. apply lookup_insert_eq. }
  assert (Hduration : telem !! "duration_seconds"
                      = Some (PFloat (inject_Z ((st_size f - 10000) / 400) / 60))).
  { unfold telem, dict_of. cbn [list_to_map foldr uncurry fst snd].
    rewrite !lookup_insert_ne by congruence. apply lookup_insert_eq. }
  exists r. unfold _extract_enhanced_session_info. cbv zeta.
  rewrite Htelem. unfold dict_get. rewrite Hmethod, Hname, Hcar, Htrack.
  cbn [get_or]. rewrite Hsamples, Hrate, Hduration.
  cbn [default from_option id is_str div_float mbind result_bind bind].
  change (String.eqb "binary_analysis" "binary_analysis") with true. cbv iota.
  eexists. split; [exact Hparse|]. split; [reflexivity|].
  unfold dict_update, dict_of. cbn [list_to_map foldr uncurry fst snd].
  split; [|split; [|split; [|split; [|split]]]].
  1-5: rewrite lookup_union_r
         by (rewrite !lookup_insert_ne by congruence; apply lookup_empty);
       rewrite ?lookup_insert_ne by congruence; apply lookup_insert_eq.
  split; [|split].
  all: rewrite lookup_union_l';
    rewrite ?lookup_insert_ne by congruence;
    rewrite lookup_insert_eq; [reflexivity|eexists; reflexivity].
Qed.

(** Whatever the parsed data, the labels of an extracted session
    information are those of its ["method"] entry, and car and track
    default to ["Unknown"]. *)
Lemma session_info_labels (raw_data s : gmap string pyval) :
  _extract_enhanced_session_info raw_data = Ok (PDict s) ->
  s !! "parsing_method" = Some (default (PStr "unknown") (raw_data !! "method"))
  /\ s !! "data_quality"
     = Some (PStr (if is_str (dict_get raw_data "method") "binary_analysis"
                   then "real_analysis" else "estimated"))
  /\ s !! "car" = Some (default (PStr "Unknown") (raw_data !! "car"))
  /\ s !! "track" = Some (default (PStr "Unknown") (raw_data !! "track")).
Proof.
  unfold _extract_enhanced_session_info. cbv zeta.
  destruct (raw_data !! "estimated_telemetry") as [telem|].
  - destruct (get_or telem "total_samples" (PInt 0)) as [v1|e];
      cbn [mbind result_bind bind]; [|discriminate].
    destruct (get_or telem "duration_seconds" (PInt 0)) as [v2|e];
      cbn [mbind result_bind bind]; [|discriminate].
    destruct (div_float v2 60) as [v3|e]; cbn [mbind result_bind bind];
      [|discriminate].
    destruct (get_or telem "sample_rate" (PInt 60)) as [v4|e];
      cbn [mbind result_bind bind]; [|discriminate].
    intros [= <-]. unfold dict_update.
    repeat split;
      rewrite lookup_union_r
        by (rewrite !lookup_insert_ne by congruence; apply lookup_empty);
      rewrite ?lookup_insert_ne by congruence; apply lookup_insert_eq.
  - intros [= <-].
    repeat split; rewrite ?lookup_insert_ne by congruence; apply lookup_insert_eq.
Qed.

(** X23.  A recording that cannot be opened but is decoded by the Node
    parser gets a session information (when the extraction returns, as it
    does when the parser's object has no ["estimated_telemetry"] entry)
    that labels the decoded telemetry ['data_quality': 'estimated'], with
    parsing method ["node_js_parser"]; car and track are those of the
    parser's object, ["Unknown"] when it has none: the file name is not
    consulted. *)
Theorem node_result_is_labelled_estimated (file_path : string)
  (d : gmap string pyval)
  (Hun : ~ readable w file_path) (Hd : node_output w file_path = Some d) :
  exists r,
    parse_ibt_file rt w file_path = Some r
    /\ (d !! "estimated_telemetry" = None ->
        exists s, _extract_enhanced_session_info r = Ok (PDict s))
    /\ forall s,
         _extract_enhanced_session_info r = Ok (PDict s) ->
         s !! "data_quality" = Some (PStr "estimated")
         /\ s !! "parsing_method" = Some (PStr "node_js_parser")
         /\ s !! "car" = Some (default (PStr "Unknown") (d !! "car"))
         /\ s !! "track" = Some (default (PStr "Unknown") (d !! "track")).
Proof.
  pose proof (DecodingFacts.unreadable_chain rt w file_path Hun) as Hparse.
  rewrite Hd in Hparse. cbn [fmap option_fmap option_map] in Hparse.
  set (r := <["success" := PBool true]> (<["method" := PStr "node_js_parser"]> d))
    in Hparse.
  assert (Hmethod : r !! "method" = Some (PStr "node_js_parser")).
  { unfold r. rewrite lookup_insert_ne by congruence. apply lookup_insert_eq. }
  assert (Hother : forall k, k <> "method" -> k <> "success" -> r !! k = d !! k).
  { intros k H1 H2. unfold r. rewrite !lookup_insert_ne by congruence. reflexivity. }
  exists r. split; [exact Hparse|]. split.
  - intros Hnone. unfold _extract_enhanced_session_info. cbv zeta.
    rewrite (Hother "estimated_telemetry") by congruence. rewrite Hnone.
    eexists. reflexivity.
  - intros s Hs. destruct (session_info_labels r s Hs) as (H1 & H2 & H3 & H4).
    unfold dict_get in H2. rewrite Hmethod in H1, H2. cbn in H1, H2.
    rewrite (Hother "car") in H3 by congruence.
    rewrite (Hother "track") in H4 by congruence.
    split; [exact H2|]. split; [exact H1|]. split; assumption.
Qed.

End Recording.

Lemma node_result_is_labelled_estimated_witness :
  exists r s,
    parse_ibt_file sample_runtime node_only_world recording_path = Some r
    /\ _extract_enhanced_session_info r = Ok (PDict s)
    /\ s !! "data_quality" = Some (PStr "estimated")
    /\ s !! "car" = Some (PStr "Unknown").
Proof.
  assert (Hun : ~ readable node_only_world recording_path).
  { intros (f & bytes & Hf & _). discriminate Hf. }
  destruct (node_result_is_labelled_estimated sample_runtime node_only_world
              recording_path _ Hun eq_refl) as (r & Hparse & Hreturns & Hlabels).
  destruct (Hreturns eq_refl) as [s Hs].
  destruct (Hlabels s Hs) as (Hq & _ & Hcar & _).
  exists r, s. split; [exact Hparse|]. split; [exact Hs|]. split; [exact Hq|exact Hcar].
Defined.

Lemma session_info_of_readable_recording_witness :
  exists r s,
    parse_ibt_file sample_runtime sample_world recording_path = Some r
    /\ _extract_enhanced_session_info r = Ok (PDict s)
    /\ s !! "data_quality" = Some (PStr "real_analysis")
    /\ s !! "car" = Some (PStr "porsche992cup")
    /\ s !! "track" = Some (PStr "roadatlanta")
    /\ s !! "estimated_samples" = Some (PInt 475).
Proof.
  destruct (session_info_of_readable_recording sample_runtime sample_world
              recording_path (mkFile 1757770037 200000 (Some "iRacing telemetry"))
              "iRacing telemetry" eq_refl eq_refl)
    as (r & s & Hparse & Hinfo & Hq & _ & _ & Hcar & Htrack & Hsamples & _).
  exists r, s. split; [exact Hparse|]. split; [exact Hinfo|]. split; [exact Hq|].
  split; [exact Hcar|]. split; [exact Htrack|exact Hsamples].
Defined.

End SessionInfoFacts.

(* ===================================================================== *)
(** * Facts: improvement over the session (enhanced_telemetry_processor.py) *)
(* ===================================================================== *)

Module ImprovementFacts.
Import Py PyData Improvement.
Import Lqa.





End ImprovementFacts.
